(** * Miniroha: a shallow embedding of the ledger engine

    The development follows the TypeScript sources module by module:
    - [JS]                   the few built-ins the sources rely on (split,
                             padEnd, BigInt, toString, the amount regular
                             expression);
    - [Amount]               the amount conversion of the engine;
    - [Canon]                canonical JSON serialisation (src/crypto);
    - [State]                the typed facade over the key-value store
                             (src/state);
    - [InstructionEngine]    the instruction handlers (src/instruction);
    - [Wire]                 the JSON shape of the records that are hashed;
    - [Crypto]               signing and verification of transactions and
                             blocks (src/crypto, src/block);
    - [BlockProducer]        the block applier (src/block);
    - [LevelDBStateStore]    the block index of the store (src/state);
    - [TransactionValidator] the transaction validator (src/transaction);
    - [MinirohaNode]         the node's block apply (src/index);
    - [BFTConsensus]         proposer rotation and quorum counting of the
                             BFT engine (src/consensus);
    - [GenesisBootstrap]     genesis validation and bootstrap (src/genesis);
    - [TransactionMempool]   the mempool (src/mempool);
    - [Sample]               a small ledger and the inputs the statements
                             below are evaluated at.

    Numbers that the sources keep as JS numbers (heights, nonces,
    precisions, timestamps) are integers here; BigInt values are [Z]. *)

From Stdlib Require Import ZArith String Ascii List Lia Bool.
From stdpp Require Import base option gmap strings list sorting fin_maps.

Local Open Scope string_scope.
Local Open Scope Z_scope.
Set Warnings "-register-all".

(** ** JavaScript built-ins *)

Module JS.

(** [\d] of a JS regular expression: the ten ASCII digits. *)
Definition is_digit (c : ascii) : bool :=
  (48 <=? N_of_ascii c)%N && (N_of_ascii c <=? 57)%N.

Definition digit_val (c : ascii) : Z := Z.of_N (N_of_ascii c) - 48.

Definition digit_char (d : Z) : ascii := ascii_of_N (48 + Z.to_N d).

Fixpoint all_digits (s : string) : bool :=
  match s with
  | EmptyString => true
  | String c s' => is_digit c && all_digits s'
  end.

Definition nonempty (s : string) : bool :=
  match s with EmptyString => false | _ => true end.

(** [skip_digits s] is what is left of [s] after a greedy [\d*]. *)
Fixpoint skip_digits (s : string) : string :=
  match s with
  | EmptyString => EmptyString
  | String c s' => if is_digit c then skip_digits s' else s
  end.

(** [\d+] followed by the rest of the input. *)
Definition digits1 (s : string) : option string :=
  match s with
  | String c s' => if is_digit c then Some (skip_digits s') else None
  | EmptyString => None
  end.

(** [/^\d+(\.\d+)?$/.test(s)] *)
Definition amount_re (s : string) : bool :=
  match digits1 s with
  | None => false
  | Some EmptyString => true
  | Some (String c r) =>
      if Ascii.eqb c "." then
        match digits1 r with
        | Some EmptyString => true
        | _ => false
        end
      else false
  end.

(** [s.split(sep)] for a one-character separator. *)
Fixpoint split (sep : ascii) (s : string) : list string :=
  match s with
  | EmptyString => [EmptyString]
  | String c s' =>
      if Ascii.eqb c sep then EmptyString :: split sep s'
      else match split sep s' with
           | p :: ps => String c p :: ps
           | [] => [String c EmptyString]
           end
  end.

Fixpoint repeat_char (c : ascii) (n : nat) : string :=
  match n with
  | O => EmptyString
  | S n' => String c (repeat_char c n')
  end.

(** [s.padEnd(n, c)] *)
Definition padEnd (s : string) (n : Z) (c : ascii) : string :=
  s +:+ repeat_char c (Z.to_nat n - String.length s).

Fixpoint digits_value_acc (s : string) (acc : Z) : Z :=
  match s with
  | EmptyString => acc
  | String c s' => digits_value_acc s' (acc * 10 + digit_val c)
  end.

Definition digits_value (s : string) : Z := digits_value_acc s 0.

(** [BigInt(s)] on the strings the ledger can hold: decimal digits
    (the empty string is 0n), optionally preceded by a minus sign.
    Anything else, for instance [1000.00], is a SyntaxError ([None]). *)
Definition BigInt (s : string) : option Z :=
  if all_digits s then Some (digits_value s)
  else match s with
       | String c t =>
           if Ascii.eqb c "-" && nonempty t && all_digits t
           then Some (- digits_value t) else None
       | EmptyString => None
       end.

Fixpoint digits_of (fuel : nat) (n : Z) (acc : string) : string :=
  let acc' := String (digit_char (n mod 10)) acc in
  match fuel with
  | O => acc'
  | S f => if n <? 10 then acc' else digits_of f (n / 10) acc'
  end.

(** [z.toString()] of a BigInt (and of an integral number). *)
Definition toString (z : Z) : string :=
  if z <? 0 then String "-" (digits_of (Z.to_nat (Z.log2 (- z))) (- z) EmptyString)
  else digits_of (Z.to_nat (Z.log2 z)) z EmptyString.

(** [s.includes(c)] for a one-character string. *)
Fixpoint has_char (c : ascii) (s : string) : bool :=
  match s with
  | EmptyString => false
  | String x s' => Ascii.eqb x c || has_char c s'
  end.

End JS.

(** ** Errors and results *)

Inductive error :=
  | InvalidAmountFormat (amount : string)
  | PrecisionExceeded (amount : string) (precision : Z)
  | SyntaxError (s : string)
  | DomainAlreadyExists (id : string)
  | AccountAlreadyExists (id : string)
  | AssetAlreadyExists (id : string)
  | InvalidAccountFormat (id : string)
  | InvalidAssetFormat (id : string)
  | DomainNotFound (id : string)
  | InvalidPrecision
  | AssetNotFound (id : string)
  | AccountNotFound (id : string)
  | SourceAccountNotFound (id : string)
  | DestinationAccountNotFound (id : string)
  | NoBalance (account asset : string)
  | InsufficientBalance (current amount : Z)
  | RoleNotFound (id : string)
  | TypeError (msg : string)
  | StorageError
  | GenesisError (msg : string).

Inductive result (A : Type) :=
  | Ok (a : A)
  | Throw (e : error).
Arguments Ok {A} a.
Arguments Throw {A} e.

Definition is_ok {A} (r : result A) : bool :=
  match r with Ok _ => true | Throw _ => false end.

(** What a method that can raise an [Error] hands back outside the
    engine: its value, or the message of the error. *)
Inductive raised (A : Type) :=
  | Returned (a : A)
  | Raised (message : string).
Arguments Returned {A} a.
Arguments Raised {A} message.

(** ** Amount conversion (InstructionEngine.validateAmount) *)

Module Amount.
Import JS.

Definition validateAmount (amount : string) (precision : Z) : result Z :=
  if negb (amount_re amount) then Throw (InvalidAmountFormat amount)
  else
    let parts := split "." amount in
    let wholePart := nth 0 parts EmptyString in
    let fractionalPart :=
      match parts !! 1%nat with
      | Some s => s
      | None => EmptyString
      end in
    if Z.of_nat (String.length fractionalPart) >? precision
    then Throw (PrecisionExceeded amount precision)
    else
      let fractionalPart := padEnd fractionalPart precision "0" in
      let smallestUnit := wholePart +:+ fractionalPart in
      match BigInt smallestUnit with
      | Some z => Ok z
      | None => Throw (SyntaxError smallestUnit)
      end.

End Amount.

(** ** Canonical JSON (src/crypto: canonicalJsonStringify)

    JS values that reach [JSON.stringify].  An object is the list of its
    own enumerable properties in enumeration order; a well-formed object
    has pairwise distinct keys.  Strings stand for sequences of code
    units, compared unit by unit as [Array.prototype.sort] does. *)

Module Canon.
Import JS.

Inductive json :=
  | JUndefined
  | JNull
  | JBool (b : bool)
  | JNum (n : Z)
  | JStr (s : string)
  | JArr (l : list json)
  | JObj (m : list (string * json)).

Definition dquote : ascii := ascii_of_N 34.
Definition backslash : ascii := ascii_of_N 92.

Definition hex_digit (n : N) : ascii :=
  if (n <? 10)%N then ascii_of_N (48 + n) else ascii_of_N (87 + n).

(** One code unit of QuoteJSONString. *)
Definition quote_char (c : ascii) : string :=
  let n := N_of_ascii c in
  if (n =? 34)%N then String backslash (String dquote EmptyString)
  else if (n =? 92)%N then String backslash (String backslash EmptyString)
  else if (n =? 8)%N then String backslash "b"
  else if (n =? 9)%N then String backslash "t"
  else if (n =? 10)%N then String backslash "n"
  else if (n =? 12)%N then String backslash "f"
  else if (n =? 13)%N then String backslash "r"
  else if (n <? 32)%N then
    String backslash
      ("u00" +:+ String (hex_digit (n / 16)) (String (hex_digit (n mod 16)) EmptyString))
  else String c EmptyString.

Fixpoint quote_body (s : string) : string :=
  match s with
  | EmptyString => EmptyString
  | String c s' => quote_char c +:+ quote_body s'
  end.

Definition quote (s : string) : string :=
  String dquote (quote_body s +:+ String dquote EmptyString).

Fixpoint join (sep : string) (l : list string) : string :=
  match l with
  | [] => EmptyString
  | [x] => x
  | x :: l' => x +:+ sep +:+ join sep l'
  end.

(** SerializeJSONProperty with an empty gap.  [K] is the PropertyList:
    [None] when no replacer is given (every own key, in enumeration
    order), [Some ks] for an array replacer, in which case the members
    of every object, at every depth, are exactly the keys of [ks] that
    the object owns, in the order of [ks].  The result [None] is
    [undefined]. *)
Fixpoint ser (K : option (list string)) (v : json) {struct v} : option string :=
  match v with
  | JUndefined => None
  | JNull => Some "null"
  | JBool true => Some "true"
  | JBool false => Some "false"
  | JNum n => Some (toString n)
  | JStr s => Some (quote s)
  | JArr l =>
      Some ("[" +:+ join ","
              (List.map (fun x => match ser K x with
                                  | Some s => s
                                  | None => "null"
                                  end) l) +:+ "]")
  | JObj m =>
      let member (P : string) : option string :=
        (fix find (m : list (string * json)) : option string :=
           match m with
           | [] => None
           | (k, x) :: m' =>
               if String.eqb k P
               then match ser K x with
                    | Some s => Some (quote P +:+ ":" +:+ s)
                    | None => None
                    end
               else find m'
           end) m in
      let all_members :=
        (fix each (m : list (string * json)) : list string :=
           match m with
           | [] => []
           | (k, x) :: m' =>
               match ser K x with
               | Some s => (quote k +:+ ":" +:+ s) :: each m'
               | None => each m'
               end
           end) m in
      let partial :=
        match K with
        | Some ks => omap member ks
        | None => all_members
        end in
      Some ("{" +:+ join "," partial +:+ "}")
  end.

Fixpoint indices (n : nat) : list string :=
  match n with
  | O => []
  | S n' => (indices n' ++ [toString (Z.of_nat n')])%list
  end.

(** [Object.keys(v)]; [None] is the TypeError raised for [null] and
    [undefined]. *)
Definition Object_keys (v : json) : option (list string) :=
  match v with
  | JUndefined | JNull => None
  | JBool _ | JNum _ => Some []
  | JStr s => Some (indices (String.length s))
  | JArr l => Some (indices (List.length l))
  | JObj m => Some (List.map fst m)
  end.

(** [arr.sort()] on strings: ascending code-unit order. *)
Definition sort (l : list string) : list string := merge_sort String.le l.

(** The PropertyList built from an array replacer: its strings in
    order, each kept at its first occurrence ([seen] holds the strings
    already in the list). *)
Fixpoint property_list_from (seen replacer : list string) : list string :=
  match replacer with
  | [] => []
  | k :: rest =>
      if existsb (String.eqb k) seen then property_list_from seen rest
      else k :: property_list_from (k :: seen) rest
  end.

Definition property_list (replacer : list string) : list string :=
  property_list_from [] replacer.

(** [JSON.stringify(v, replacer)] *)
Definition JSON_stringify (v : json) (replacer : option (list string)) : option string :=
  ser (option_map property_list replacer) v.

(** [JSON.stringify(obj, Object.keys(obj).sort())] *)
Definition canonicalJsonStringify (obj : json) : result string :=
  match Object_keys obj with
  | None => Throw (TypeError "Cannot convert undefined or null to object")
  | Some ks =>
      match JSON_stringify obj (Some (sort ks)) with
      | Some s => Ok s
      | None => Throw (TypeError "undefined")
      end
  end.

(** The serialisation the specification describes: every object's keys
    in ascending order at every level, arrays in source order. *)
Definition member_le (a b : string * json) : Prop := String.le a.1 b.1.

#[local] Instance member_le_dec : RelDecision member_le :=
  fun a b => decide (String.le a.1 b.1).

Fixpoint sort_keys (v : json) : json :=
  match v with
  | JArr l => JArr (List.map sort_keys l)
  | JObj m => JObj (merge_sort member_le (List.map (fun kv => (kv.1, sort_keys kv.2)) m))
  | _ => v
  end.

Definition canonical_spec (obj : json) : option string :=
  JSON_stringify (sort_keys obj) None.

(** [obj[P]]: the value of the own property [P], if there is one. *)
Fixpoint lookup_member (P : string) (m : list (string * json)) : option json :=
  match m with
  | [] => None
  | (k, x) :: m' => if String.eqb k P then Some x else lookup_member P m'
  end.

(** Structural induction on JS values, through arrays and objects. *)
Fixpoint json_ind' (P : json -> Prop)
    (Hu : P JUndefined) (Hn : P JNull) (Hb : forall b, P (JBool b))
    (Hz : forall n, P (JNum n)) (Hs : forall s, P (JStr s))
    (Ha : forall l, Forall P l -> P (JArr l))
    (Ho : forall m, Forall (fun kv => P kv.2) m -> P (JObj m))
    (v : json) {struct v} : P v :=
  match v with
  | JUndefined => Hu
  | JNull => Hn
  | JBool b => Hb b
  | JNum n => Hz n
  | JStr s => Hs s
  | JArr l =>
      Ha l ((fix go (l : list json) : Forall P l :=
               match l with
               | [] => @List.Forall_nil json P
               | x :: l' =>
                   @List.Forall_cons json P x l'
                     (json_ind' P Hu Hn Hb Hz Hs Ha Ho x) (go l')
               end) l)
  | JObj m =>
      Ho m ((fix go (m : list (string * json)) : Forall (fun kv => P kv.2) m :=
               match m with
               | [] => @List.Forall_nil (string * json) (fun kv => P kv.2)
               | (k, x) :: m' =>
                   @List.Forall_cons (string * json) (fun kv => P kv.2) (k, x) m'
                     (json_ind' P Hu Hn Hb Hz Hs Ha Ho x) (go m')
               end) m)
  end.

(** Observable equality of two values: equal scalars, arrays equal
    element by element, objects with the same own keys holding
    observably equal values, whatever the order in which the keys were
    created.  The keys of an object are pairwise distinct. *)
Inductive same : json -> json -> Prop :=
  | same_undefined : same JUndefined JUndefined
  | same_null : same JNull JNull
  | same_bool b : same (JBool b) (JBool b)
  | same_num n : same (JNum n) (JNum n)
  | same_str s : same (JStr s) (JStr s)
  | same_arr l1 l2 : Forall2 same l1 l2 -> same (JArr l1) (JArr l2)
  | same_obj m1 m2 :
      NoDup (List.map fst m1) -> NoDup (List.map fst m2) ->
      (forall k, option_Forall2 same (lookup_member k m1) (lookup_member k m2)) ->
      same (JObj m1) (JObj m2).

(** The member of an emitted object for the key [P], and the emitted
    value: what [ser (Some ks)] prints, as a value of its own. *)
Fixpoint emitted (ks : list string) (v : json) {struct v} : json :=
  match v with
  | JArr l =>
      JArr (List.map (fun x => match x with
                               | JUndefined => JNull
                               | _ => emitted ks x
                               end) l)
  | JObj m =>
      JObj (omap (fun P =>
                    (fix find (m : list (string * json)) : option (string * json) :=
                       match m with
                       | [] => None
                       | (k, x) :: m' =>
                           if String.eqb k P
                           then match x with
                                | JUndefined => None
                                | _ => Some (P, emitted ks x)
                                end
                           else find m'
                       end) m) ks)
  | _ => v
  end.



End Canon.

(** ** Data model (src/types) *)

Record Domain := mkDomain { domain_id : string; domain_created_at : Z }.

Record Account := mkAccount {
  account_id : string;
  account_public_key : string;
  account_roles : list string;
  account_created_at : Z }.

Record Asset := mkAsset {
  asset_id : string;
  asset_precision : Z;
  asset_created_at : Z }.

Record Balance := mkBalance {
  balance_asset_id : string;
  balance_account_id : string;
  balance_amount : string }.

Record Role := mkRole { role_id : string; role_permissions : list string }.

Record Validator := mkValidator { validator_id : string; validator_public_key : string }.

Inductive Instruction :=
  | RegisterDomain (id : string)
  | RegisterAccount (id public_key : string)
  | RegisterAsset (id : string) (precision : Z)
  | MintAsset (asset account amount : string)
  | BurnAsset (asset account amount : string)
  | TransferAsset (asset src_account dest_account amount : string)
  | GrantRole (role account : string)
  | RevokeRole (role account : string).

Record Signature := mkSignature { sig_public_key : string; sig_signature : string }.

Record TransactionBody := mkBody {
  body_chain_id : string;
  body_signer_id : string;
  body_nonce : Z;
  body_created_at : Z;
  body_instructions : list Instruction }.

Record Transaction := mkTx { tx_body : TransactionBody; tx_signature : Signature }.

Record BlockHeader := mkHeader {
  header_height : Z;
  header_prev_hash : string;
  header_timestamp : Z }.

Record Block := mkBlock {
  block_header : BlockHeader;
  block_transactions : list Transaction;
  block_proposer_id : string;
  block_signature : Signature }.

#[global] Instance Domain_eq_dec : EqDecision Domain.
Proof. solve_decision. Defined.
#[global] Instance Account_eq_dec : EqDecision Account.
Proof. solve_decision. Defined.
#[global] Instance Asset_eq_dec : EqDecision Asset.
Proof. solve_decision. Defined.
#[global] Instance Balance_eq_dec : EqDecision Balance.
Proof. solve_decision. Defined.
#[global] Instance Role_eq_dec : EqDecision Role.
Proof. solve_decision. Defined.

(** ** State store facade (src/state: LevelDBStateStore)

    The store is keyed by text: the paths of the key layout.  A key is
    written in structured form here and [key_text] is the text it stands
    for.  The text before the first [/] tells the families of keys
    apart, and each family holds values of one shape, as every writer
    in the sources stores them.  Within a family the key is the id,
    except for balances: [KBalance a b] stands for [balances/<a>/<b>],
    ids may hold [/], and so the balances are kept under the text
    [<a>/<b>], where two pairs of ids can meet. *)

Module State.

Inductive key :=
  | KDomain (id : string)
  | KAccount (id : string)
  | KAccountRoles (id : string)
  | KAsset (id : string)
  | KBalance (asset account : string)
  | KRole (id : string)
  | KValidator (id : string)
  | KBlock (height : Z)
  | KBlockByHash (hash : string)
  | KTx (hash : string)
  | KChainId
  | KLastHeight.

Definition value_of (k : key) : Type :=
  match k with
  | KDomain _ => Domain
  | KAccount _ => Account
  | KAccountRoles _ => list string
  | KAsset _ => Asset
  | KBalance _ _ => Balance
  | KRole _ => Role
  | KValidator _ => Validator
  | KBlock _ => Block
  | KBlockByHash _ => Z
  | KTx _ => Transaction
  | KChainId => string
  | KLastHeight => Z
  end.

Record store := mkStore {
  domains : gmap string Domain;
  accounts : gmap string Account;
  account_roles_of : gmap string (list string);
  assets : gmap string Asset;
  balances : gmap string Balance;
  roles : gmap string Role;
  validators : gmap string Validator;
  blocks : gmap Z Block;
  blocks_by_hash : gmap string Z;
  txs : gmap string Transaction;
  chain_id : option string;
  last_height : option Z }.

(** The text that follows [balances/] in the key of a balance. *)
Definition balanceKey (asset account : string) : string :=
  asset +:+ "/" +:+ account.

(** The key as the sources write it. *)
Definition key_text (k : key) : string :=
  match k with
  | KDomain id => "domains/" +:+ id
  | KAccount id => "accounts/" +:+ id
  | KAccountRoles id => "account_roles/" +:+ id
  | KAsset id => "assets/" +:+ id
  | KBalance asset account => "balances/" +:+ balanceKey asset account
  | KRole id => "roles/" +:+ id
  | KValidator id => "validators/" +:+ id
  | KBlock height => "blocks/" +:+ JS.toString height
  | KBlockByHash hash => "blocks_by_hash/" +:+ hash
  | KTx hash => "txs/" +:+ hash
  | KChainId => "chain_id"
  | KLastHeight => "last_height"
  end.

Definition empty : store :=
  mkStore ∅ ∅ ∅ ∅ ∅ ∅ ∅ ∅ ∅ ∅ None None.

(** [get(key)]: [None] is the [null] returned for a missing key. *)
Definition get (k : key) (st : store) : option (value_of k) :=
  match k with
  | KDomain id => domains st !! id
  | KAccount id => accounts st !! id
  | KAccountRoles id => account_roles_of st !! id
  | KAsset id => assets st !! id
  | KBalance a b => balances st !! balanceKey a b
  | KRole id => roles st !! id
  | KValidator id => validators st !! id
  | KBlock h => blocks st !! h
  | KBlockByHash h => blocks_by_hash st !! h
  | KTx h => txs st !! h
  | KChainId => chain_id st
  | KLastHeight => last_height st
  end.

(** Point update of one family: [Some v] writes, [None] removes. *)
Definition upd {K V} `{Countable K} (i : K) (o : option V) (m : gmap K V) : gmap K V :=
  match o with
  | Some v => <[i := v]> m
  | None => delete i m
  end.

Definition write (k : key) : option (value_of k) -> store -> store :=
  match k with
  | KDomain id => fun o st =>
      mkStore (upd id o (domains st)) (accounts st) (account_roles_of st) (assets st)
              (balances st) (roles st) (validators st) (blocks st) (blocks_by_hash st)
              (txs st) (chain_id st) (last_height st)
  | KAccount id => fun o st =>
      mkStore (domains st) (upd id o (accounts st)) (account_roles_of st) (assets st)
              (balances st) (roles st) (validators st) (blocks st) (blocks_by_hash st)
              (txs st) (chain_id st) (last_height st)
  | KAccountRoles id => fun o st =>
      mkStore (domains st) (accounts st) (upd id o (account_roles_of st)) (assets st)
              (balances st) (roles st) (validators st) (blocks st) (blocks_by_hash st)
              (txs st) (chain_id st) (last_height st)
  | KAsset id => fun o st =>
      mkStore (domains st) (accounts st) (account_roles_of st) (upd id o (assets st))
              (balances st) (roles st) (validators st) (blocks st) (blocks_by_hash st)
              (txs st) (chain_id st) (last_height st)
  | KBalance a b => fun o st =>
      mkStore (domains st) (accounts st) (account_roles_of st) (assets st)
              (upd (balanceKey a b) o (balances st)) (roles st) (validators st) (blocks st)
              (blocks_by_hash st) (txs st) (chain_id st) (last_height st)
  | KRole id => fun o st =>
      mkStore (domains st) (accounts st) (account_roles_of st) (assets st)
              (balances st) (upd id o (roles st)) (validators st) (blocks st)
              (blocks_by_hash st) (txs st) (chain_id st) (last_height st)
  | KValidator id => fun o st =>
      mkStore (domains st) (accounts st) (account_roles_of st) (assets st)
              (balances st) (roles st) (upd id o (validators st)) (blocks st)
              (blocks_by_hash st) (txs st) (chain_id st) (last_height st)
  | KBlock h => fun o st =>
      mkStore (domains st) (accounts st) (account_roles_of st) (assets st)
              (balances st) (roles st) (validators st) (upd h o (blocks st))
              (blocks_by_hash st) (txs st) (chain_id st) (last_height st)
  | KBlockByHash h => fun o st =>
      mkStore (domains st) (accounts st) (account_roles_of st) (assets st)
              (balances st) (roles st) (validators st) (blocks st)
              (upd h o (blocks_by_hash st)) (txs st) (chain_id st) (last_height st)
  | KTx h => fun o st =>
      mkStore (domains st) (accounts st) (account_roles_of st) (assets st)
              (balances st) (roles st) (validators st) (blocks st) (blocks_by_hash st)
              (upd h o (txs st)) (chain_id st) (last_height st)
  | KChainId => fun o st =>
      mkStore (domains st) (accounts st) (account_roles_of st) (assets st)
              (balances st) (roles st) (validators st) (blocks st) (blocks_by_hash st)
              (txs st) o (last_height st)
  | KLastHeight => fun o st =>
      mkStore (domains st) (accounts st) (account_roles_of st) (assets st)
              (balances st) (roles st) (validators st) (blocks st) (blocks_by_hash st)
              (txs st) (chain_id st) o
  end.

(** [put(key, value)] and [del(key)]: written through at once. *)
Definition put (k : key) (v : value_of k) (st : store) : store := write k (Some v) st.
Definition del (k : key) (st : store) : store := write k None st.

(** One entry of the array handed to [batch]. *)
Inductive op :=
  | OpPut (k : key) (v : value_of k)
  | OpDel (k : key).

Definition apply_op (st : store) (o : op) : store :=
  match o with
  | OpPut k v => put k v st
  | OpDel k => del k st
  end.

Definition apply_ops (ops : list op) (st : store) : store :=
  fold_left apply_op ops st.

(** [batch(operations)]: the write of a LevelDB batch either applies
    every operation or, when the store fails ([commit_ok = false]),
    raises and applies none. *)
Definition batch (commit_ok : bool) (ops : list op) (st : store) : result unit * store :=
  if commit_ok then (Ok tt, apply_ops ops st) else (Throw StorageError, st).

(** Typed helpers. *)
Definition getDomain (id : string) := get (KDomain id).
Definition putDomain (d : Domain) := put (KDomain (domain_id d)) d.
Definition getAccount (id : string) := get (KAccount id).
Definition putAccount (a : Account) := put (KAccount (account_id a)) a.
Definition getAsset (id : string) := get (KAsset id).
Definition putAsset (a : Asset) := put (KAsset (asset_id a)) a.
Definition getBalance (asset account : string) := get (KBalance asset account).
Definition putBalance (b : Balance) :=
  put (KBalance (balance_asset_id b) (balance_account_id b)) b.
Definition getRole (id : string) := get (KRole id).
(** [getAccountRoles] returns the promise of [get], so its [|| []] never
    applies: a missing key yields [null]. *)
Definition getAccountRoles (id : string) := get (KAccountRoles id).
Definition putAccountRoles (id : string) (rs : list string) := put (KAccountRoles id) rs.
Definition getBlock (h : Z) := get (KBlock h).
Definition getLastHeight (st : store) : Z :=
  match get KLastHeight st with
  | Some h => h
  | None => 0
  end.

(** The families that only the block applier and genesis write. *)
Definition chain_records (st : store) :=
  (blocks st, blocks_by_hash st, txs st, chain_id st, last_height st, validators st).

(** The families that the instruction engine writes. *)
Definition ledger (st : store) :=
  (domains st, accounts st, account_roles_of st, assets st, balances st, roles st).

(** A queued write of a transaction record. *)
Definition tx_record_op (o : op) : Prop :=
  match o with
  | OpPut (KTx _) _ => True
  | _ => False
  end.

#[global] Instance key_eq_dec : EqDecision key.
Proof. solve_decision. Defined.

(** The key that an operation of a batch writes or removes. *)
Definition op_key (o : op) : key :=
  match o with
  | OpPut k _ => k
  | OpDel k => k
  end.

(** Two keys that name one key of the store: balance keys are the same
    when their texts are, the other keys when their ids are. *)
Definition same_key (k k' : key) : Prop :=
  match k, k' with
  | KBalance a b, KBalance a' b' => balanceKey a b = balanceKey a' b'
  | _, _ => k = k'
  end.

#[global] Instance same_key_dec k k' : Decision (same_key k k').
Proof. destruct k, k'; cbn [same_key]; apply _. Defined.

End State.

(** ** Instruction engine (src/instruction: InstructionEngine)

    A handler runs against the store and writes through [put]/[del] at
    once; an exception leaves the writes made before it in place. *)

Module InstructionEngine.
Import JS State Amount.

Definition M (A : Type) : Type := store -> result A * store.

Definition ret {A} (a : A) : M A := fun st => (Ok a, st).
Definition throw {A} (e : error) : M A := fun st => (Throw e, st).
Definition bind {A B} (m : M A) (k : A -> M B) : M B :=
  fun st => match m st with
            | (Ok a, st') => k a st'
            | (Throw e, st') => (Throw e, st')
            end.
Definition read {A} (f : store -> A) : M A := fun st => (Ok (f st), st).
Definition modify (f : store -> store) : M unit := fun st => (Ok tt, f st).
Definition lift {A} (r : result A) : M A := fun st => (r, st).

Declare Scope engine_scope.
Delimit Scope engine_scope with engine.
Notation "x <- c ;; k" := (bind c (fun x => k))
  (at level 100, c at next level, right associativity) : engine_scope.
Notation "c ;; k" := (bind c (fun _ => k))
  (at level 100, right associativity) : engine_scope.
Local Open Scope engine_scope.

(** [BigInt(s)] inside a handler. *)
Definition bigint (s : string) : M Z :=
  match BigInt s with
  | Some z => ret z
  | None => throw (SyntaxError s)
  end.

(** [!x] for a string obtained by destructuring: missing or empty. *)
Definition missing (o : option string) : bool :=
  match o with
  | Some s => negb (nonempty s)
  | None => true
  end.

Definition handleRegisterDomain (now : Z) (id : string) : M unit :=
  existingDomain <- read (getDomain id) ;;
  match existingDomain with
  | Some _ => throw (DomainAlreadyExists id)
  | None => modify (putDomain (mkDomain id now))
  end.

Definition handleRegisterAccount (now : Z) (id public_key : string) : M unit :=
  existingAccount <- read (getAccount id) ;;
  match existingAccount with
  | Some _ => throw (AccountAlreadyExists id)
  | None =>
      let parts := split "@" id in
      let name := parts !! 0%nat in
      let domain := parts !! 1%nat in
      if missing name || missing domain then throw (InvalidAccountFormat id)
      else
        let domain := default EmptyString domain in
        domainExists <- read (getDomain domain) ;;
        match domainExists with
        | None => throw (DomainNotFound domain)
        | Some _ =>
            modify (putAccount (mkAccount id public_key [] now)) ;;
            modify (putAccountRoles id [])
        end
  end.

Definition handleRegisterAsset (now : Z) (id : string) (precision : Z) : M unit :=
  existingAsset <- read (getAsset id) ;;
  match existingAsset with
  | Some _ => throw (AssetAlreadyExists id)
  | None =>
      let parts := split "#" id in
      let assetId := parts !! 0%nat in
      let domain := parts !! 1%nat in
      if missing assetId || missing domain then throw (InvalidAssetFormat id)
      else
        let domain := default EmptyString domain in
        domainExists <- read (getDomain domain) ;;
        match domainExists with
        | None => throw (DomainNotFound domain)
        | Some _ =>
            if (precision <? 0) || (precision >? 18) then throw InvalidPrecision
            else modify (putAsset (mkAsset id precision now))
        end
  end.

Definition handleMintAsset (asset_id account_id amount : string) : M unit :=
  asset <- read (getAsset asset_id) ;;
  match asset with
  | None => throw (AssetNotFound asset_id)
  | Some asset =>
      account <- read (getAccount account_id) ;;
      match account with
      | None => throw (AccountNotFound account_id)
      | Some _ =>
          amount <- lift (validateAmount amount (asset_precision asset)) ;;
          currentBalance <- read (getBalance asset_id account_id) ;;
          currentAmount <- match currentBalance with
                           | Some b => bigint (balance_amount b)
                           | None => ret 0
                           end ;;
          modify (putBalance (mkBalance asset_id account_id (toString (currentAmount + amount))))
      end
  end.

Definition handleBurnAsset (asset_id account_id amount : string) : M unit :=
  asset <- read (getAsset asset_id) ;;
  match asset with
  | None => throw (AssetNotFound asset_id)
  | Some asset =>
      account <- read (getAccount account_id) ;;
      match account with
      | None => throw (AccountNotFound account_id)
      | Some _ =>
          amount <- lift (validateAmount amount (asset_precision asset)) ;;
          currentBalance <- read (getBalance asset_id account_id) ;;
          match currentBalance with
          | None => throw (NoBalance account_id asset_id)
          | Some b =>
              currentAmount <- bigint (balance_amount b) ;;
              if currentAmount <? amount
              then throw (InsufficientBalance currentAmount amount)
              else
                let newAmount := currentAmount - amount in
                if newAmount =? 0
                then modify (del (KBalance asset_id account_id))
                else modify (putBalance (mkBalance asset_id account_id (toString newAmount)))
          end
      end
  end.

Definition handleTransferAsset (asset_id src_account dest_account amount : string) : M unit :=
  asset <- read (getAsset asset_id) ;;
  match asset with
  | None => throw (AssetNotFound asset_id)
  | Some asset =>
      srcAccount <- read (getAccount src_account) ;;
      match srcAccount with
      | None => throw (SourceAccountNotFound src_account)
      | Some _ =>
          destAccount <- read (getAccount dest_account) ;;
          match destAccount with
          | None => throw (DestinationAccountNotFound dest_account)
          | Some _ =>
              amount <- lift (validateAmount amount (asset_precision asset)) ;;
              srcBalance <- read (getBalance asset_id src_account) ;;
              match srcBalance with
              | None => throw (NoBalance src_account asset_id)
              | Some b =>
                  srcAmount <- bigint (balance_amount b) ;;
                  if srcAmount <? amount
                  then throw (InsufficientBalance srcAmount amount)
                  else
                    let newSrcAmount := srcAmount - amount in
                    (if newSrcAmount =? 0
                     then modify (del (KBalance asset_id src_account))
                     else modify (putBalance
                                    (mkBalance asset_id src_account (toString newSrcAmount)))) ;;
                    destBalance <- read (getBalance asset_id dest_account) ;;
                    destAmount <- match destBalance with
                                  | Some d => bigint (balance_amount d)
                                  | None => ret 0
                                  end ;;
                    modify (putBalance
                              (mkBalance asset_id dest_account (toString (destAmount + amount))))
              end
          end
      end
  end.

Definition includes (rs : list string) (r : string) : bool := existsb (String.eqb r) rs.

Definition handleGrantRole (role_id account_id : string) : M unit :=
  role <- read (getRole role_id) ;;
  match role with
  | None => throw (RoleNotFound role_id)
  | Some _ =>
      account <- read (getAccount account_id) ;;
      match account with
      | None => throw (AccountNotFound account_id)
      | Some _ =>
          currentRoles <- read (getAccountRoles account_id) ;;
          match currentRoles with
          | None => throw (TypeError "currentRoles is null")
          | Some currentRoles =>
              if includes currentRoles role_id then ret tt
              else modify (putAccountRoles account_id (currentRoles ++ [role_id])%list)
          end
      end
  end.

Definition handleRevokeRole (role_id account_id : string) : M unit :=
  account <- read (getAccount account_id) ;;
  match account with
  | None => throw (AccountNotFound account_id)
  | Some _ =>
      currentRoles <- read (getAccountRoles account_id) ;;
      match currentRoles with
      | None => throw (TypeError "currentRoles is null")
      | Some currentRoles =>
          if includes currentRoles role_id
          then modify (putAccountRoles account_id
                         (List.filter (fun r => negb (String.eqb r role_id)) currentRoles))
          else ret tt
      end
  end.

(** [execute(instruction, signerId)]; [now] is the reading of
    [Date.now()] taken by the handler. *)
Definition execute (now : Z) (i : Instruction) (signerId : string) : M unit :=
  match i with
  | RegisterDomain id => handleRegisterDomain now id
  | RegisterAccount id pk => handleRegisterAccount now id pk
  | RegisterAsset id p => handleRegisterAsset now id p
  | MintAsset a acc amt => handleMintAsset a acc amt
  | BurnAsset a acc amt => handleBurnAsset a acc amt
  | TransferAsset a src dst amt => handleTransferAsset a src dst amt
  | GrantRole r acc => handleGrantRole r acc
  | RevokeRole r acc => handleRevokeRole r acc
  end.

(** [for (const instruction of instructions) await execute(...)] *)
Fixpoint execute_all (now : Z) (instructions : list Instruction) (signerId : string) : M unit :=
  match instructions with
  | [] => ret tt
  | i :: rest => execute now i signerId ;; execute_all now rest signerId
  end.

(** Sum of the stored balances of one asset: the amounts of the stored
    balance records whose [asset_id] is the asset.  An absent key counts
    as zero (and so does an amount that does not read as an integer). *)
Definition amount_of (b : Balance) : Z := default 0 (BigInt (balance_amount b)).

Definition total_of (asset : string) (m : gmap string Balance) : Z :=
  map_fold (fun (_ : string) (b : Balance) (acc : Z) =>
              if decide (balance_asset_id b = asset) then acc + amount_of b else acc) 0 m.

Definition total_supply (asset : string) (st : store) : Z :=
  total_of asset (balances st).

(** What the record under one key contributes to the supply of [asset]. *)
Definition held (asset : string) (o : option Balance) : Z :=
  match o with
  | Some b => if decide (balance_asset_id b = asset) then amount_of b else 0
  | None => 0
  end.

(** The balance found under the key of [asset] and [account], when
    there is one, is a balance of [asset]. *)
Definition of_asset (asset account : string) (st : store) : Prop :=
  match getBalance asset account st with
  | Some b => balance_asset_id b = asset
  | None => True
  end.

(** An id without [/]. *)
Definition plain (id : string) : bool := negb (has_char "/" id).

(** The ids by which a transfer names its balance keys hold no [/]. *)
Definition plain_transfer (i : Instruction) : bool :=
  match i with
  | TransferAsset asset_id src_account dest_account _ =>
      plain asset_id && plain src_account && plain dest_account
  | _ => true
  end.

(** The two branches by which a burn or a transfer writes the reduced
    source balance. *)
Definition debit (asset account : string) (newAmount : Z) (st : store) : store :=
  if newAmount =? 0 then del (KBalance asset account) st
  else putBalance (mkBalance asset account (toString newAmount)) st.

(** The integer held under [balances/<asset>/<account>]. *)
Definition balance_value (asset account : string) (st : store) : option Z :=
  match getBalance asset account st with
  | Some b => BigInt (balance_amount b)
  | None => None
  end.

(** Case analysis over every branch of a handler. *)
Ltac run_engine :=
  unfold handleRegisterDomain, handleRegisterAccount, handleRegisterAsset,
    handleMintAsset, handleBurnAsset, handleTransferAsset, handleGrantRole,
    handleRevokeRole, bigint, bind, read, lift, throw, modify, ret;
  repeat (cbv beta iota; case_match); simplify_eq; try reflexivity.

(** A stored balance is readable when its amount reads as a non-negative
    integer and its fields name the key it is stored under. *)
Definition readable (k : string) (b : Balance) : bool :=
  match BigInt (balance_amount b) with
  | Some z => (0 <=? z)
              && String.eqb k (balanceKey (balance_asset_id b) (balance_account_id b))
  | None => false
  end.

Definition balances_readable (st : store) : Prop :=
  map_Forall (fun k b => readable k b = true) (balances st).

(** The instructions that create or destroy units of an asset. *)
Definition issues (i : Instruction) : bool :=
  match i with
  | MintAsset _ _ _ | BurnAsset _ _ _ => true
  | _ => false
  end.

End InstructionEngine.

(** ** Wire encoding of the records that are hashed *)

Module Wire.
Import Canon.

Definition json_of_instruction (i : Instruction) : json :=
  match i with
  | RegisterDomain id =>
      JObj [("type", JStr "RegisterDomain"); ("id", JStr id)]
  | RegisterAccount id pk =>
      JObj [("type", JStr "RegisterAccount"); ("id", JStr id); ("public_key", JStr pk)]
  | RegisterAsset id p =>
      JObj [("type", JStr "RegisterAsset"); ("id", JStr id); ("precision", JNum p)]
  | MintAsset a acc amt =>
      JObj [("type", JStr "MintAsset"); ("asset_id", JStr a); ("account_id", JStr acc);
            ("amount", JStr amt)]
  | BurnAsset a acc amt =>
      JObj [("type", JStr "BurnAsset"); ("asset_id", JStr a); ("account_id", JStr acc);
            ("amount", JStr amt)]
  | TransferAsset a src dst amt =>
      JObj [("type", JStr "TransferAsset"); ("asset_id", JStr a); ("src_account", JStr src);
            ("dest_account", JStr dst); ("amount", JStr amt)]
  | GrantRole r acc =>
      JObj [("type", JStr "GrantRole"); ("role_id", JStr r); ("account_id", JStr acc)]
  | RevokeRole r acc =>
      JObj [("type", JStr "RevokeRole"); ("role_id", JStr r); ("account_id", JStr acc)]
  end.

Definition json_of_signature (s : Signature) : json :=
  JObj [("public_key", JStr (sig_public_key s)); ("signature", JStr (sig_signature s))].

Definition json_of_body (b : TransactionBody) : json :=
  JObj [("chain_id", JStr (body_chain_id b));
        ("signer_id", JStr (body_signer_id b));
        ("nonce", JNum (body_nonce b));
        ("created_at", JNum (body_created_at b));
        ("instructions", JArr (List.map json_of_instruction (body_instructions b)))].

Definition json_of_tx (t : Transaction) : json :=
  JObj [("body", json_of_body (tx_body t)); ("signature", json_of_signature (tx_signature t))].

Definition json_of_header (h : BlockHeader) : json :=
  JObj [("height", JNum (header_height h));
        ("prev_hash", JStr (header_prev_hash h));
        ("timestamp", JNum (header_timestamp h))].

End Wire.

(** ** Signatures (src/crypto: signTransaction, verifyTransaction;
       src/block: signBlock, verifyBlockSignature) *)

Module Crypto.
Import Canon Wire.

(** The object that [signBlock] and [verifyBlockSignature] serialise:
    the block without its signature. *)
Definition json_of_block_unsigned (blk : Block) : json :=
  JObj [("header", json_of_header (block_header blk));
        ("transactions", JArr (List.map json_of_tx (block_transactions blk)));
        ("proposer_id", JStr (block_proposer_id blk))].

Section WithKeys.
(** [sign(message, privateKey)] and the encoded public key of a private
    key; both raise on a key that does not decode.
    [verify(message, signature, publicKey)] answers [false] on input
    that does not decode. *)
Variable sign : string -> string -> result string.
Variable publicKeyOf : string -> result string.
Variable verify : string -> string -> string -> bool.

Definition signTransaction (transactionBody : TransactionBody) (privateKey : string)
  : result Signature :=
  match canonicalJsonStringify (json_of_body transactionBody) with
  | Throw e => Throw e
  | Ok canonicalBody =>
      match sign canonicalBody privateKey with
      | Throw e => Throw e
      | Ok signature =>
          match publicKeyOf privateKey with
          | Throw e => Throw e
          | Ok publicKey => Ok (mkSignature publicKey signature)
          end
      end
  end.

Definition verifyTransaction (transaction : Transaction) : result bool :=
  match canonicalJsonStringify (json_of_body (tx_body transaction)) with
  | Throw e => Throw e
  | Ok canonicalBody =>
      Ok (verify canonicalBody (sig_signature (tx_signature transaction))
                 (sig_public_key (tx_signature transaction)))
  end.

(** [BlockProducer.signBlock] *)
Definition signBlock (privateKey : string) (blk : Block) : result Signature :=
  match publicKeyOf privateKey with
  | Throw e => Throw e
  | Ok publicKey =>
      match canonicalJsonStringify (json_of_block_unsigned blk) with
      | Throw e => Throw e
      | Ok canonicalBlock =>
          match sign canonicalBlock privateKey with
          | Throw e => Throw e
          | Ok signature => Ok (mkSignature publicKey signature)
          end
      end
  end.

(** [BlockProducer.verifyBlockSignature]: any exception is [false]. *)
Definition verifyBlockSignature (blk : Block) : bool :=
  match canonicalJsonStringify (json_of_block_unsigned blk) with
  | Throw _ => false
  | Ok canonicalBlock =>
      verify canonicalBlock (sig_signature (block_signature blk))
             (sig_public_key (block_signature blk))
  end.

End WithKeys.

(** The property lists that [canonicalJsonStringify] hands to
    [JSON.stringify] for a transaction body, for a block without its
    signature and for a transaction: their own keys, sorted. *)
Definition body_keys : list string :=
  ["chain_id"; "created_at"; "instructions"; "nonce"; "signer_id"].
Definition block_keys : list string := ["header"; "proposer_id"; "transactions"].
Definition tx_keys : list string := ["body"; "signature"].

End Crypto.

(** ** Block applier (src/block: BlockProducer.applyBlock) and mempool *)

Module BlockProducer.
Import Canon Wire State InstructionEngine.
Local Open Scope engine_scope.

(** The pending transactions in offer order, each with its pool hash. *)
Definition mempool := list (string * Transaction).

Section WithHash.
(** [hash] of src/crypto: base58 of SHA-512. *)
Variable hash : string -> string.

Definition calculateBlockHash (blk : Block) : result string :=
  match canonicalJsonStringify (json_of_header (block_header blk)) with
  | Ok s => Ok (hash s)
  | Throw e => Throw e
  end.

Definition calculateTransactionHash (tx : Transaction) : result string :=
  match canonicalJsonStringify (json_of_tx tx) with
  | Ok s => Ok (hash s)
  | Throw e => Throw e
  end.

(** The mempool hashes [JSON.stringify(tx)]. *)
Definition mempoolHash (tx : Transaction) : string :=
  match JSON_stringify (json_of_tx tx) None with
  | Some s => hash s
  | None => hash "undefined"
  end.

Definition remove (txHash : string) (mp : mempool) : mempool :=
  List.filter (fun e => negb (String.eqb e.1 txHash)) mp.

Definition removeTransactionsForBlock (txs : list Transaction) (mp : mempool) : mempool :=
  fold_left (fun mp tx => remove (mempoolHash tx) mp) txs mp.

(** The loop over [block.transactions]: the transaction record is
    queued, the instructions are executed through the engine. *)
Fixpoint processTransactions (now : Z) (txs : list Transaction) (operations : list op)
  : M (list op) :=
  match txs with
  | [] => ret operations
  | tx :: rest =>
      txHash <- lift (calculateTransactionHash tx) ;;
      let operations := (operations ++ [OpPut (KTx txHash) tx])%list in
      execute_all now (body_instructions (tx_body tx)) (body_signer_id (tx_body tx)) ;;
      processTransactions now rest operations
  end.

(** [applyBlock] up to and including [stateStore.batch(operations)]. *)
Definition applyBlock_store (commit_ok : bool) (now : Z) (blk : Block) : M unit :=
  let height := header_height (block_header blk) in
  let operations := [OpPut (KBlock height) blk] in
  blockHash <- lift (calculateBlockHash blk) ;;
  let operations := (operations ++ [OpPut (KBlockByHash blockHash) height])%list in
  operations <- processTransactions now (block_transactions blk) operations ;;
  let operations := (operations ++ [OpPut KLastHeight height])%list in
  batch commit_ok operations.

(** [applyBlock(block)]: the store part, then the mempool clean-up. *)
Definition applyBlock (commit_ok : bool) (now : Z) (blk : Block)
    (st : store) (mp : mempool) : result unit * store * mempool :=
  match applyBlock_store commit_ok now blk st with
  | (Ok _, st') => (Ok tt, st', removeTransactionsForBlock (block_transactions blk) mp)
  | (Throw e, st') => (Throw e, st', mp)
  end.

(** The engine calls of the loop alone, transaction after transaction. *)
Fixpoint executeTransactions (now : Z) (txs : list Transaction) : M unit :=
  match txs with
  | [] => ret tt
  | tx :: rest =>
      execute_all now (body_instructions (tx_body tx)) (body_signer_id (tx_body tx)) ;;
      executeTransactions now rest
  end.

(** The block apply the specification describes: each transaction
    runs against the working state and is undone as a whole when one
    of its instructions fails; the others still apply; everything is
    committed together with the block records. *)
Fixpoint spec_processTransactions (now : Z) (txs : list Transaction) (st : store)
  : store :=
  match txs with
  | [] => st
  | tx :: rest =>
      match execute_all now (body_instructions (tx_body tx))
                        (body_signer_id (tx_body tx)) st with
      | (Ok _, st') => spec_processTransactions now rest st'
      | (Throw _, _) => spec_processTransactions now rest st
      end
  end.

(** The ledger families, which the engine writes, compared. *)
Definition ledger_eqb (a b : store) : bool :=
  bool_decide (domains a = domains b) && bool_decide (accounts a = accounts b)
  && bool_decide (account_roles_of a = account_roles_of b)
  && bool_decide (assets a = assets b) && bool_decide (balances a = balances b)
  && bool_decide (roles a = roles b).

(** The claim of a per-transaction rollback, on one block and store: the
    apply succeeds and leaves the ledger of [spec_processTransactions]. *)
Definition applies_with_rollback (now : Z) (blk : Block) (st : store) : bool :=
  match applyBlock true now blk st [] with
  | (Ok _, st', _) => ledger_eqb st' (spec_processTransactions now (block_transactions blk) st)
  | (Throw _, _, _) => false
  end.

End WithHash.

End BlockProducer.

(** ** The block index of the store (src/state: calculateBlockHash,
       getBlockByHash) *)

Module LevelDBStateStore.
Import Canon Wire State.

Section WithHash.
Variable hash : string -> string.

(** [hash(JSON.stringify(block.header))]; [JSON.stringify] of an object
    is never [undefined], which [hash] would read as the empty text. *)
Definition calculateBlockHash (block : Block) : string :=
  match JSON_stringify (json_of_header (block_header block)) None with
  | Some s => hash s
  | None => hash EmptyString
  end.

End WithHash.

(** [getBlockByHash(hash)]: the height found is used when it is truthy. *)
Definition getBlockByHash (h : string) (st : store) : option Block :=
  match get (KBlockByHash h) st with
  | Some height => if height =? 0 then None else getBlock height st
  | None => None
  end.

End LevelDBStateStore.

(** ** Transaction validator (src/transaction: TransactionValidator) *)

Module TransactionValidator.
Import JS.

Record ValidationError := mkError { code : string; message : string }.

#[global] Instance ValidationError_eq_dec : EqDecision ValidationError.
Proof. solve_decision. Defined.

(** [this.lastNonces.get(signer) || 0] *)
Definition lastNonce (lastNonces : gmap string Z) (signer : string) : Z :=
  match lastNonces !! signer with
  | Some n => n
  | None => 0
  end.

Definition validateNonce (lastNonces : gmap string Z) (body : TransactionBody)
  : option ValidationError :=
  let lastNonce := lastNonce lastNonces (body_signer_id body) in
  if body_nonce body <=? lastNonce
  then Some (mkError "INVALID_NONCE"
               ("Nonce " +:+ toString (body_nonce body) +:+
                " must be greater than last nonce " +:+ toString lastNonce))
  else None.

Definition updateLastNonce (signerId : string) (nonce : Z) (lastNonces : gmap string Z)
  : gmap string Z :=
  <[signerId := nonce]> lastNonces.

(** The last-seen nonce the specification describes: the highest nonce
    among the signer's transactions in the blocks applied so far, 0
    when there is none. *)
Definition spec_last_seen_nonce (applied : list Block) (signer : string) : Z :=
  fold_left
    (fun acc blk =>
       fold_left
         (fun acc tx =>
            if String.eqb (body_signer_id (tx_body tx)) signer
            then Z.max acc (body_nonce (tx_body tx)) else acc)
         (block_transactions blk) acc)
    applied 0.

(** The claim of the nonce check, on one history: the check passes
    exactly when the nonce exceeds the last-seen nonce of the
    specification. *)
Definition nonce_check_as_specified (applied : list Block) (lastNonces : gmap string Z)
    (body : TransactionBody) : bool :=
  Bool.eqb (bool_decide (validateNonce lastNonces body = None))
           (spec_last_seen_nonce applied (body_signer_id body) <? body_nonce body).

Import State.

(** The transactions that reach the validator are typed records here,
    so the [typeof] tests of the sources always pass; [!x] on a string
    is the test for the empty string, on a number the test for 0. *)

Definition validateTransactionBody (body : TransactionBody) : option ValidationError :=
  if negb (nonempty (body_chain_id body))
  then Some (mkError "MISSING_CHAIN_ID" "Transaction body is missing chain_id")
  else if negb (nonempty (body_signer_id body))
  then Some (mkError "MISSING_SIGNER_ID" "Transaction body is missing signer_id")
  else if body_nonce body <? 0
  then Some (mkError "INVALID_NONCE" "Transaction nonce must be a non-negative number")
  else if body_created_at body =? 0
  then Some (mkError "INVALID_CREATED_AT" "Transaction created_at must be a valid timestamp")
  else if Nat.eqb (List.length (body_instructions body)) 0
  then Some (mkError "INVALID_INSTRUCTIONS" "Transaction must contain at least one instruction")
  else
    let parts := split "@" (body_signer_id body) in
    if InstructionEngine.missing (parts !! 0%nat) || InstructionEngine.missing (parts !! 1%nat)
    then Some (mkError "INVALID_SIGNER_FORMAT" "Signer ID must be in format: name@domain")
    else None.

(** [instruction.type] *)
Definition instruction_type (i : Instruction) : string :=
  match i with
  | RegisterDomain _ => "RegisterDomain"
  | RegisterAccount _ _ => "RegisterAccount"
  | RegisterAsset _ _ => "RegisterAsset"
  | MintAsset _ _ _ => "MintAsset"
  | BurnAsset _ _ _ => "BurnAsset"
  | TransferAsset _ _ _ _ => "TransferAsset"
  | GrantRole _ _ => "GrantRole"
  | RevokeRole _ _ => "RevokeRole"
  end.

Definition getRequiredPermission (i : Instruction) : string :=
  match i with
  | RegisterDomain _ => "RegisterDomain"
  | RegisterAccount _ _ => "RegisterAccount"
  | RegisterAsset _ _ => "RegisterAsset"
  | MintAsset _ _ _ => "MintAsset"
  | BurnAsset _ _ _ => "BurnAsset"
  | TransferAsset _ _ _ _ => "TransferAsset"
  | GrantRole _ _ => "GrantRole"
  | RevokeRole _ _ => "RevokeRole"
  end.

(** The inner loop over [role.permissions]: [None] is the early
    [return null] on the wildcard. *)
Fixpoint addPermissions (perms : list string) (permissions : gset string)
  : option (gset string) :=
  match perms with
  | [] => Some permissions
  | permission :: rest =>
      if String.eqb permission "*" then None
      else addPermissions rest ({[ permission ]} ∪ permissions)
  end.

(** The loop over the role ids of the signer; a role id without a
    stored role is passed over. *)
Fixpoint collectPermissions (st : store) (accountRoles : list string)
    (permissions : gset string) : option (gset string) :=
  match accountRoles with
  | [] => Some permissions
  | roleId :: rest =>
      match getRole roleId st with
      | Some role =>
          match addPermissions (role_permissions role) permissions with
          | Some permissions => collectPermissions st rest permissions
          | None => None
          end
      | None => collectPermissions st rest permissions
      end
  end.

Definition has (permissions : gset string) (p : string) : bool :=
  bool_decide (p ∈ permissions).

Fixpoint checkInstructions (signerId : string) (permissions : gset string)
    (instructions : list Instruction) : option ValidationError :=
  match instructions with
  | [] => None
  | instruction :: rest =>
      let requiredPermission := getRequiredPermission instruction in
      if negb (has permissions "*") && negb (has permissions requiredPermission)
      then Some (mkError "PERMISSION_DENIED"
                   ("Signer " +:+ signerId +:+ " does not have permission " +:+
                    requiredPermission +:+ " for instruction " +:+
                    instruction_type instruction))
      else checkInstructions signerId permissions rest
  end.

(** [validatePermissions(tx)]; iterating over the [null] that
    [getAccountRoles] yields for a missing key raises a TypeError. *)
Definition validatePermissions (st : store) (tx : Transaction)
  : result (option ValidationError) :=
  let signerId := body_signer_id (tx_body tx) in
  match getAccountRoles signerId st with
  | None => Throw (TypeError "accountRoles is not iterable")
  | Some accountRoles =>
      match collectPermissions st accountRoles ∅ with
      | None => Ok None
      | Some permissions =>
          Ok (checkInstructions signerId permissions (body_instructions (tx_body tx)))
      end
  end.

Definition badFormat (sep : ascii) (id : string) : bool :=
  let parts := split sep id in
  InstructionEngine.missing (parts !! 0%nat) || InstructionEngine.missing (parts !! 1%nat).

Definition validateRegisterDomain (id : string) : option ValidationError :=
  if negb (nonempty id)
  then Some (mkError "INVALID_DOMAIN_ID" "RegisterDomain instruction requires a valid id")
  else if Nat.eqb (String.length id) 0 || (64 <? String.length id)%nat
  then Some (mkError "INVALID_DOMAIN_LENGTH" "Domain ID must be between 1 and 64 characters")
  else None.

Definition validateRegisterAccount (id public_key : string) : option ValidationError :=
  if negb (nonempty id)
  then Some (mkError "INVALID_ACCOUNT_ID" "RegisterAccount instruction requires a valid id")
  else if negb (nonempty public_key)
  then Some (mkError "INVALID_PUBLIC_KEY"
               "RegisterAccount instruction requires a valid public_key")
  else if badFormat "@" id
  then Some (mkError "INVALID_ACCOUNT_FORMAT" "Account ID must be in format: name@domain")
  else None.

Definition validateRegisterAsset (id : string) (precision : Z) : option ValidationError :=
  if negb (nonempty id)
  then Some (mkError "INVALID_ASSET_ID" "RegisterAsset instruction requires a valid id")
  else if (precision <? 0) || (precision >? 18)
  then Some (mkError "INVALID_PRECISION" "Asset precision must be a number between 0 and 18")
  else if badFormat "#" id
  then Some (mkError "INVALID_ASSET_FORMAT" "Asset ID must be in format: asset_id#domain")
  else None.

(** The checks shared by [validateMintAsset] and [validateBurnAsset];
    [name] is the instruction type that their messages begin with. *)
Definition validateIssue (name asset_id account_id amount : string) : option ValidationError :=
  if negb (nonempty asset_id)
  then Some (mkError "INVALID_ASSET_ID" (name +:+ " instruction requires a valid asset_id"))
  else if negb (nonempty account_id)
  then Some (mkError "INVALID_ACCOUNT_ID" (name +:+ " instruction requires a valid account_id"))
  else if negb (nonempty amount)
  then Some (mkError "INVALID_AMOUNT" (name +:+ " instruction requires a valid amount"))
  else if negb (amount_re amount)
  then Some (mkError "INVALID_AMOUNT_FORMAT" "Amount must be a valid positive number")
  else None.

Definition validateMintAsset := validateIssue "MintAsset".
Definition validateBurnAsset := validateIssue "BurnAsset".

Definition validateTransferAsset (asset_id src_account dest_account amount : string)
  : option ValidationError :=
  if negb (nonempty asset_id)
  then Some (mkError "INVALID_ASSET_ID" "TransferAsset instruction requires a valid asset_id")
  else if negb (nonempty src_account)
  then Some (mkError "INVALID_SRC_ACCOUNT"
               "TransferAsset instruction requires a valid src_account")
  else if negb (nonempty dest_account)
  then Some (mkError "INVALID_DEST_ACCOUNT"
               "TransferAsset instruction requires a valid dest_account")
  else if negb (nonempty amount)
  then Some (mkError "INVALID_AMOUNT" "TransferAsset instruction requires a valid amount")
  else if negb (amount_re amount)
  then Some (mkError "INVALID_AMOUNT_FORMAT" "Amount must be a valid positive number")
  else None.

(** The checks shared by [validateGrantRole] and [validateRevokeRole]. *)
Definition validateRoleChange (name role_id account_id : string) : option ValidationError :=
  if negb (nonempty role_id)
  then Some (mkError "INVALID_ROLE_ID" (name +:+ " instruction requires a valid role_id"))
  else if negb (nonempty account_id)
  then Some (mkError "INVALID_ACCOUNT_ID" (name +:+ " instruction requires a valid account_id"))
  else None.

Definition validateGrantRole := validateRoleChange "GrantRole".
Definition validateRevokeRole := validateRoleChange "RevokeRole".

Definition validateInstruction (instruction : Instruction) (signerId : string)
  : option ValidationError :=
  match instruction with
  | RegisterDomain id => validateRegisterDomain id
  | RegisterAccount id pk => validateRegisterAccount id pk
  | RegisterAsset id p => validateRegisterAsset id p
  | MintAsset a acc amt => validateMintAsset a acc amt
  | BurnAsset a acc amt => validateBurnAsset a acc amt
  | TransferAsset a src dst amt => validateTransferAsset a src dst amt
  | GrantRole r acc => validateGrantRole r acc
  | RevokeRole r acc => validateRevokeRole r acc
  end.

(** The loop of step 5: the first instruction that is rejected. *)
Fixpoint validateInstructions (instructions : list Instruction) (signerId : string)
  : option ValidationError :=
  match instructions with
  | [] => None
  | instruction :: rest =>
      match validateInstruction instruction signerId with
      | Some e => Some e
      | None => validateInstructions rest signerId
      end
  end.

Section WithKeys.
Variable verify : string -> string -> string -> bool.

(** [verifySignature(tx)]: an exception counts as an invalid signature. *)
Definition verifySignature (tx : Transaction) : bool :=
  match Crypto.verifyTransaction verify tx with
  | Ok b => b
  | Throw _ => false
  end.

(** The [message] of a caught exception. *)
Definition error_message (e : error) : string :=
  match e with
  | TypeError m => m
  | _ => "Unknown error"
  end.

(** [validateTransaction(tx)]: the five steps in order; an exception
    raised on the way is turned into VALIDATION_ERROR. *)
Definition validateTransaction (lastNonces : gmap string Z) (st : store) (tx : Transaction)
  : option ValidationError :=
  if negb (verifySignature tx)
  then Some (mkError "INVALID_SIGNATURE" "Transaction signature is invalid")
  else
    match validateTransactionBody (tx_body tx) with
    | Some e => Some e
    | None =>
        match validateNonce lastNonces (tx_body tx) with
        | Some e => Some e
        | None =>
            match validatePermissions st tx with
            | Throw e =>
                Some (mkError "VALIDATION_ERROR"
                        ("Transaction validation failed: " +:+ error_message e))
            | Ok (Some e) => Some e
            | Ok None =>
                validateInstructions (body_instructions (tx_body tx))
                                     (body_signer_id (tx_body tx))
            end
        end
    end.

End WithKeys.

(** A stored role held by one of the role ids grants the permission. *)
Definition granted (st : store) (accountRoles : list string) (p : string) : Prop :=
  exists roleId role,
    roleId ∈ accountRoles /\ getRole roleId st = Some role /\ p ∈ role_permissions role.

(** The engine errors that report a malformed instruction. *)
Definition format_error (e : error) : bool :=
  match e with
  | InvalidAmountFormat _ | InvalidAccountFormat _ | InvalidAssetFormat _
  | InvalidPrecision => true
  | _ => false
  end.

End TransactionValidator.

(** ** The node (index.ts: MinirohaNode)

    A node owns one store, one mempool and one transaction validator.
    Both block paths (the timer-driven producer and the consensus commit)
    end in [blockProducer.applyBlock(block)]; the validator is not an
    argument of the block producer. *)

Module MinirohaNode.
Import State BlockProducer.

Record node := mkNode {
  node_store : store;
  node_mempool : mempool;
  node_lastNonces : gmap string Z }.

Definition applyBlock (hash : string -> string) (commit_ok : bool) (now : Z)
    (blk : Block) (n : node) : result unit * node :=
  match BlockProducer.applyBlock hash commit_ok now blk (node_store n) (node_mempool n) with
  | (r, st, mp) => (r, mkNode st mp (node_lastNonces n))
  end.

End MinirohaNode.

(** ** BFT consensus: proposer and quorums (src/consensus) *)

Module BFTConsensus.
Import Canon Wire.

Inductive ConsensusStep := propose | prevote | precommit | commit.

Record Vote := mkVote {
  vote_block_hash : option string;   (* [None] is a nil vote *)
  vote_height : Z;
  vote_round : Z;
  vote_voter_id : string;
  vote_signature : Signature }.

Record ConsensusState := mkState {
  cs_height : Z;
  cs_round : Z;
  cs_step : ConsensusStep;
  cs_lockedBlock : option Block;
  cs_lockedRound : option Z;
  cs_validBlock : option Block;
  cs_validRound : option Z;
  cs_prevotes : gmap string Vote;
  cs_precommits : gmap string Vote }.

Definition step_eqb (a b : ConsensusStep) : bool :=
  match a, b with
  | propose, propose | prevote, prevote | precommit, precommit | commit, commit => true
  | _, _ => false
  end.

Definition getQuorumSize (validators : gmap string Validator) : Z :=
  let n := Z.of_nat (size validators) in
  let f := (n - 1) / 3 in
  2 * f + 1.

(** [vote.block_hash === blockHash] *)
Definition hash_eqb (a b : option string) : bool :=
  match a, b with
  | Some x, Some y => String.eqb x y
  | None, None => true
  | _, _ => false
  end.

(** The loop of [hasQuorum]: a vote counts when [blockHash] is
    [undefined] or equals the vote's hash. *)
Definition countVotes (votes : gmap string Vote) (blockHash : option string) : Z :=
  map_fold (fun _ vote count =>
              match blockHash with
              | None => count + 1
              | Some _ => if hash_eqb (vote_block_hash vote) blockHash
                          then count + 1 else count
              end) 0 votes.

Definition hasQuorum (validators : gmap string Validator)
    (votes : gmap string Vote) (blockHash : option string) : bool :=
  getQuorumSize validators <=? countVotes votes blockHash.

(** The call [this.precommit(blockHash)] made by a quorum check. *)
Inductive action :=
  | NoAction
  | CastPrecommit (blockHash : option string).

Section WithHash.
Variable hash : string -> string.

Definition headerHash (blk : Block) : result string :=
  match canonicalJsonStringify (json_of_header (block_header blk)) with
  | Ok s => Ok (hash s)
  | Throw e => Throw e
  end.

Definition checkNilPrevoteQuorum (validators : gmap string Validator)
    (st : ConsensusState) : ConsensusState * action :=
  if hasQuorum validators (cs_prevotes st) None
  then (mkState (cs_height st) (cs_round st) precommit (cs_lockedBlock st)
                (cs_lockedRound st) (cs_validBlock st) (cs_validRound st)
                (cs_prevotes st) (cs_precommits st),
        CastPrecommit None)
  else (st, NoAction).

Definition checkPrevoteQuorum (validators : gmap string Validator)
    (st : ConsensusState) : result (ConsensusState * action) :=
  if negb (step_eqb (cs_step st) prevote) then Ok (st, NoAction)
  else
    match cs_validBlock st with
    | Some validBlock =>
        match headerHash validBlock with
        | Throw e => Throw e
        | Ok blockHash =>
            if hasQuorum validators (cs_prevotes st) (Some blockHash)
            then Ok (mkState (cs_height st) (cs_round st) precommit
                             (cs_validBlock st) (Some (cs_round st))
                             (cs_validBlock st) (cs_validRound st)
                             (cs_prevotes st) (cs_precommits st),
                     CastPrecommit (Some blockHash))
            else Ok (checkNilPrevoteQuorum validators st)
        end
    | None => Ok (checkNilPrevoteQuorum validators st)
    end.

End WithHash.

(** The number of nil votes among the recorded votes. *)
Definition countNil (votes : gmap string Vote) : Z :=
  map_fold (fun _ vote count =>
              match vote_block_hash vote with
              | None => count + 1
              | Some _ => count
              end) 0 votes.

Import JS State.

(** [getProposer(height, round)]: the validator ids in ascending order,
    indexed by [(height + round) % length]; the JS remainder has the
    sign of the dividend, and an index outside the array reads
    [undefined] ([None]). *)
Definition getProposer (validators : gmap string Validator) (height round : Z)
  : raised (option string) :=
  let validatorList := sort (List.map fst (map_to_list validators)) in
  if Nat.eqb (List.length validatorList) 0 then Raised "No validators available"
  else
    let index := Z.rem (height + round) (Z.of_nat (List.length validatorList)) in
    Returned (if index <? 0 then None else validatorList !! Z.to_nat index).

(** The call made by [checkPrecommitQuorum]. *)
Inductive precommit_action :=
  | NoPrecommitAction
  | Commit (lockedBlock : Block)
  | NextRound.

Section WithHash.
Variable hash : string -> string.

Definition checkNilPrecommitQuorum (validators : gmap string Validator)
    (st : ConsensusState) : precommit_action :=
  if hasQuorum validators (cs_precommits st) None then NextRound else NoPrecommitAction.

Definition checkPrecommitQuorum (validators : gmap string Validator)
    (st : ConsensusState) : result precommit_action :=
  if negb (step_eqb (cs_step st) precommit) then Ok NoPrecommitAction
  else
    match cs_lockedBlock st with
    | Some lockedBlock =>
        match headerHash hash lockedBlock with
        | Throw e => Throw e
        | Ok blockHash =>
            if hasQuorum validators (cs_precommits st) (Some blockHash)
            then Ok (Commit lockedBlock)
            else Ok (checkNilPrecommitQuorum validators st)
        end
    | None => Ok (checkNilPrecommitQuorum validators st)
    end.

End WithHash.

(** The recorded votes that carry the hash [h]. *)
Definition votesFor (votes : gmap string Vote) (h : string) : gmap string Vote :=
  filter (fun kv => vote_block_hash kv.2 = Some h) votes.

End BFTConsensus.

(** ** Genesis bootstrap (src/genesis: GenesisBootstrap) *)

Module GenesisBootstrap.
Import JS State InstructionEngine.

Record GenesisConfig := mkGenesis {
  g_chain_id : string;
  g_domains : list Domain;
  g_accounts : list Account;
  g_assets : list Asset;
  g_balances : list Balance;
  g_roles : list Role;
  g_validators : list Validator }.

Definition check (ok : bool) (msg : string) : result unit :=
  if ok then Ok tt else Throw (GenesisError msg).

Definition then_ {A B} (r : result A) (k : A -> result B) : result B :=
  match r with
  | Ok a => k a
  | Throw e => Throw e
  end.

Declare Scope genesis_scope.
Notation "x <- c ;; k" := (then_ c (fun x => k))
  (at level 100, c at next level, right associativity) : genesis_scope.
Notation "c ;; k" := (then_ c (fun _ => k))
  (at level 100, right associativity) : genesis_scope.
Local Open Scope genesis_scope.

(** A validation loop that collects the ids seen so far. *)
Fixpoint each {A} (f : gset string -> A -> result (gset string))
    (l : list A) (seen : gset string) : result (gset string) :=
  match l with
  | [] => Ok seen
  | x :: l' => seen <- f seen x ;; each f l' seen
  end.

Definition member (s : string) (ids : gset string) : bool := bool_decide (s ∈ ids).

Definition validateDomain (domainIds : gset string) (domain : Domain)
  : result (gset string) :=
  check (nonempty (domain_id domain)) "Domain must have an id" ;;
  check (negb (member (domain_id domain) domainIds))
        ("Duplicate domain ID: " +:+ domain_id domain) ;;
  Ok ({[ domain_id domain ]} ∪ domainIds).

Definition validateAccount (domainIds accountIds : gset string) (account : Account)
  : result (gset string) :=
  check (nonempty (account_id account)) "Account must have an id" ;;
  check (negb (member (account_id account) accountIds))
        ("Duplicate account ID: " +:+ account_id account) ;;
  let parts := split "@" (account_id account) in
  let name := parts !! 0%nat in
  let domain := parts !! 1%nat in
  check (negb (missing name || missing domain))
        ("Invalid account format: " +:+ account_id account) ;;
  check (member (default EmptyString domain) domainIds)
        ("Account " +:+ account_id account +:+ " references non-existent domain") ;;
  check (nonempty (account_public_key account))
        ("Account " +:+ account_id account +:+ " must have a public_key") ;;
  Ok ({[ account_id account ]} ∪ accountIds).

Definition validateRole (roleIds : gset string) (role : Role) : result (gset string) :=
  check (nonempty (role_id role)) "Role must have an id" ;;
  check (negb (member (role_id role) roleIds)) ("Duplicate role ID: " +:+ role_id role) ;;
  Ok ({[ role_id role ]} ∪ roleIds).

Definition validateAsset (domainIds assetIds : gset string) (asset : Asset)
  : result (gset string) :=
  check (nonempty (asset_id asset)) "Asset must have an id" ;;
  check (negb (member (asset_id asset) assetIds))
        ("Duplicate asset ID: " +:+ asset_id asset) ;;
  let parts := split "#" (asset_id asset) in
  let assetId := parts !! 0%nat in
  let domain := parts !! 1%nat in
  check (negb (missing assetId || missing domain))
        ("Invalid asset format: " +:+ asset_id asset) ;;
  check (member (default EmptyString domain) domainIds)
        ("Asset " +:+ asset_id asset +:+ " references non-existent domain") ;;
  check (negb ((asset_precision asset <? 0) || (asset_precision asset >? 18)))
        ("Asset " +:+ asset_id asset +:+ " must have precision between 0 and 18") ;;
  Ok ({[ asset_id asset ]} ∪ assetIds).

Definition validateBalance (assetIds accountIds : gset string) (balance : Balance)
  : result unit :=
  check (nonempty (balance_asset_id balance)) "Balance must have an asset_id" ;;
  check (nonempty (balance_account_id balance)) "Balance must have an account_id" ;;
  check (nonempty (balance_amount balance)) "Balance must have an amount" ;;
  check (member (balance_asset_id balance) assetIds)
        ("Balance references non-existent asset " +:+ balance_asset_id balance) ;;
  check (member (balance_account_id balance) accountIds)
        ("Balance references non-existent account " +:+ balance_account_id balance) ;;
  check (amount_re (balance_amount balance))
        ("Invalid amount format: " +:+ balance_amount balance).

Definition validateAccountRoles (roleIds : gset string) (account : Account) : result unit :=
  check (forallb (fun accountRole => member accountRole roleIds) (account_roles account))
        ("Account " +:+ account_id account +:+ " references non-existent role").

Definition validateValidator (validatorIds : gset string) (validator : Validator)
  : result (gset string) :=
  check (nonempty (validator_id validator)) "Validator must have an id" ;;
  check (negb (member (validator_id validator) validatorIds))
        ("Duplicate validator ID: " +:+ validator_id validator) ;;
  check (nonempty (validator_public_key validator))
        ("Validator " +:+ validator_id validator +:+ " must have a public_key") ;;
  Ok ({[ validator_id validator ]} ∪ validatorIds).

Fixpoint all_ok {A} (f : A -> result unit) (l : list A) : result unit :=
  match l with
  | [] => Ok tt
  | x :: l' => f x ;; all_ok f l'
  end.

(** [genesis.roles.some(role => role.id === 'admin')] *)
Definition hasAdminRole (cfg : GenesisConfig) : bool :=
  existsb (fun role => String.eqb (role_id role) "admin") (g_roles cfg).

(** [genesis.accounts.some(account => account.roles.includes('admin'))] *)
Definition hasAdminAccount (cfg : GenesisConfig) : bool :=
  existsb (fun account => includes (account_roles account) "admin") (g_accounts cfg).

Definition validateGenesisConfig (cfg : GenesisConfig) : result unit :=
  check (nonempty (g_chain_id cfg)) "Genesis config must have a chain_id" ;;
  domainIds <- each validateDomain (g_domains cfg) ∅ ;;
  accountIds <- each (validateAccount domainIds) (g_accounts cfg) ∅ ;;
  roleIds <- each validateRole (g_roles cfg) ∅ ;;
  assetIds <- each (validateAsset domainIds) (g_assets cfg) ∅ ;;
  all_ok (validateBalance assetIds accountIds) (g_balances cfg) ;;
  all_ok (validateAccountRoles roleIds) (g_accounts cfg) ;;
  each validateValidator (g_validators cfg) ∅ ;;
  check (negb (Nat.eqb (List.length (g_validators cfg)) 0))
        "Genesis must have at least one validator" ;;
  check (hasAdminRole cfg) "Genesis must have an admin role" ;;
  check (hasAdminAccount cfg) "Genesis must have at least one account with admin role".

Definition accountOps (account : Account) : list op :=
  OpPut (KAccount (account_id account)) account ::
  (if (0 <? Z.of_nat (List.length (account_roles account)))
   then [OpPut (KAccountRoles (account_id account)) (account_roles account)]
   else []).

Section WithCrypto.
(** [hash(JSON.stringify(header))] and [signBlock] of the producer. *)
Variable hashHeader : BlockHeader -> string.
Variable signBlock : Block -> result Signature.

(** [BlockProducer.createGenesisBlock] *)
Definition createGenesisBlock (now : Z) : result Block :=
  let header := mkHeader 1 EmptyString now in
  let block := mkBlock header [] "genesis" (mkSignature EmptyString EmptyString) in
  blockSignature <- signBlock block ;;
  Ok (mkBlock header [] "genesis" blockSignature).

Definition genesisOps (cfg : GenesisConfig) (genesisBlock : Block) : list op :=
  (List.map (fun d => OpPut (KDomain (domain_id d)) d) (g_domains cfg)
   ++ List.concat (List.map accountOps (g_accounts cfg))
   ++ List.map (fun a => OpPut (KAsset (asset_id a)) a) (g_assets cfg)
   ++ List.map (fun b => OpPut (KBalance (balance_asset_id b) (balance_account_id b)) b)
               (g_balances cfg)
   ++ List.map (fun r => OpPut (KRole (role_id r)) r) (g_roles cfg)
   ++ List.map (fun v => OpPut (KValidator (validator_id v)) v) (g_validators cfg)
   ++ [OpPut KChainId (g_chain_id cfg);
       OpPut (KBlock (header_height (block_header genesisBlock))) genesisBlock;
       OpPut (KBlockByHash (hashHeader (block_header genesisBlock)))
             (header_height (block_header genesisBlock));
       OpPut KLastHeight (header_height (block_header genesisBlock))])%list.

(** [bootstrap(genesisConfig)] *)
Definition bootstrap (commit_ok : bool) (now : Z) (cfg : GenesisConfig) (st : store)
  : result Block * store :=
  match validateGenesisConfig cfg with
  | Throw e => (Throw e, st)
  | Ok _ =>
      match createGenesisBlock now with
      | Throw e => (Throw e, st)
      | Ok genesisBlock =>
          match batch commit_ok (genesisOps cfg genesisBlock) st with
          | (Ok _, st') => (Ok genesisBlock, st')
          | (Throw e, st') => (Throw e, st')
          end
      end
  end.

End WithCrypto.

Definition isBootstrapped (st : store) : bool := 0 <? getLastHeight st.

(** What the specification asks of the admin role: a role named
    [admin] whose permissions contain the wildcard. *)
Definition hasWildcardAdminRole (cfg : GenesisConfig) : bool :=
  existsb (fun role => String.eqb (role_id role) "admin"
                       && includes (role_permissions role) "*") (g_roles cfg).

(** [id.split(sep)[1]]: the name that the format checks look up as the
    domain of an id. *)
Definition domainOf (sep : ascii) (id : string) : string :=
  default EmptyString (split sep id !! 1%nat).


(** What a configuration that passes validation is known to satisfy. *)
Record valid (cfg : GenesisConfig) : Prop := mkValid {
  valid_domains : NoDup (List.map domain_id (g_domains cfg));
  valid_accounts : NoDup (List.map account_id (g_accounts cfg));
  valid_assets : NoDup (List.map asset_id (g_assets cfg));
  valid_roles : NoDup (List.map role_id (g_roles cfg));
  valid_validators : NoDup (List.map validator_id (g_validators cfg));
  valid_account_domain :
    Forall (fun a => domainOf "@" (account_id a) ∈ List.map domain_id (g_domains cfg))
           (g_accounts cfg);
  valid_asset_domain :
    Forall (fun a => domainOf "#" (asset_id a) ∈ List.map domain_id (g_domains cfg))
           (g_assets cfg);
  valid_balances :
    Forall (fun b => balance_asset_id b ∈ List.map asset_id (g_assets cfg) /\
                     balance_account_id b ∈ List.map account_id (g_accounts cfg) /\
                     amount_re (balance_amount b) = true)
           (g_balances cfg);
  valid_account_roles :
    Forall (fun a => Forall (fun r => r ∈ List.map role_id (g_roles cfg)) (account_roles a))
           (g_accounts cfg) }.

(** The writes of the genesis batch, family by family. *)
Inductive genesis_op (hashHeader : BlockHeader -> string) (cfg : GenesisConfig)
    (b : Block) : op -> Prop :=
  | GDomain d : d ∈ g_domains cfg -> genesis_op hashHeader cfg b (OpPut (KDomain (domain_id d)) d)
  | GAccount a : a ∈ g_accounts cfg ->
      genesis_op hashHeader cfg b (OpPut (KAccount (account_id a)) a)
  | GAccountRoles a : a ∈ g_accounts cfg -> account_roles a <> [] ->
      genesis_op hashHeader cfg b (OpPut (KAccountRoles (account_id a)) (account_roles a))
  | GAsset a : a ∈ g_assets cfg -> genesis_op hashHeader cfg b (OpPut (KAsset (asset_id a)) a)
  | GBalance x : x ∈ g_balances cfg ->
      genesis_op hashHeader cfg b
        (OpPut (KBalance (balance_asset_id x) (balance_account_id x)) x)
  | GRole r : r ∈ g_roles cfg -> genesis_op hashHeader cfg b (OpPut (KRole (role_id r)) r)
  | GValidator v : v ∈ g_validators cfg ->
      genesis_op hashHeader cfg b (OpPut (KValidator (validator_id v)) v)
  | GChainId : genesis_op hashHeader cfg b (OpPut KChainId (g_chain_id cfg))
  | GBlock : genesis_op hashHeader cfg b (OpPut (KBlock (header_height (block_header b))) b)
  | GBlockByHash :
      genesis_op hashHeader cfg b
        (OpPut (KBlockByHash (hashHeader (block_header b))) (header_height (block_header b)))
  | GLastHeight :
      genesis_op hashHeader cfg b (OpPut KLastHeight (header_height (block_header b))).

End GenesisBootstrap.

(** ** Mempool (src/mempool: TransactionMempool)

    [pendingTransactions] is a JS [Map]: its entries in insertion
    order, with pairwise distinct keys. *)

Module TransactionMempool.
Import JS Canon Wire.

Record pool := mkPool {
  pendingTransactions : list (string * Transaction);
  sortedTxHashes : list string;
  maxSize : Z }.

(** [new TransactionMempool(stateStore, maxSize)] *)
Definition create (maxSize : Z) : pool := mkPool [] [] maxSize.

(** [Map.prototype.has], [get], [set] and [delete]. *)
Definition Map_has (k : string) (m : list (string * Transaction)) : bool :=
  existsb (fun e => String.eqb e.1 k) m.

Fixpoint Map_get (k : string) (m : list (string * Transaction)) : option Transaction :=
  match m with
  | [] => None
  | (k', v) :: m' => if String.eqb k' k then Some v else Map_get k m'
  end.

Definition Map_set (k : string) (v : Transaction) (m : list (string * Transaction))
  : list (string * Transaction) :=
  if Map_has k m then List.map (fun e => if String.eqb e.1 k then (k, v) else e) m
  else (m ++ [(k, v)])%list.

Definition Map_delete (k : string) (m : list (string * Transaction))
  : list (string * Transaction) :=
  List.filter (fun e => negb (String.eqb e.1 k)) m.

(** [Array.prototype.sort] with the comparator [key(a) - key(b)]: the
    sort is stable, so the result is the one of a stable insertion. *)
Fixpoint insertBy {A} (key : A -> Z) (x : A) (l : list A) : list A :=
  match l with
  | [] => [x]
  | y :: l' => if key x <=? key y then x :: l else y :: insertBy key x l'
  end.

Definition sortBy {A} (key : A -> Z) (l : list A) : list A :=
  foldr (insertBy key) [] l.

(** [pendingTransactions.get(h)!.body.nonce], for a hash that is there. *)
Definition nonceOf (m : list (string * Transaction)) (h : string) : Z :=
  match Map_get h m with
  | Some tx => body_nonce (tx_body tx)
  | None => 0
  end.

(** [arr.slice(0, end)] *)
Definition slice0 {A} (end_ : Z) (l : list A) : list A :=
  if end_ <? 0 then take (List.length l - Z.to_nat (- end_)) l
  else take (Z.to_nat end_) l.

(** [JSON.stringify(tx).length] *)
Definition txSize (tx : Transaction) : Z :=
  match JSON_stringify (json_of_tx tx) None with
  | Some s => Z.of_nat (String.length s)
  | None => 0
  end.

Section WithHash.
Variable hash : string -> string.

(** [calculateTransactionHash(tx)] of the mempool: the hash of the
    plain JSON text. *)
Definition calculateTransactionHash (tx : Transaction) : string :=
  BlockProducer.mempoolHash hash tx.

(** The sort at the end of [add]: the comparator reads the nonce of
    both hashes from the map and raises a TypeError on a hash that is
    not there; an array of fewer than two hashes is not compared. *)
Definition sortHashes (m : list (string * Transaction)) (hashes : list string)
  : raised (list string) :=
  if (List.length hashes <=? 1)%nat then Returned hashes
  else if forallb (fun h => Map_has h m) hashes then Returned (sortBy (nonceOf m) hashes)
  else Raised "undefined is not an object".

(** The step of [add] that makes room in a full pool: the first hash
    of [sortedTxHashes], when there is one and it is truthy, is dropped
    together with its entry. *)
Definition room (p : pool) : pool :=
  if maxSize p <=? Z.of_nat (List.length (pendingTransactions p)) then
    match sortedTxHashes p with
    | oldestHash :: rest =>
        if nonempty oldestHash
        then mkPool (Map_delete oldestHash (pendingTransactions p)) rest (maxSize p)
        else p
    | [] => p
    end
  else p.

(** [add(tx)] *)
Definition add (tx : Transaction) (p : pool) : raised unit * pool :=
  let txHash := calculateTransactionHash tx in
  if Map_has txHash (pendingTransactions p)
  then (Raised ("Transaction " +:+ txHash +:+ " already exists in mempool"), p)
  else
    let p1 := room p in
    let pending := Map_set txHash tx (pendingTransactions p1) in
    let hashes := (sortedTxHashes p1 ++ [txHash])%list in
    match sortHashes pending hashes with
    | Returned sorted => (Returned tt, mkPool pending sorted (maxSize p))
    | Raised m => (Raised m, mkPool pending hashes (maxSize p))
    end.

(** [remove(txHash)] *)
Definition remove (txHash : string) (p : pool) : pool :=
  if Map_has txHash (pendingTransactions p)
  then mkPool (Map_delete txHash (pendingTransactions p))
              (List.filter (fun h => negb (String.eqb h txHash)) (sortedTxHashes p))
              (maxSize p)
  else p.

(** [getPending(limit)]: [None] is a call without limit; a limit of 0
    is falsy and gives every hash; a hash without an entry gives
    [undefined] ([None]). *)
Definition getPending (limit : option Z) (p : pool) : list (option Transaction) :=
  let txHashes :=
    match limit with
    | Some n => if n =? 0 then sortedTxHashes p else slice0 n (sortedTxHashes p)
    | None => sortedTxHashes p
    end in
  List.map (fun h => Map_get h (pendingTransactions p)) txHashes.

Definition size (p : pool) : Z := Z.of_nat (List.length (pendingTransactions p)).

Definition getTransaction (txHash : string) (p : pool) : option Transaction :=
  Map_get txHash (pendingTransactions p).

(** [getTransactionsByAccount(accountId)] *)
Definition getTransactionsByAccount (accountId : string) (p : pool) : list Transaction :=
  sortBy (fun tx => body_nonce (tx_body tx))
    (List.filter (fun tx => String.eqb (body_signer_id (tx_body tx)) accountId)
                 (List.map snd (pendingTransactions p))).

Definition clear (p : pool) : pool := mkPool [] [] (maxSize p).

Definition removeTransactionsForBlock (transactions : list Transaction) (p : pool) : pool :=
  fold_left (fun p tx => remove (calculateTransactionHash tx) p) transactions p.

(** The loop of [getBlockTransactions]; [JSON.stringify(tx).length] of
    a hash without an entry raises a TypeError. *)
Fixpoint blockLoop (m : list (string * Transaction)) (maxTransactions maxSizeBytes : Z)
    (hashes : list string) (blockTransactions : list Transaction) (currentSize : Z)
  : raised (list Transaction) :=
  match hashes with
  | [] => Returned blockTransactions
  | txHash :: rest =>
      if maxTransactions <=? Z.of_nat (List.length blockTransactions)
      then Returned blockTransactions
      else
        match Map_get txHash m with
        | None => Raised "undefined is not an object"
        | Some tx =>
            if maxSizeBytes <? currentSize + txSize tx then Returned blockTransactions
            else blockLoop m maxTransactions maxSizeBytes rest
                           (blockTransactions ++ [tx])%list (currentSize + txSize tx)
        end
  end.

Definition getBlockTransactions (maxTransactions maxSizeBytes : Z) (p : pool)
  : raised (list Transaction) :=
  blockLoop (pendingTransactions p) maxTransactions maxSizeBytes (sortedTxHashes p) [] 0.

(** [hasConflictingTransaction(tx)] *)
Definition hasConflictingTransaction (tx : Transaction) (p : pool) : bool :=
  existsb (fun existingTx => body_nonce (tx_body existingTx) =? body_nonce (tx_body tx))
          (getTransactionsByAccount (body_signer_id (tx_body tx)) p).

(** [removeOldTransactions(maxAge)]; [now] is the reading of
    [Date.now()]. *)
Definition removeOldTransactions (now maxAge : Z) (p : pool) : Z * pool :=
  let toRemove :=
    List.map fst
      (List.filter (fun e => maxAge <? now - body_created_at (tx_body e.2))
                   (pendingTransactions p)) in
  (Z.of_nat (List.length toRemove), fold_left (fun p h => remove h p) toRemove p).

End WithHash.

(** The state that the operations keep: the map has distinct, non-empty
    keys, [sortedTxHashes] lists exactly these keys, each once, and in
    ascending order of nonce. *)
Definition ordered (p : pool) : Prop :=
  NoDup (List.map fst (pendingTransactions p)) /\
  Forall (fun h => h <> EmptyString) (List.map fst (pendingTransactions p)) /\
  sortedTxHashes p ≡ₚ List.map fst (pendingTransactions p) /\
  StronglySorted (fun a b => nonceOf (pendingTransactions p) a
                             <= nonceOf (pendingTransactions p) b)
                 (sortedTxHashes p).

(** The sizes that [getBlockTransactions] adds up. *)
Definition totalSize (l : list Transaction) : Z :=
  foldr (fun tx acc => txSize tx + acc) 0 l.

End TransactionMempool.

(** ** Sample ledger

    The test ledger of the end-to-end scenarios: domain [root], accounts
    alice, bob, charlie and treasury, asset [usd#root] of precision 2,
    alice holding 100000 and bob 50000 smallest units. *)

Module Sample.
Import State InstructionEngine Canon.

(** Stands for the content hash; the properties below do not depend on it. *)
Definition hash (s : string) : string := "h(" +:+ s +:+ ")".

Definition usd : string := "usd#root".
Definition alice : string := "alice@root".
Definition bob : string := "bob@root".
Definition charlie : string := "charlie@root".
Definition treasury : string := "treasury@root".

Definition store0 : store :=
  putBalance (mkBalance usd bob "50000")
 (putBalance (mkBalance usd alice "100000")
 (putAsset (mkAsset usd 2 0)
 (putAccountRoles treasury ["issuer"]
 (putAccount (mkAccount treasury "ed25519:t" ["issuer"] 0)
 (putAccountRoles charlie ["user"]
 (putAccount (mkAccount charlie "ed25519:c" ["user"] 0)
 (putAccountRoles bob ["user"]
 (putAccount (mkAccount bob "ed25519:b" ["user"] 0)
 (putAccountRoles alice ["user"]
 (putAccount (mkAccount alice "ed25519:a" ["user"] 0)
 (put (KRole "issuer") (mkRole "issuer" ["MintAsset"; "BurnAsset"])
 (put (KRole "user") (mkRole "user" ["TransferAsset"])
 (put KLastHeight 1
 (putDomain (mkDomain "root" 0) State.empty)))))))))))))).

(** The sample ledger after the domain [root/x], the asset [usd#root/x]
    and the accounts [y@root] and [x/y@root] were registered and 5.00 of
    [usd#root/x] were minted to [y@root].  The balance of [usd#root/x]
    held by [y@root] and the balance of [usd#root] held by [x/y@root]
    have one key, [balances/usd#root/x/y@root]. *)
Definition store_slash : store :=
  (execute_all 0 [RegisterDomain "root/x";
                  RegisterAsset "usd#root/x" 2;
                  RegisterAccount "y@root" "ed25519:y";
                  RegisterAccount "x/y@root" "ed25519:xy";
                  MintAsset "usd#root/x" "y@root" "5"] treasury store0).2.

Definition sig0 : Signature := mkSignature "ed25519:k" "sig".

Definition mkTx1 (signer : string) (nonce : Z) (instructions : list Instruction) : Transaction :=
  mkTx (mkBody "miniroha-test" signer nonce 1 instructions) sig0.

Definition block2 (txs : list Transaction) : Block :=
  mkBlock (mkHeader 2 "prev" 1) txs "node1" sig0.

(** A block whose only transaction mints 5.00 usd to charlie. *)
Definition mint_block : Block :=
  block2 [mkTx1 treasury 1 [MintAsset usd charlie "5"]].

(** A first transaction whose second instruction fails (the destination
    does not exist), followed by a transaction that can run. *)
Definition failing_tx : Transaction :=
  mkTx1 alice 1 [TransferAsset usd alice bob "100";
                 TransferAsset usd alice "nobody@root" "1"].
Definition later_tx : Transaction :=
  mkTx1 bob 1 [TransferAsset usd bob alice "1"].
Definition mixed_block : Block := block2 [failing_tx; later_tx].

(** A block with one transfer signed by alice with nonce 1. *)
Definition transfer_tx : Transaction :=
  mkTx1 alice 1 [TransferAsset usd alice bob "100"].
Definition transfer_block : Block := block2 [transfer_tx].

Definition node0 : MinirohaNode.node := MinirohaNode.mkNode store0 [] ∅.

(** Four validators; this node voted nil, two others voted for a block. *)
Definition validators4 : gmap string Validator :=
  <["node1" := mkValidator "node1" "ed25519:1"]>
 (<["node2" := mkValidator "node2" "ed25519:2"]>
 (<["node3" := mkValidator "node3" "ed25519:3"]>
 (<["node4" := mkValidator "node4" "ed25519:4"]> ∅))).

Definition vote (voter : string) (blockHash : option string) : BFTConsensus.Vote :=
  BFTConsensus.mkVote blockHash 2 0 voter sig0.

Definition prevotes3 : gmap string BFTConsensus.Vote :=
  <["node1" := vote "node1" None]>
 (<["node2" := vote "node2" (Some "H")]>
 (<["node3" := vote "node3" (Some "H")]> ∅)).

Definition prevote_state : BFTConsensus.ConsensusState :=
  BFTConsensus.mkState 2 0 BFTConsensus.prevote None None None None prevotes3 ∅.

(** Genesis configurations. *)
Definition genesis_with (roles : list Role) (adminRoles : list string) : GenesisBootstrap.GenesisConfig :=
  GenesisBootstrap.mkGenesis "miniroha-test"
    [mkDomain "root" 0]
    [mkAccount "admin@root" "ed25519:a" adminRoles 0]
    [mkAsset usd 2 0]
    []
    roles
    [mkValidator "node1" "ed25519:1"].

(** An [admin] role that lacks the wildcard. *)
Definition genesis_admin_without_wildcard : GenesisBootstrap.GenesisConfig :=
  genesis_with [mkRole "admin" ["MintAsset"]] ["admin"].

(** No role named [admin] at all. *)
Definition genesis_without_admin_role : GenesisBootstrap.GenesisConfig :=
  genesis_with [mkRole "root" ["*"]] ["root"].

Definition hashHeader (h : BlockHeader) : string := hash (JS.toString (header_height h)).
Definition signBlock (b : Block) : result Signature := Ok sig0.

(** A payload with a nested object. *)
Definition nested : json :=
  JObj [("b", JObj [("z", JNum 1); ("a", JNum 2)])].

(** One object written with its keys in two different orders. *)
Definition keys_ab : json :=
  JObj [("a", JNum 1); ("b", JArr [JStr "x"; JNull])].
Definition keys_ba : json :=
  JObj [("b", JArr [JStr "x"; JNull]); ("a", JNum 1)].

Definition q (s : string) : string := String dquote (s +:+ String dquote EmptyString).

(** Stand-ins for the ed25519 primitives. *)
Definition sign (message privateKey : string) : result string :=
  Ok ("sig(" +:+ privateKey +:+ "," +:+ message +:+ ")").
Definition publicKeyOf (privateKey : string) : result string :=
  Ok ("ed25519:" +:+ privateKey).
Definition verify (message signature publicKey : string) : bool :=
  match publicKey with
  | String "e" (String "d" (String "2" (String "5" (String "5" (String "1"
      (String "9" (String ":" key))))))) =>
      String.eqb signature ("sig(" +:+ key +:+ "," +:+ message +:+ ")")
  | _ => false
  end.

(** A pool of capacity 2 that was offered a transaction of nonce 2 and
    then one of nonce 1. *)
Definition tx_nonce2 : Transaction :=
  Sample.mkTx1 Sample.alice 2 [TransferAsset Sample.usd Sample.alice Sample.bob "2"].
Definition tx_nonce1 : Transaction :=
  Sample.mkTx1 Sample.alice 1 [TransferAsset Sample.usd Sample.alice Sample.bob "1"].
Definition pool2 : TransactionMempool.pool :=
  (TransactionMempool.add Sample.hash tx_nonce1
     (TransactionMempool.add Sample.hash tx_nonce2 (TransactionMempool.create 2)).2).2.

(** A configuration that passes validation: one domain, an administrator,
    one asset and a balance written with a fraction. *)
Definition genesis_fractional : GenesisBootstrap.GenesisConfig :=
  GenesisBootstrap.mkGenesis "miniroha-test"
    [mkDomain "root" 0]
    [mkAccount "admin@root" "ed25519:a" ["admin"] 0;
     mkAccount "guest@root" "ed25519:g" [] 0]
    [mkAsset Sample.usd 2 0]
    [mkBalance Sample.usd "admin@root" "1000.00"]
    [mkRole "admin" ["*"]]
    [mkValidator "node1" "ed25519:1"].

Definition genesis_block : Block :=
  mkBlock (mkHeader 1 EmptyString 5) [] "genesis" Sample.sig0.

(** A transfer by alice, signed with the key [k]. *)
Definition signed_body : TransactionBody :=
  mkBody "miniroha-test" Sample.alice 1 1 [TransferAsset Sample.usd Sample.alice Sample.bob "100"].

Definition signed_transfer : Transaction :=
  mkTx signed_body
       (match Crypto.signTransaction Sample.sign Sample.publicKeyOf signed_body "k" with
        | Ok s => s
        | Throw _ => Sample.sig0
        end).

End Sample.

(** * Properties *)

(** ** Decimal strings *)

Module JSFacts.
Import JS.

Lemma is_digit_spec c : is_digit c = true <-> (48 <= N_of_ascii c <= 57)%N.
Proof.
  unfold is_digit. rewrite andb_true_iff, !N.leb_le. tauto.
Qed.

Lemma digit_char_ok d :
  0 <= d < 10 -> is_digit (digit_char d) = true /\ digit_val (digit_char d) = d.
Proof.
  intros Hd. unfold digit_char, digit_val.
  assert (Hlt : (48 + Z.to_N d < 256)%N) by lia.
  rewrite is_digit_spec, N_ascii_embedding by exact Hlt. lia.
Qed.

Lemma digit_val_range c : is_digit c = true -> 0 <= digit_val c < 10.
Proof. rewrite is_digit_spec. unfold digit_val. lia. Qed.

Lemma dot_not_digit : is_digit "." = false.
Proof. reflexivity. Qed.

Lemma append_cons x (a b : string) : String x a +:+ b = String x (a +:+ b).
Proof. reflexivity. Qed.

Lemma append_nil_l (b : string) : EmptyString +:+ b = b.
Proof. reflexivity. Qed.

Lemma append_assoc (a b c : string) : (a +:+ b) +:+ c = a +:+ (b +:+ c).
Proof.
  induction a as [|x a IH]; [reflexivity |].
  rewrite !append_cons. now rewrite IH.
Qed.

Lemma append_nil_r (a : string) : a +:+ EmptyString = a.
Proof.
  induction a as [|x a IH]; [reflexivity |].
  rewrite append_cons. now rewrite IH.
Qed.

Lemma length_append (a b : string) :
  String.length (a +:+ b) = (String.length a + String.length b)%nat.
Proof.
  induction a as [|x a IH]; [reflexivity |].
  rewrite append_cons. simpl. now rewrite IH.
Qed.

Lemma all_digits_app a b :
  all_digits (a +:+ b) = all_digits a && all_digits b.
Proof.
  induction a as [|x a IH]; [reflexivity |].
  rewrite append_cons. simpl. rewrite IH. now rewrite andb_assoc.
Qed.

Lemma all_digits_repeat_zero n : all_digits (repeat_char "0" n) = true.
Proof. induction n as [|n IH]; simpl; [reflexivity | exact IH]. Qed.

Lemma length_repeat_char c n : String.length (repeat_char c n) = n.
Proof. induction n as [|n IH]; simpl; [reflexivity | now rewrite IH]. Qed.

Lemma digits_value_acc_app a b acc :
  digits_value_acc (a +:+ b) acc = digits_value_acc b (digits_value_acc a acc).
Proof.
  revert acc. induction a as [|x a IH]; intros acc; [reflexivity |].
  rewrite append_cons. simpl. apply IH.
Qed.

Lemma digits_value_acc_shift s acc :
  digits_value_acc s acc = acc * 10 ^ Z.of_nat (String.length s) + digits_value s.
Proof.
  unfold digits_value. revert acc.
  induction s as [|x s IH]; intros acc.
  - simpl. lia.
  - cbn [digits_value_acc String.length]. rewrite IH, (IH (0 * 10 + digit_val x)).
    rewrite Nat2Z.inj_succ, Z.pow_succ_r by lia. ring.
Qed.

Lemma digits_value_app a b :
  digits_value (a +:+ b) = digits_value a * 10 ^ Z.of_nat (String.length b) + digits_value b.
Proof.
  unfold digits_value at 1. rewrite digits_value_acc_app.
  now rewrite digits_value_acc_shift.
Qed.

Lemma digits_value_zeros n : digits_value (repeat_char "0" n) = 0.
Proof.
  induction n as [|n IH]; [reflexivity |].
  change (repeat_char "0" (S n)) with ("0" +:+ repeat_char "0" n).
  rewrite digits_value_app, IH. reflexivity.
Qed.

Lemma digits_value_acc_nonneg s : forall acc,
  all_digits s = true -> 0 <= acc -> 0 <= digits_value_acc s acc.
Proof.
  induction s as [|c s IH]; intros acc Hs Hacc; [exact Hacc |].
  simpl in Hs. apply andb_true_iff in Hs as [Hc Hs].
  simpl. apply IH; [exact Hs |].
  pose proof (digit_val_range c Hc). lia.
Qed.

Lemma digits_value_nonneg s : all_digits s = true -> 0 <= digits_value s.
Proof. intros Hs. apply digits_value_acc_nonneg; [exact Hs | lia]. Qed.

(** The digits written by [digits_of] read back as the number. *)
Lemma digits_of_spec fuel : forall n acc,
  0 <= n < 2 ^ (Z.of_nat fuel + 1) ->
  exists ds, digits_of fuel n acc = ds +:+ acc /\ all_digits ds = true /\
             ds <> EmptyString /\ digits_value ds = n.
Proof.
  induction fuel as [|fuel IH]; intros n acc Hn.
  - exists (String (digit_char (n mod 10)) EmptyString).
    change (2 ^ (Z.of_nat 0 + 1)) with 2 in Hn.
    assert (Hmod : n mod 10 = n) by (apply Z.mod_small; lia).
    destruct (digit_char_ok (n mod 10)) as [Hd Hv]; [lia |].
    simpl. rewrite Hd. repeat split; try discriminate.
    unfold digits_value. simpl. lia.
  - cbn [digits_of]. destruct (Z.ltb_spec n 10) as [Hlt | Hge].
    + exists (String (digit_char (n mod 10)) EmptyString).
      assert (Hmod : n mod 10 = n) by (apply Z.mod_small; lia).
      destruct (digit_char_ok (n mod 10)) as [Hd Hv]; [lia |].
      simpl. rewrite Hd. repeat split; try discriminate.
      unfold digits_value. simpl. lia.
    + destruct (IH (n / 10) (String (digit_char (n mod 10)) acc)) as (ds & Heq & Hds & Hne & Hval).
      { split; [apply Z.div_pos; lia |].
        apply Z.div_lt_upper_bound; [lia |].
        rewrite Nat2Z.inj_succ in Hn.
        replace (Z.succ (Z.of_nat fuel) + 1) with (Z.succ (Z.of_nat fuel + 1)) in Hn by lia.
        rewrite Z.pow_succ_r in Hn by lia. lia. }
      exists (ds +:+ String (digit_char (n mod 10)) EmptyString).
      destruct (digit_char_ok (n mod 10)) as [Hd Hv];
        [apply Z.mod_pos_bound; lia |].
      rewrite Heq, append_assoc. simpl. repeat split.
      * rewrite all_digits_app, Hds. simpl. now rewrite Hd.
      * destruct ds; discriminate.
      * rewrite digits_value_app, Hval. unfold digits_value. simpl.
        rewrite Hv. pose proof (Z.div_mod n 10). lia.
Qed.

Lemma log2_fuel n : 0 <= n -> 0 <= n < 2 ^ (Z.of_nat (Z.to_nat (Z.log2 n)) + 1).
Proof.
  intros Hn. rewrite Z2Nat.id by apply Z.log2_nonneg.
  destruct (Z.eq_dec n 0) as [-> | Hne]; [simpl; lia |].
  pose proof (Z.log2_spec n). rewrite <- Z.add_1_r in H. lia.
Qed.

(** [BigInt(z.toString()) = z] *)
Lemma BigInt_toString z : BigInt (toString z) = Some z.
Proof.
  unfold toString. destruct (Z.ltb_spec z 0) as [Hneg | Hpos].
  - destruct (digits_of_spec _ (- z) EmptyString (log2_fuel (- z) ltac:(lia)))
      as (ds & Heq & Hds & Hne & Hval).
    rewrite Heq, append_nil_r. unfold BigInt.
    cbn [all_digits]. change (is_digit "-") with false. cbn [andb].
    rewrite Hds. destruct ds; [congruence |]. simpl. f_equal. lia.
  - destruct (digits_of_spec _ z EmptyString (log2_fuel z Hpos))
      as (ds & Heq & Hds & Hne & Hval).
    rewrite Heq, append_nil_r. unfold BigInt. rewrite Hds. now rewrite Hval.
Qed.

Lemma BigInt_digits s : all_digits s = true -> BigInt s = Some (digits_value s).
Proof. intros H. unfold BigInt. now rewrite H. Qed.

End JSFacts.

(** ** Amount conversion *)

Module AmountFacts.
Import JS JSFacts Amount.

Lemma split_digits w : all_digits w = true -> split "." w = [w].
Proof.
  induction w as [|c w IH]; [reflexivity |].
  simpl. intros [Hc Hw]%andb_true_iff.
  destruct (Ascii.eqb_spec c ".") as [-> | _]; [discriminate |].
  now rewrite IH.
Qed.

Lemma split_digits_dot w r :
  all_digits w = true -> split "." (w +:+ String "." r) = w :: split "." r.
Proof.
  induction w as [|c w IH]; [reflexivity |].
  rewrite append_cons. simpl. intros [Hc Hw]%andb_true_iff.
  destruct (Ascii.eqb_spec c ".") as [-> | _]; [discriminate |].
  now rewrite IH.
Qed.

Lemma skip_digits_spec s :
  exists w, all_digits w = true /\ s = w +:+ skip_digits s.
Proof.
  induction s as [|c s (w & Hw & Hs)]; [now exists EmptyString |].
  simpl. destruct (is_digit c) eqn:Hc.
  - exists (String c w). simpl. rewrite Hc, Hw, append_cons. now rewrite <- Hs.
  - now exists EmptyString.
Qed.

Lemma digits1_spec s r :
  digits1 s = Some r ->
  exists w, all_digits w = true /\ w <> EmptyString /\ s = w +:+ r.
Proof.
  destruct s as [|c s]; [discriminate |]. simpl.
  destruct (is_digit c) eqn:Hc; [| discriminate]. intros [= <-].
  destruct (skip_digits_spec s) as (w & Hw & Hs).
  exists (String c w). simpl. rewrite Hc, Hw, append_cons, <- Hs. now repeat split.
Qed.

(** The strings accepted by the regular expression: an integer part,
    optionally followed by a dot and a fractional tail. *)
Lemma amount_re_shape amount :
  amount_re amount = true ->
  exists w f, all_digits w = true /\ w <> EmptyString /\ all_digits f = true /\
              amount = (if nonempty f then w +:+ String "." f else w).
Proof.
  unfold amount_re. destruct (digits1 amount) as [r |] eqn:H1; [| discriminate].
  destruct (digits1_spec _ _ H1) as (w & Hw & Hne & ->).
  destruct r as [|c r].
  - intros _. exists w, EmptyString. rewrite append_nil_r. now repeat split.
  - destruct (Ascii.eqb_spec c ".") as [-> | _]; [| discriminate].
    destruct (digits1 r) as [[|] |] eqn:H2; try discriminate. intros _.
    destruct (digits1_spec _ _ H2) as (f & Hf & Hfne & ->).
    rewrite append_nil_r. exists w, f.
    destruct f; [congruence |]. now repeat split.
Qed.

Lemma validateAmount_parts w f p amount :
  all_digits w = true -> all_digits f = true ->
  amount = (if nonempty f then w +:+ String "." f else w) ->
  amount_re amount = true ->
  validateAmount amount p =
    if Z.of_nat (String.length f) >? p then Throw (PrecisionExceeded amount p)
    else Ok (digits_value (w +:+ f +:+ repeat_char "0" (Z.to_nat p - String.length f))).
Proof.
  intros Hw Hf Hamount Hre. unfold validateAmount. rewrite Hre. cbn [negb].
  assert (Hsplit : split "." amount = if nonempty f then [w; f] else [w]).
  { subst amount. destruct f as [|c f]; cbn [nonempty].
    - now apply split_digits.
    - rewrite split_digits_dot, split_digits by assumption. reflexivity. }
  rewrite Hsplit.
  assert (Hfrac : match (if nonempty f then [w; f] else [w]) !! 1%nat with
                  | Some s => s | None => EmptyString end = f)
    by (destruct f; reflexivity).
  rewrite Hfrac.
  assert (Hwhole : nth 0 (if nonempty f then [w; f] else [w]) EmptyString = w)
    by (destruct f; reflexivity).
  rewrite Hwhole.
  destruct (Z.of_nat (String.length f) >? p); [reflexivity |].
  unfold padEnd. rewrite BigInt_digits; [reflexivity |].
  now rewrite !all_digits_app, Hw, Hf, all_digits_repeat_zero.
Qed.

End AmountFacts.

(** C6. For an amount that matches the regular expression and a precision
    between 0 and 18, the conversion fails exactly when the fractional
    tail has more digits than the precision; otherwise it returns the
    integer read from the integer part followed by the fractional tail
    padded on the right with zeros to exactly [p] digits, that is
    [whole * 10^p + tail * 10^(p - |tail|)]. *)
Theorem validateAmount_spec (amount : string) (p : Z) :
  JS.amount_re amount = true -> 0 <= p <= 18 ->
  exists w f,
    JS.all_digits w = true /\ w <> EmptyString /\ JS.all_digits f = true /\
    amount = (if JS.nonempty f then w +:+ String "." f else w) /\
    (is_ok (Amount.validateAmount amount p) = false <-> p < Z.of_nat (String.length f)) /\
    (Z.of_nat (String.length f) <= p ->
     let padded := f +:+ JS.repeat_char "0" (Z.to_nat p - String.length f) in
     Z.of_nat (String.length padded) = p /\
     Amount.validateAmount amount p = Ok (JS.digits_value (w +:+ padded)) /\
     JS.digits_value (w +:+ padded) =
       JS.digits_value w * 10 ^ p + JS.digits_value f * 10 ^ (p - Z.of_nat (String.length f))).
Proof.
  intros Hre Hp.
  destruct (AmountFacts.amount_re_shape amount Hre) as (w & f & Hw & Hne & Hf & Hamount).
  exists w, f. repeat split; try assumption.
  - rewrite (AmountFacts.validateAmount_parts w f p amount) by assumption.
    destruct (Z.gtb_spec (Z.of_nat (String.length f)) p); [lia | discriminate].
  - intros Hlt. rewrite (AmountFacts.validateAmount_parts w f p amount) by assumption.
    destruct (Z.gtb_spec (Z.of_nat (String.length f)) p); [reflexivity | lia].
  - rewrite JSFacts.length_append, JSFacts.length_repeat_char. lia.
  - rewrite (AmountFacts.validateAmount_parts w f p amount) by assumption.
    destruct (Z.gtb_spec (Z.of_nat (String.length f)) p); [lia | reflexivity].
  - rewrite !JSFacts.digits_value_app, JSFacts.digits_value_zeros.
    rewrite JSFacts.length_append, !JSFacts.length_repeat_char.
    replace (Z.of_nat (String.length f + (Z.to_nat p - String.length f)))
      with p by lia.
    replace (Z.of_nat (Z.to_nat p - String.length f))
      with (p - Z.of_nat (String.length f)) by lia.
    ring.
Qed.

Lemma validateAmount_spec_witness :
  JS.amount_re "1000" = true /\ 0 <= 2 <= 18 /\
  Amount.validateAmount "1000" 2 = Ok 100000 /\
  exists w f,
    JS.all_digits w = true /\ w <> EmptyString /\ JS.all_digits f = true /\
    "1000" = (if JS.nonempty f then w +:+ String "." f else w) /\
    (is_ok (Amount.validateAmount "1000" 2) = false <-> 2 < Z.of_nat (String.length f)) /\
    (Z.of_nat (String.length f) <= 2 ->
     let padded := f +:+ JS.repeat_char "0" (Z.to_nat 2 - String.length f) in
     Z.of_nat (String.length padded) = 2 /\
     Amount.validateAmount "1000" 2 = Ok (JS.digits_value (w +:+ padded)) /\
     JS.digits_value (w +:+ padded) =
       JS.digits_value w * 10 ^ 2 + JS.digits_value f * 10 ^ (2 - Z.of_nat (String.length f))).
Proof.
  split; [reflexivity |]. split; [lia |]. split; [reflexivity |].
  apply (validateAmount_spec "1000" 2); [reflexivity | lia].
Defined.

(** ** Balances under the instruction engine *)

Module EngineFacts.
Import JS JSFacts State Amount InstructionEngine.

Lemma total_supply_unfold asset st : total_supply asset st = total_of asset (balances st).
Proof. reflexivity. Qed.

Lemma total_of_fresh asset m k b :
  m !! k = None ->
  total_of asset (<[k := b]> m) = total_of asset m + held asset (Some b).
Proof.
  intros Hk. unfold total_of.
  rewrite map_fold_insert_L; [| | exact Hk].
  - simpl. destruct (decide (balance_asset_id b = asset)); lia.
  - intros j1 j2 z1 z2 y _ _ _.
    destruct (decide (balance_asset_id z1 = asset)),
             (decide (balance_asset_id z2 = asset)); lia.
Qed.

Lemma total_of_delete asset m k :
  total_of asset (delete k m) = total_of asset m - held asset (m !! k).
Proof.
  destruct (m !! k) as [b |] eqn:Hk.
  - rewrite <- (insert_delete_id m k b Hk) at 2.
    rewrite total_of_fresh by apply lookup_delete_eq. lia.
  - rewrite delete_id by exact Hk. simpl. lia.
Qed.

Lemma total_of_insert asset m k b :
  total_of asset (<[k := b]> m) =
    total_of asset m - held asset (m !! k) + held asset (Some b).
Proof.
  rewrite <- insert_delete_eq.
  rewrite total_of_fresh by apply lookup_delete_eq.
  rewrite total_of_delete. lia.
Qed.

Lemma amount_of_toString a b z : amount_of (mkBalance a b (toString z)) = z.
Proof. unfold amount_of. simpl. now rewrite BigInt_toString. Qed.

Lemma amount_of_BigInt b z : BigInt (balance_amount b) = Some z -> amount_of b = z.
Proof. unfold amount_of. now intros ->. Qed.

(** A transfer that returns has passed every check and made the two
    writes of [handleTransferAsset]. *)
Lemma handleTransferAsset_ok a src dst amt st st' :
  handleTransferAsset a src dst amt st = (Ok tt, st') ->
  exists asset amount b srcAmount destAmount,
    getAsset a st = Some asset /\
    is_Some (getAccount src st) /\ is_Some (getAccount dst st) /\
    validateAmount amt (asset_precision asset) = Ok amount /\
    balances st !! balanceKey a src = Some b /\
    BigInt (balance_amount b) = Some srcAmount /\
    amount <= srcAmount /\
    let st1 := debit a src (srcAmount - amount) st in
    match balances st1 !! balanceKey a dst with
    | Some d => BigInt (balance_amount d) = Some destAmount
    | None => destAmount = 0
    end /\
    st' = putBalance (mkBalance a dst (toString (destAmount + amount))) st1.
Proof.
  unfold handleTransferAsset, bind, read, lift, throw, modify, bigint, ret.
  destruct (getAsset a st) as [asset |] eqn:Hasset; [| discriminate].
  destruct (getAccount src st) as [sa |] eqn:Hsrc; [| discriminate].
  destruct (getAccount dst st) as [da |] eqn:Hdst; [| discriminate].
  destruct (validateAmount amt (asset_precision asset)) as [amount | e] eqn:Hamt;
    [| discriminate].
  destruct (getBalance a src st) as [b |] eqn:Hb; [| discriminate].
  destruct (BigInt (balance_amount b)) as [srcAmount |] eqn:Hsb; [| discriminate].
  destruct (Z.ltb_spec srcAmount amount) as [Hlt | Hge]; [discriminate |].
  intros H.
  exists asset, amount, b, srcAmount.
  unfold debit.
  destruct (srcAmount - amount =? 0);
    match type of H with
    | context [getBalance a dst ?s] =>
        change (getBalance a dst s) with (balances s !! balanceKey a dst) in H;
        destruct (balances s !! balanceKey a dst) as [d |] eqn:Hd
    end;
    try (destruct (BigInt (balance_amount d)) as [destAmount |] eqn:Hdb;
         [| discriminate]; exists destAmount);
    try (exists 0);
    injection H as <-; cbv zeta; repeat split; eauto.
Qed.

Lemma balances_debit a src z st :
  balances (debit a src z st) =
    if z =? 0 then delete (balanceKey a src) (balances st)
    else <[balanceKey a src := mkBalance a src (toString z)]> (balances st).
Proof. unfold debit. now destruct (z =? 0). Qed.

Lemma total_of_debit x a src z st b srcAmount :
  balances st !! balanceKey a src = Some b ->
  balance_asset_id b = a ->
  BigInt (balance_amount b) = Some srcAmount ->
  total_of x (balances (debit a src z st)) =
    total_of x (balances st) - (if decide (a = x) then srcAmount - z else 0).
Proof.
  intros Hb Ha Hsb. rewrite balances_debit.
  destruct (Z.eqb_spec z 0) as [-> | Hz].
  - rewrite total_of_delete, Hb. simpl. rewrite Ha.
    rewrite (amount_of_BigInt _ _ Hsb). destruct (decide (a = x)); lia.
  - rewrite total_of_insert, Hb. simpl. rewrite Ha.
    rewrite (amount_of_BigInt _ _ Hsb), amount_of_toString.
    destruct (decide (a = x)); lia.
Qed.

Lemma has_char_app c a b : has_char c (a +:+ b) = has_char c a || has_char c b.
Proof.
  induction a as [|x a IH]; [reflexivity |].
  rewrite append_cons. cbn [has_char]. now rewrite IH, orb_assoc.
Qed.

(** Two accounts that share the balance key of one asset are the same. *)
Lemma balanceKey_account a src dst : balanceKey a src = balanceKey a dst -> src = dst.
Proof.
  unfold balanceKey. induction a as [|c a IH]; rewrite ?append_cons, ?append_nil_l; intros H.
  - now injection H.
  - injection H as H. now apply IH.
Qed.

(** An asset and an account without [/] share their balance key with
    no other pair. *)
Lemma balanceKey_plain a acct a' acct' :
  plain a = true -> plain acct = true ->
  balanceKey a acct = balanceKey a' acct' -> a = a' /\ acct = acct'.
Proof.
  unfold plain, balanceKey. rewrite !negb_true_iff. intros Ha Hacct.
  revert a' Ha. induction a as [|c a IH]; intros [|c' a'] Ha;
    rewrite ?append_cons, ?append_nil_l; intros H.
  - injection H as H. now split.
  - injection H as Hc H. subst acct. exfalso.
    rewrite !has_char_app in Hacct. apply orb_false_iff in Hacct as [_ Hacct].
    apply orb_false_iff in Hacct as [Hacct _]. vm_compute in Hacct. discriminate.
  - injection H as Hc _. subst c. cbn [has_char] in Ha. discriminate.
  - cbn [has_char] in Ha. apply orb_false_iff in Ha as [_ Ha].
    injection H as Hc H. subst c'. destruct (IH _ Ha H) as [-> ->]. now split.
Qed.

(** In a store whose balances sit under their own keys, the key of a
    plain asset and a plain account holds a balance of theirs, if any. *)
Lemma readable_of_asset a acct st :
  balances_readable st -> plain a = true -> plain acct = true -> of_asset a acct st.
Proof.
  intros Hst Ha Hacct. unfold of_asset, getBalance. cbn [get].
  destruct (balances st !! balanceKey a acct) as [b |] eqn:Hb; [| exact I].
  specialize (Hst _ _ Hb). cbv beta in Hst. unfold readable in Hst.
  destruct (BigInt (balance_amount b)); [| discriminate].
  apply andb_true_iff in Hst as [_ Hk]. apply String.eqb_eq in Hk.
  destruct (balanceKey_plain _ _ _ _ Ha Hacct Hk) as [Heq _]. now symmetry.
Qed.

(** The destination as [handleTransferAsset] reads it back after the
    debit: for a self-transfer this is the debited balance. *)
Lemma of_asset_debit a src dst z st :
  of_asset a dst st -> of_asset a dst (debit a src z st).
Proof.
  unfold of_asset, getBalance. cbn [get]. rewrite balances_debit. intros H.
  destruct (decide (balanceKey a src = balanceKey a dst)) as [<- | Hne].
  - destruct (z =? 0); [now rewrite lookup_delete_eq | now rewrite lookup_insert_eq].
  - destruct (z =? 0);
      [now rewrite lookup_delete_ne by exact Hne | now rewrite lookup_insert_ne by exact Hne].
Qed.

Lemma held_after_debit x a src dst z st destAmount :
  of_asset a dst (debit a src z st) ->
  match balances (debit a src z st) !! balanceKey a dst with
  | Some d => BigInt (balance_amount d) = Some destAmount
  | None => destAmount = 0
  end ->
  held x (balances (debit a src z st) !! balanceKey a dst) =
    if decide (a = x) then destAmount else 0.
Proof.
  unfold of_asset, getBalance. cbn [get].
  destruct (balances (debit a src z st) !! balanceKey a dst) as [d |]; simpl.
  - intros -> Hd. rewrite (amount_of_BigInt _ _ Hd). reflexivity.
  - intros _ ->. now destruct (decide (a = x)).
Qed.

Lemma balances_putBalance b st :
  balances (putBalance b st) =
    <[balanceKey (balance_asset_id b) (balance_account_id b) := b]> (balances st).
Proof. reflexivity. Qed.

Lemma held_toString x a acct z :
  held x (Some (mkBalance a acct (toString z))) = if decide (a = x) then z else 0.
Proof. unfold held. cbn [balance_asset_id]. now rewrite amount_of_toString. Qed.

End EngineFacts.

(** C7 (as the code has it). A TransferAsset that succeeds leaves, for
    every asset, the sum of the stored balances of that asset unchanged,
    source and destination the same account or not, when the balances
    found under the source key and under the destination key are
    balances of the transferred asset. *)
Theorem transfer_preserves_total_supply
    (now : Z) (asset src dst amount signer : string) (st st' : State.store) :
  InstructionEngine.of_asset asset src st ->
  InstructionEngine.of_asset asset dst st ->
  InstructionEngine.execute now (TransferAsset asset src dst amount) signer st = (Ok tt, st') ->
  forall x, InstructionEngine.total_supply x st' = InstructionEngine.total_supply x st.
Proof.
  cbn [InstructionEngine.execute]. intros Hsrc Hdst H x.
  destruct (EngineFacts.handleTransferAsset_ok _ _ _ _ _ _ H)
    as (a & amt & b & srcAmount & destAmount & _ & _ & _ & _ & Hb & Hsb & Hle & Hd & ->).
  cbv zeta in Hd.
  assert (Ha : balance_asset_id b = asset).
  { unfold InstructionEngine.of_asset in Hsrc.
    change (State.getBalance asset src st)
      with (State.balances st !! State.balanceKey asset src) in Hsrc.
    now rewrite Hb in Hsrc. }
  rewrite !EngineFacts.total_supply_unfold, EngineFacts.balances_putBalance.
  cbn [balance_asset_id balance_account_id].
  rewrite EngineFacts.total_of_insert.
  rewrite (EngineFacts.held_after_debit x _ _ _ _ _ destAmount
             (EngineFacts.of_asset_debit _ _ _ _ _ Hdst) Hd).
  rewrite EngineFacts.held_toString.
  rewrite (EngineFacts.total_of_debit x _ _ _ _ b srcAmount Hb Ha Hsb).
  destruct (decide (asset = x)); lia.
Qed.

(** C7, the claim as stated, fails where two pairs of ids share one
    balance key.  In [Sample.store_slash] the key
    [balances/usd#root/x/y@root] holds 5.00 of the asset [usd#root/x]
    for [y@root]; a transfer of the asset [usd#root] out of the account
    [x/y@root] reads that key, succeeds, and takes the sum of the
    balances of [usd#root/x] from 500 to 0. *)
Lemma transfer_on_shared_key_changes_total_supply :
  InstructionEngine.execute 0 (TransferAsset Sample.usd "x/y@root" Sample.bob "5")
    "x/y@root" Sample.store_slash
  = (Ok tt, (InstructionEngine.execute 0 (TransferAsset Sample.usd "x/y@root" Sample.bob "5")
               "x/y@root" Sample.store_slash).2) /\
  InstructionEngine.total_supply "usd#root/x" Sample.store_slash = 500 /\
  InstructionEngine.total_supply "usd#root/x"
    (InstructionEngine.execute 0 (TransferAsset Sample.usd "x/y@root" Sample.bob "5")
       "x/y@root" Sample.store_slash).2 = 0 /\
  ~ (forall x,
       InstructionEngine.total_supply x
         (InstructionEngine.execute 0 (TransferAsset Sample.usd "x/y@root" Sample.bob "5")
            "x/y@root" Sample.store_slash).2
       = InstructionEngine.total_supply x Sample.store_slash).
Proof.
  split; [vm_compute; reflexivity |]. split; [vm_compute; reflexivity |].
  split; [vm_compute; reflexivity |].
  intros H. specialize (H "usd#root/x"). vm_compute in H. discriminate H.
Qed.

(** C10 (as the code has it). A transfer from an account to itself, of
    an existing asset and an amount that converts, succeeds when the
    account has a stored balance that reads as an integer of at least
    the amount, and leaves the stored balance at the integer it held
    before; no other balance key changes. *)
Theorem self_transfer_keeps_balance
    (now : Z) (asset account amount signer : string) (st : State.store)
    (a : Asset) (amt b : Z) :
  State.getAsset asset st = Some a ->
  is_Some (State.getAccount account st) ->
  Amount.validateAmount amount (asset_precision a) = Ok amt ->
  InstructionEngine.balance_value asset account st = Some b ->
  amt <= b ->
  exists st',
    InstructionEngine.execute now (TransferAsset asset account account amount) signer st = (Ok tt, st') /\
    InstructionEngine.balance_value asset account st' = Some b /\
    (forall k, k <> State.balanceKey asset account ->
               State.balances st' !! k = State.balances st !! k).
Proof.
  intros Hasset [acc Hacc] Hamt Hbal Hle.
  unfold InstructionEngine.balance_value in Hbal.
  destruct (State.getBalance asset account st) as [bal |] eqn:Hb; [| discriminate].
  cbn [InstructionEngine.execute].
  unfold InstructionEngine.handleTransferAsset, InstructionEngine.bind, InstructionEngine.read, InstructionEngine.lift,
    InstructionEngine.throw, InstructionEngine.modify, InstructionEngine.bigint, InstructionEngine.ret.
  repeat progress (cbv beta iota; rewrite ?Hasset, ?Hacc, ?Hamt, ?Hb, ?Hbal).
  destruct (Z.ltb_spec b amt) as [Hlt | _]; [lia |].
  destruct (Z.eqb_spec (b - amt) 0) as [Hz | Hnz].
  - (* the debit removes the key; the credit reads it back as absent *)
    unfold State.getBalance at 1, State.del. cbn [State.get State.write State.balances State.upd].
    rewrite lookup_delete_eq.
    eexists. split; [reflexivity |]. split.
    + unfold InstructionEngine.balance_value, State.getBalance, State.putBalance, State.put.
      cbn [State.get State.write State.balances State.upd balance_asset_id balance_account_id].
      rewrite lookup_insert_eq. cbn [balance_amount].
      rewrite JSFacts.BigInt_toString. f_equal. lia.
    + intros k Hk. unfold State.putBalance, State.put.
      cbn [State.write State.balances State.upd balance_asset_id balance_account_id].
      rewrite lookup_insert_ne by congruence. now rewrite lookup_delete_ne by congruence.
  - (* the debit rewrites the key; the credit reads the debited amount *)
    unfold State.getBalance at 1, State.putBalance at 1, State.put.
    cbn [State.get State.write State.balances State.upd balance_asset_id balance_account_id].
    rewrite lookup_insert_eq. cbn [balance_amount].
    rewrite JSFacts.BigInt_toString.
    eexists. split; [reflexivity |]. split.
    + unfold InstructionEngine.balance_value, State.getBalance, State.putBalance, State.put.
      cbn [State.get State.write State.balances State.upd balance_asset_id balance_account_id].
      rewrite lookup_insert_eq. cbn [balance_amount].
      rewrite JSFacts.BigInt_toString. f_equal. lia.
    + intros k Hk. unfold State.putBalance, State.put.
      cbn [State.write State.balances State.upd balance_asset_id balance_account_id].
      now rewrite !lookup_insert_ne by congruence.
Qed.

Lemma self_transfer_keeps_balance_witness :
  State.getAsset Sample.usd Sample.store0 = Some (mkAsset Sample.usd 2 0) /\
  is_Some (State.getAccount Sample.alice Sample.store0) /\
  Amount.validateAmount "100" 2 = Ok 10000 /\
  InstructionEngine.balance_value Sample.usd Sample.alice Sample.store0 = Some 100000 /\
  10000 <= 100000 /\
  exists st',
    InstructionEngine.execute 0 (TransferAsset Sample.usd Sample.alice Sample.alice "100")
                   Sample.alice Sample.store0 = (Ok tt, st') /\
    InstructionEngine.balance_value Sample.usd Sample.alice st' = Some 100000 /\
    (forall k, k <> State.balanceKey Sample.usd Sample.alice ->
               State.balances st' !! k = State.balances Sample.store0 !! k).
Proof.
  assert (H1 : State.getAsset Sample.usd Sample.store0 = Some (mkAsset Sample.usd 2 0))
    by (vm_compute; reflexivity).
  assert (H2 : is_Some (State.getAccount Sample.alice Sample.store0))
    by (exists (mkAccount Sample.alice "ed25519:a" ["user"] 0); vm_compute; reflexivity).
  assert (H3 : Amount.validateAmount "100" 2 = Ok 10000) by (vm_compute; reflexivity).
  assert (H4 : InstructionEngine.balance_value Sample.usd Sample.alice Sample.store0 = Some 100000)
    by (vm_compute; reflexivity).
  assert (H5 : 10000 <= 100000) by lia.
  repeat (split; [assumption |]).
  exact (self_transfer_keeps_balance 0 Sample.usd Sample.alice "100" Sample.alice
           Sample.store0 (mkAsset Sample.usd 2 0) 10000 100000 H1 H2 H3 H4 H5).
Defined.

(** C10, the claim as stated, fails for an account without a balance
    key.  An absent key is a zero balance, which covers the amount 0,
    yet the transfer of 0 from charlie to charlie raises: the handler
    asks for a stored source balance before it compares amounts. *)
Lemma self_transfer_without_balance_key_raises :
  State.getBalance Sample.usd Sample.charlie Sample.store0 = None /\
  State.getAsset Sample.usd Sample.store0 = Some (mkAsset Sample.usd 2 0) /\
  Amount.validateAmount "0" 2 = Ok 0 /\
  InstructionEngine.execute 0 (TransferAsset Sample.usd Sample.charlie Sample.charlie "0")
    Sample.charlie Sample.store0
  = (Throw (NoBalance Sample.charlie Sample.usd), Sample.store0).
Proof. repeat split; vm_compute; reflexivity. Qed.

Lemma transfer_preserves_total_supply_witness :
  InstructionEngine.of_asset Sample.usd Sample.alice Sample.store0 /\
  InstructionEngine.of_asset Sample.usd Sample.bob Sample.store0 /\
  InstructionEngine.execute 0 (TransferAsset Sample.usd Sample.alice Sample.bob "100")
                 Sample.alice Sample.store0
    = (Ok tt, (InstructionEngine.execute 0 (TransferAsset Sample.usd Sample.alice Sample.bob "100")
                              Sample.alice Sample.store0).2) /\
  InstructionEngine.total_supply Sample.usd Sample.store0 = 150000 /\
  forall x,
    InstructionEngine.total_supply x
      (InstructionEngine.execute 0 (TransferAsset Sample.usd Sample.alice Sample.bob "100")
                      Sample.alice Sample.store0).2
    = InstructionEngine.total_supply x Sample.store0.
Proof.
  assert (Hs : InstructionEngine.of_asset Sample.usd Sample.alice Sample.store0)
    by (vm_compute; reflexivity).
  assert (Hd : InstructionEngine.of_asset Sample.usd Sample.bob Sample.store0)
    by (vm_compute; reflexivity).
  assert (H : InstructionEngine.execute 0 (TransferAsset Sample.usd Sample.alice Sample.bob "100")
                             Sample.alice Sample.store0
              = (Ok tt, (InstructionEngine.execute 0
                           (TransferAsset Sample.usd Sample.alice Sample.bob "100")
                           Sample.alice Sample.store0).2))
    by (vm_compute; reflexivity).
  split; [exact Hs |]. split; [exact Hd |].
  split; [exact H |]. split; [vm_compute; reflexivity |].
  exact (transfer_preserves_total_supply 0 Sample.usd Sample.alice Sample.bob "100"
           Sample.alice Sample.store0 _ Hs Hd H).
Defined.

(** C8 (the code breaks it). Minting the amount [0] to an account that
    holds no balance of the asset succeeds and stores a balance key whose
    amount is zero, where a burn or the debit of a transfer removes the
    key instead. *)
Theorem mint_zero_stores_zero_balance :
  State.getBalance Sample.usd Sample.charlie Sample.store0 = None /\
  (InstructionEngine.execute 0 (MintAsset Sample.usd Sample.charlie "0") Sample.treasury Sample.store0).1
    = Ok tt /\
  State.getBalance Sample.usd Sample.charlie
    (InstructionEngine.execute 0 (MintAsset Sample.usd Sample.charlie "0") Sample.treasury Sample.store0).2
    = Some (mkBalance Sample.usd Sample.charlie "0") /\
  InstructionEngine.balance_value Sample.usd Sample.charlie
    (InstructionEngine.execute 0 (MintAsset Sample.usd Sample.charlie "0") Sample.treasury Sample.store0).2
    = Some 0.
Proof. repeat split; vm_compute; reflexivity. Qed.

(** C1 (the code breaks it). A block whose transaction mints 5.00 usd is
    applied while the store refuses the batch: the apply fails with the
    storage error, no block record and no height is written, and yet the
    minted balance is in the store, because the engine wrote it through
    [put] before the batch was handed over. *)
Theorem applyBlock_failed_commit_keeps_engine_writes :
  (BlockProducer.applyBlock Sample.hash false 0 Sample.mint_block Sample.store0 []).1.1
    = Throw StorageError /\
  InstructionEngine.balance_value Sample.usd Sample.charlie Sample.store0 = None /\
  InstructionEngine.balance_value Sample.usd Sample.charlie
    (BlockProducer.applyBlock Sample.hash false 0 Sample.mint_block Sample.store0 []).1.2 = Some 500 /\
  State.getBlock 2
    (BlockProducer.applyBlock Sample.hash false 0 Sample.mint_block Sample.store0 []).1.2 = None /\
  State.getLastHeight
    (BlockProducer.applyBlock Sample.hash false 0 Sample.mint_block Sample.store0 []).1.2 = 1.
Proof. repeat split; vm_compute; reflexivity. Qed.

(** C4 (the code breaks it). With four validators the quorum is 3.  Of
    the three recorded prevotes one is nil and two carry a block hash;
    there is no valid block.  [checkPrevoteQuorum] moves to precommit and
    casts a nil precommit all the same: with [blockHash] undefined,
    [hasQuorum] counts every vote. *)
Theorem checkPrevoteQuorum_counts_block_votes_as_nil :
  BFTConsensus.getQuorumSize Sample.validators4 = 3 /\
  BFTConsensus.countNil (BFTConsensus.cs_prevotes Sample.prevote_state) = 1 /\
  BFTConsensus.countVotes (BFTConsensus.cs_prevotes Sample.prevote_state) None = 3 /\
  (exists st', BFTConsensus.checkPrevoteQuorum Sample.hash Sample.validators4 Sample.prevote_state
                 = Ok (st', BFTConsensus.CastPrecommit None) /\
               BFTConsensus.cs_step st' = BFTConsensus.precommit).
Proof.
  repeat split; try (vm_compute; reflexivity).
  eexists. split; vm_compute; reflexivity.
Qed.

(** C3 (the code breaks it). The array replacer is a whitelist for every
    object of the value, so a nested object keeps only the keys that are
    also top-level keys: [{b: {z: 1, a: 2}}] is serialised as
    [{"b":{}}], not as [{"b":{"a":2,"z":1}}]. *)
Theorem canonicalJsonStringify_drops_nested_keys :
  Canon.canonicalJsonStringify Sample.nested
    = Ok ("{" +:+ Sample.q "b" +:+ ":{}}") /\
  Canon.canonical_spec Sample.nested
    = Some ("{" +:+ Sample.q "b" +:+ ":{" +:+ Sample.q "a" +:+ ":2," +:+ Sample.q "z" +:+ ":1}}") /\
  Canon.JSON_stringify Sample.nested None
    = Some ("{" +:+ Sample.q "b" +:+ ":{" +:+ Sample.q "z" +:+ ":1," +:+ Sample.q "a" +:+ ":2}}").
Proof. repeat split; vm_compute; reflexivity. Qed.

(** C5 (the code breaks it). The node applies a block that holds alice's
    transaction with nonce 1.  The validator's record is not touched by
    the apply, so the same nonce passes the check again, although the
    last nonce seen for alice is now 1. *)
Theorem nonce_not_recorded_by_block_apply :
  (MinirohaNode.applyBlock Sample.hash true 0 Sample.transfer_block Sample.node0).1 = Ok tt /\
  TransactionValidator.spec_last_seen_nonce [Sample.transfer_block] Sample.alice = 1 /\
  TransactionValidator.validateNonce
    (MinirohaNode.node_lastNonces
       (MinirohaNode.applyBlock Sample.hash true 0 Sample.transfer_block Sample.node0).2)
    (tx_body Sample.transfer_tx) = None /\
  TransactionValidator.nonce_check_as_specified [Sample.transfer_block]
    (MinirohaNode.node_lastNonces
       (MinirohaNode.applyBlock Sample.hash true 0 Sample.transfer_block Sample.node0).2)
    (tx_body Sample.transfer_tx) = false.
Proof. repeat split; vm_compute; reflexivity. Qed.

(** ** The block applier *)

Module BlockFacts.
Import Canon Wire State InstructionEngine BlockProducer.

Lemma canonical_obj_ok m : exists s, canonicalJsonStringify (JObj m) = Ok s.
Proof. unfold canonicalJsonStringify, JSON_stringify. simpl. eauto. Qed.

Lemma calculateBlockHash_ok hash blk : exists h, calculateBlockHash hash blk = Ok h.
Proof.
  unfold calculateBlockHash, json_of_header.
  destruct (canonical_obj_ok
    [("height", JNum (header_height (block_header blk)));
     ("prev_hash", JStr (header_prev_hash (block_header blk)));
     ("timestamp", JNum (header_timestamp (block_header blk)))]) as [s ->]. eauto.
Qed.

Lemma calculateTransactionHash_ok hash tx : exists h, calculateTransactionHash hash tx = Ok h.
Proof.
  unfold calculateTransactionHash, json_of_tx.
  destruct (canonical_obj_ok
    [("body", json_of_body (tx_body tx));
     ("signature", json_of_signature (tx_signature tx))]) as [s ->]. eauto.
Qed.

(** The engine writes ledger families only: whatever an instruction
    does, block records, transaction records, the chain id, the height
    and the validators stay as they were. *)
Lemma execute_chain_records now i signer st :
  chain_records (execute now i signer st).2 = chain_records st.
Proof. destruct i; cbn [execute]; run_engine. Qed.

Lemma execute_all_chain_records now instrs signer : forall st,
  chain_records (execute_all now instrs signer st).2 = chain_records st.
Proof.
  induction instrs as [|i instrs IH]; intros st; [reflexivity |].
  cbn [execute_all]. unfold bind.
  pose proof (execute_chain_records now i signer st) as Hi.
  destruct (execute now i signer st) as [[u | e] st1]; cbn [snd] in *.
  - now rewrite IH.
  - exact Hi.
Qed.

Lemma executeTransactions_chain_records now txs : forall st,
  chain_records (executeTransactions now txs st).2 = chain_records st.
Proof.
  induction txs as [|tx txs IH]; intros st; [reflexivity |].
  cbn [executeTransactions]. unfold bind.
  pose proof (execute_all_chain_records now (body_instructions (tx_body tx))
                (body_signer_id (tx_body tx)) st) as Hi.
  destruct (execute_all now _ _ st) as [[u | e] st1]; cbn [snd] in *.
  - now rewrite IH.
  - exact Hi.
Qed.

(** The loop of [applyBlock] makes the engine calls of
    [executeTransactions] and fails where they fail. *)
Lemma processTransactions_run hash now txs : forall ops st,
  match executeTransactions now txs st with
  | (Ok _, st') => exists ops', processTransactions hash now txs ops st = (Ok ops', st')
  | (Throw e, st') => processTransactions hash now txs ops st = (Throw e, st')
  end.
Proof.
  induction txs as [|tx txs IH]; intros ops st; [cbn; eauto |].
  cbn [executeTransactions processTransactions]. unfold bind, lift.
  destruct (calculateTransactionHash_ok hash tx) as [h ->].
  destruct (execute_all now _ _ st) as [[u | e] st1]; [| reflexivity].
  apply IH.
Qed.

Lemma executeTransactions_fails now pre tx post e st_fail : forall st st_pre,
  executeTransactions now pre st = (Ok tt, st_pre) ->
  execute_all now (body_instructions (tx_body tx)) (body_signer_id (tx_body tx)) st_pre
    = (Throw e, st_fail) ->
  executeTransactions now (pre ++ tx :: post) st = (Throw e, st_fail).
Proof.
  induction pre as [|p pre IH]; intros st st_pre Hpre Htx.
  - injection Hpre as <-. cbn [app executeTransactions]. unfold bind. now rewrite Htx.
  - cbn [app executeTransactions] in *. unfold bind in *.
    destruct (execute_all now _ _ st) as [[u | e'] st1]; [| discriminate].
    now apply (IH st1 st_pre).
Qed.

Lemma applyBlock_store_fails hash commit_ok now blk st e st_fail :
  executeTransactions now (block_transactions blk) st = (Throw e, st_fail) ->
  applyBlock_store hash commit_ok now blk st = (Throw e, st_fail).
Proof.
  intros H. unfold applyBlock_store, bind, lift.
  destruct (calculateBlockHash_ok hash blk) as [h ->].
  pose proof (processTransactions_run hash now (block_transactions blk)
                ([OpPut (KBlock (header_height (block_header blk))) blk] ++
                 [OpPut (KBlockByHash h) (header_height (block_header blk))])%list st) as Hrun.
  rewrite H in Hrun. now rewrite Hrun.
Qed.

(** When every engine call returns, the loop queues one transaction
    record per transaction behind the operations it was given. *)
Lemma processTransactions_ok hash now txs : forall ops st st1,
  executeTransactions now txs st = (Ok tt, st1) ->
  exists recs, Forall tx_record_op recs /\
    processTransactions hash now txs ops st = (Ok (ops ++ recs)%list, st1).
Proof.
  induction txs as [|tx txs IH]; intros ops st st1 H.
  - injection H as <-. exists []. split; [constructor |]. cbn. now rewrite app_nil_r.
  - cbn [executeTransactions processTransactions] in *. unfold bind, lift in *.
    destruct (calculateTransactionHash_ok hash tx) as [h ->].
    destruct (execute_all now _ _ st) as [[u | e] st0]; [| discriminate].
    destruct (IH (ops ++ [OpPut (KTx h) tx])%list st0 st1 H) as (recs & Hrecs & ->).
    exists (OpPut (KTx h) tx :: recs). split; [constructor; [exact I | exact Hrecs] |].
    now rewrite <- app_assoc.
Qed.

Lemma apply_tx_records recs : forall st,
  Forall tx_record_op recs ->
  ledger (apply_ops recs st) = ledger st /\
  blocks (apply_ops recs st) = blocks st /\
  blocks_by_hash (apply_ops recs st) = blocks_by_hash st /\
  last_height (apply_ops recs st) = last_height st.
Proof.
  induction recs as [|o recs IH]; intros st Hrecs; [now repeat split |].
  apply Forall_cons in Hrecs as [Ho Hrecs].
  destruct (IH (apply_op st o) Hrecs) as (H1 & H2 & H3 & H4).
  unfold apply_ops in *. cbn [fold_left]. rewrite H1, H2, H3, H4.
  destruct o as [[] v |]; try contradiction. now repeat split.
Qed.

End BlockFacts.

(** C2 (as the code has it). When an instruction of a transaction fails
    during block apply, the apply stops there and raises that error to
    its caller: no transaction after the failing one is executed, the
    mempool is left as it was, and no block record, transaction record or
    height is written. *)
Theorem applyBlock_aborts_at_failing_instruction
    (hash : string -> string) (commit_ok : bool) (now : Z) (blk : Block)
    (st : State.store) (mp : BlockProducer.mempool)
    (pre post : list Transaction) (tx : Transaction)
    (e : error) (st_pre st_fail : State.store) :
  block_transactions blk = (pre ++ tx :: post)%list ->
  BlockProducer.executeTransactions now pre st = (Ok tt, st_pre) ->
  InstructionEngine.execute_all now (body_instructions (tx_body tx)) (body_signer_id (tx_body tx)) st_pre
    = (Throw e, st_fail) ->
  exists st',
    BlockProducer.applyBlock hash commit_ok now blk st mp = (Throw e, st', mp) /\
    State.chain_records st' = State.chain_records st /\
    forall blk' post',
      block_transactions blk' = (pre ++ tx :: post')%list ->
      BlockProducer.applyBlock hash commit_ok now blk' st mp = (Throw e, st', mp).
Proof.
  intros Htxs Hpre Htx. exists st_fail.
  assert (Hany : forall b p, block_transactions b = (pre ++ tx :: p)%list ->
            BlockProducer.applyBlock hash commit_ok now b st mp = (Throw e, st_fail, mp)).
  { intros b p Hb. unfold BlockProducer.applyBlock.
    rewrite (BlockFacts.applyBlock_store_fails hash commit_ok now b st e st_fail);
      [reflexivity |].
    rewrite Hb. exact (BlockFacts.executeTransactions_fails now pre tx p e st_fail
                         st st_pre Hpre Htx). }
  split; [exact (Hany blk post Htxs) |]. split; [| exact Hany].
  pose proof (BlockFacts.executeTransactions_chain_records now (pre ++ tx :: post)%list st) as H.
  rewrite (BlockFacts.executeTransactions_fails now pre tx post e st_fail st st_pre Hpre Htx)
    in H.
  exact H.
Qed.

Lemma applyBlock_aborts_at_failing_instruction_witness :
  block_transactions Sample.mixed_block = ([] ++ Sample.failing_tx :: [Sample.later_tx])%list /\
  BlockProducer.executeTransactions 0 [] Sample.store0 = (Ok tt, Sample.store0) /\
  InstructionEngine.execute_all 0 (body_instructions (tx_body Sample.failing_tx))
      (body_signer_id (tx_body Sample.failing_tx)) Sample.store0
    = (Throw (DestinationAccountNotFound "nobody@root"),
       (InstructionEngine.execute_all 0 (body_instructions (tx_body Sample.failing_tx))
          (body_signer_id (tx_body Sample.failing_tx)) Sample.store0).2) /\
  exists st',
    BlockProducer.applyBlock Sample.hash true 0 Sample.mixed_block Sample.store0 []
      = (Throw (DestinationAccountNotFound "nobody@root"), st', []) /\
    State.chain_records st' = State.chain_records Sample.store0 /\
    forall blk' post',
      block_transactions blk' = ([] ++ Sample.failing_tx :: post')%list ->
      BlockProducer.applyBlock Sample.hash true 0 blk' Sample.store0 []
        = (Throw (DestinationAccountNotFound "nobody@root"), st', []).
Proof.
  assert (H1 : block_transactions Sample.mixed_block
               = ([] ++ Sample.failing_tx :: [Sample.later_tx])%list) by reflexivity.
  assert (H2 : BlockProducer.executeTransactions 0 [] Sample.store0 = (Ok tt, Sample.store0))
    by reflexivity.
  assert (H3 : InstructionEngine.execute_all 0 (body_instructions (tx_body Sample.failing_tx))
                 (body_signer_id (tx_body Sample.failing_tx)) Sample.store0
               = (Throw (DestinationAccountNotFound "nobody@root"),
                  (InstructionEngine.execute_all 0 (body_instructions (tx_body Sample.failing_tx))
                     (body_signer_id (tx_body Sample.failing_tx)) Sample.store0).2))
    by (vm_compute; reflexivity).
  repeat (split; [assumption |]).
  exact (applyBlock_aborts_at_failing_instruction Sample.hash true 0 Sample.mixed_block
           Sample.store0 [] [] [Sample.later_tx] Sample.failing_tx _ _ _ H1 H2 H3).
Defined.

(** C2, the claim as stated, fails on [Sample.mixed_block]: the apply
    raises the error of the failing instruction; the transfer made by the
    first instruction of the failing transaction is still in the store
    (alice holds 90000, not 100000), and the later transaction was not
    applied (under a rollback alice would hold 100100). *)
Lemma applyBlock_has_no_rollback :
  (BlockProducer.applyBlock Sample.hash true 0 Sample.mixed_block Sample.store0 []).1.1
    = Throw (DestinationAccountNotFound "nobody@root") /\
  InstructionEngine.balance_value Sample.usd Sample.alice
    (BlockProducer.applyBlock Sample.hash true 0 Sample.mixed_block Sample.store0 []).1.2
    = Some 90000 /\
  InstructionEngine.balance_value Sample.usd Sample.alice
    (BlockProducer.spec_processTransactions 0 (block_transactions Sample.mixed_block) Sample.store0)
    = Some 100100 /\
  BlockProducer.applies_with_rollback Sample.hash 0 Sample.mixed_block Sample.store0 = false.
Proof. repeat split; vm_compute; reflexivity. Qed.

(** ** Genesis *)

Module GenesisFacts.
Import State InstructionEngine GenesisBootstrap.

Lemma check_ok b msg u : check b msg = Ok u -> b = true.
Proof. destruct b; [reflexivity | discriminate]. Qed.

Lemma then_ok {A B} (r : result A) (k : A -> result B) b :
  then_ r k = Ok b -> exists a, r = Ok a /\ k a = Ok b.
Proof. destruct r as [a | e]; [eauto | discriminate]. Qed.

(** A configuration that passes validation has an [admin] role and an
    account that holds it: these are the last two checks. *)
Lemma validateGenesisConfig_admin cfg :
  validateGenesisConfig cfg = Ok tt ->
  hasAdminRole cfg = true /\ hasAdminAccount cfg = true.
Proof.
  unfold validateGenesisConfig. intros H.
  repeat match type of H with
         | then_ _ _ = Ok _ => apply then_ok in H as (? & ? & H)
         end.
  split.
  - match goal with
    | Hc : check (hasAdminRole cfg) _ = Ok _ |- _ => exact (check_ok _ _ _ Hc)
    end.
  - exact (check_ok _ _ _ H).
Qed.

Lemma hasAdminRole_false cfg :
  Forall (fun r => role_id r <> "admin") (g_roles cfg) -> hasAdminRole cfg = false.
Proof.
  unfold hasAdminRole. induction 1 as [|r rs Hr _ IH]; [reflexivity |].
  cbn [existsb]. rewrite IH, orb_false_r. now apply String.eqb_neq.
Qed.

Lemma includes_false rs r : r ∉ rs -> includes rs r = false.
Proof.
  unfold includes. induction rs as [|x rs IH]; [reflexivity |].
  intros Hnot. cbn [existsb]. rewrite IH by set_solver. rewrite orb_false_r.
  apply String.eqb_neq. set_solver.
Qed.

Lemma hasAdminAccount_false cfg :
  Forall (fun a => "admin" ∉ account_roles a) (g_accounts cfg) -> hasAdminAccount cfg = false.
Proof.
  unfold hasAdminAccount. induction 1 as [|a accs Ha _ IH]; [reflexivity |].
  cbn [existsb]. now rewrite IH, orb_false_r, includes_false.
Qed.

End GenesisFacts.

(** C9 (as the code has it). Bootstrap rejects, without writing to the
    store, every configuration that has no role named [admin], and every
    configuration in which no account holds the role [admin]. *)
Theorem bootstrap_requires_admin
    (hashHeader : BlockHeader -> string) (signBlock : Block -> result Signature)
    (commit_ok : bool) (now : Z) (cfg : GenesisBootstrap.GenesisConfig) (st : State.store) :
  Forall (fun r => role_id r <> "admin") (GenesisBootstrap.g_roles cfg) \/
  Forall (fun a => "admin" ∉ account_roles a) (GenesisBootstrap.g_accounts cfg) ->
  exists e, GenesisBootstrap.bootstrap hashHeader signBlock commit_ok now cfg st = (Throw e, st).
Proof.
  intros H. unfold GenesisBootstrap.bootstrap.
  destruct (GenesisBootstrap.validateGenesisConfig cfg) as [[] | e] eqn:Hv; [| eauto].
  destruct (GenesisFacts.validateGenesisConfig_admin cfg Hv) as [Hrole Hacc].
  destruct H as [H | H].
  - rewrite (GenesisFacts.hasAdminRole_false cfg H) in Hrole. discriminate.
  - rewrite (GenesisFacts.hasAdminAccount_false cfg H) in Hacc. discriminate.
Qed.

Lemma bootstrap_requires_admin_witness :
  (Forall (fun r => role_id r <> "admin") (GenesisBootstrap.g_roles Sample.genesis_without_admin_role) \/
   Forall (fun a => "admin" ∉ account_roles a)
          (GenesisBootstrap.g_accounts Sample.genesis_without_admin_role)) /\
  exists e, GenesisBootstrap.bootstrap Sample.hashHeader Sample.signBlock true 5
              Sample.genesis_without_admin_role State.empty = (Throw e, State.empty).
Proof.
  assert (H : Forall (fun r => role_id r <> "admin")
                     (GenesisBootstrap.g_roles Sample.genesis_without_admin_role) \/
              Forall (fun a => "admin" ∉ account_roles a)
                     (GenesisBootstrap.g_accounts Sample.genesis_without_admin_role)).
  { left. repeat constructor. simpl. discriminate. }
  split; [exact H |].
  exact (bootstrap_requires_admin Sample.hashHeader Sample.signBlock true 5
           Sample.genesis_without_admin_role State.empty H).
Defined.

(** C9, the claim as stated, fails on a configuration whose [admin] role
    has no wildcard permission: validation passes, the batch is
    committed and the chain is bootstrapped. *)
Lemma bootstrap_accepts_admin_without_wildcard :
  GenesisBootstrap.hasWildcardAdminRole Sample.genesis_admin_without_wildcard = false /\
  GenesisBootstrap.validateGenesisConfig Sample.genesis_admin_without_wildcard = Ok tt /\
  is_ok (GenesisBootstrap.bootstrap Sample.hashHeader Sample.signBlock true 5
           Sample.genesis_admin_without_wildcard State.empty).1 = true /\
  GenesisBootstrap.isBootstrapped
    (GenesisBootstrap.bootstrap Sample.hashHeader Sample.signBlock true 5
       Sample.genesis_admin_without_wildcard State.empty).2 = true /\
  State.getRole "admin"
    (GenesisBootstrap.bootstrap Sample.hashHeader Sample.signBlock true 5
       Sample.genesis_admin_without_wildcard State.empty).2
    = Some (mkRole "admin" ["MintAsset"]).
Proof. repeat split; vm_compute; reflexivity. Qed.

(** ** Further properties of the code *)

Module SupplyFacts.
Import JS JSFacts State Amount InstructionEngine EngineFacts.

(** A mint that returns has read the current balance (zero when absent)
    and stored the sum. *)
Lemma handleMintAsset_ok a acct amt st st' :
  handleMintAsset a acct amt st = (Ok tt, st') ->
  exists asset amount current,
    getAsset a st = Some asset /\
    validateAmount amt (asset_precision asset) = Ok amount /\
    match balances st !! balanceKey a acct with
    | Some b => BigInt (balance_amount b) = Some current
    | None => current = 0
    end /\
    st' = putBalance (mkBalance a acct (toString (current + amount))) st.
Proof.
  unfold handleMintAsset, bigint, bind, read, lift, throw, modify, ret.
  destruct (getAsset a st) as [asset |] eqn:Hasset; [| discriminate].
  destruct (getAccount acct st) as [acc |]; [| discriminate].
  destruct (validateAmount amt (asset_precision asset)) as [amount | e] eqn:Hamt;
    [| discriminate].
  change (getBalance a acct st) with (balances st !! balanceKey a acct).
  destruct (balances st !! balanceKey a acct) as [b |] eqn:Hb.
  - destruct (BigInt (balance_amount b)) as [current |] eqn:Hcur; [| discriminate].
    intros [= <-]. exists asset, amount, current. repeat split; auto.
  - intros [= <-]. exists asset, amount, 0. repeat split; auto.
Qed.

(** A burn that returns has found a stored balance that covers the
    amount and written the difference through [debit]. *)
Lemma handleBurnAsset_ok a acct amt st st' :
  handleBurnAsset a acct amt st = (Ok tt, st') ->
  exists asset amount b current,
    getAsset a st = Some asset /\
    validateAmount amt (asset_precision asset) = Ok amount /\
    balances st !! balanceKey a acct = Some b /\
    BigInt (balance_amount b) = Some current /\
    amount <= current /\
    st' = debit a acct (current - amount) st.
Proof.
  unfold handleBurnAsset, bigint, bind, read, lift, throw, modify, ret.
  destruct (getAsset a st) as [asset |] eqn:Hasset; [| discriminate].
  destruct (getAccount acct st) as [acc |]; [| discriminate].
  destruct (validateAmount amt (asset_precision asset)) as [amount | e] eqn:Hamt;
    [| discriminate].
  destruct (getBalance a acct st) as [b |] eqn:Hb; [| discriminate].
  destruct (BigInt (balance_amount b)) as [current |] eqn:Hcur; [| discriminate].
  destruct (Z.ltb_spec current amount) as [Hlt | Hge]; [discriminate |].
  unfold debit. destruct (current - amount =? 0) eqn:Hz; intros [= <-];
    exists asset, amount, b, current; rewrite Hz; repeat split; auto.
Qed.

End SupplyFacts.

(** A MintAsset that succeeds raises the sum of the stored balances of
    the minted asset by the converted amount and leaves the sums of the
    other assets as they were, when the balance found under the key of
    the mint, if there is one, is a balance of the minted asset. *)
Theorem mint_increases_total_supply
    (now : Z) (asset account amount signer : string) (st st' : State.store) :
  InstructionEngine.of_asset asset account st ->
  InstructionEngine.execute now (MintAsset asset account amount) signer st = (Ok tt, st') ->
  exists a amt,
    State.getAsset asset st = Some a /\
    Amount.validateAmount amount (asset_precision a) = Ok amt /\
    InstructionEngine.total_supply asset st' = InstructionEngine.total_supply asset st + amt /\
    forall x, x <> asset -> InstructionEngine.total_supply x st' = InstructionEngine.total_supply x st.
Proof.
  cbn [InstructionEngine.execute]. intros Hkey H.
  destruct (SupplyFacts.handleMintAsset_ok _ _ _ _ _ H)
    as (a & amt & current & Ha & Hamt & Hcur & ->).
  unfold InstructionEngine.of_asset in Hkey.
  change (State.getBalance asset account st)
    with (State.balances st !! State.balanceKey asset account) in Hkey.
  exists a, amt. split; [exact Ha |]. split; [exact Hamt |].
  assert (Hall : forall x, InstructionEngine.total_supply x
                   (State.putBalance (mkBalance asset account (JS.toString (current + amt))) st)
                 = InstructionEngine.total_supply x st + (if decide (asset = x) then amt else 0)).
  { intros x. rewrite !EngineFacts.total_supply_unfold, EngineFacts.balances_putBalance.
    cbn [balance_asset_id balance_account_id].
    rewrite EngineFacts.total_of_insert, EngineFacts.held_toString.
    destruct (State.balances st !! State.balanceKey asset account) as [b |];
      cbn [InstructionEngine.held].
    - rewrite Hkey, (EngineFacts.amount_of_BigInt _ _ Hcur).
      destruct (decide (asset = x)); lia.
    - subst current. destruct (decide (asset = x)); lia. }
  split.
  - rewrite Hall. destruct (decide (asset = asset)); [lia | congruence].
  - intros x Hx. rewrite Hall. destruct (decide (asset = x)); [congruence | lia].
Qed.

Lemma mint_increases_total_supply_witness :
  InstructionEngine.of_asset Sample.usd Sample.charlie Sample.store0 /\
  InstructionEngine.execute 0 (MintAsset Sample.usd Sample.charlie "5") Sample.treasury Sample.store0
    = (Ok tt, (InstructionEngine.execute 0 (MintAsset Sample.usd Sample.charlie "5")
                              Sample.treasury Sample.store0).2) /\
  exists a amt,
    State.getAsset Sample.usd Sample.store0 = Some a /\
    Amount.validateAmount "5" (asset_precision a) = Ok amt /\
    InstructionEngine.total_supply Sample.usd
      (InstructionEngine.execute 0 (MintAsset Sample.usd Sample.charlie "5")
                      Sample.treasury Sample.store0).2
    = InstructionEngine.total_supply Sample.usd Sample.store0 + amt /\
    forall x, x <> Sample.usd ->
      InstructionEngine.total_supply x
        (InstructionEngine.execute 0 (MintAsset Sample.usd Sample.charlie "5")
                        Sample.treasury Sample.store0).2
      = InstructionEngine.total_supply x Sample.store0.
Proof.
  assert (H : InstructionEngine.execute 0 (MintAsset Sample.usd Sample.charlie "5")
                             Sample.treasury Sample.store0
              = (Ok tt, (InstructionEngine.execute 0 (MintAsset Sample.usd Sample.charlie "5")
                                        Sample.treasury Sample.store0).2))
    by (vm_compute; reflexivity).
  assert (Hk : InstructionEngine.of_asset Sample.usd Sample.charlie Sample.store0)
    by (vm_compute; exact I).
  split; [exact Hk |]. split; [exact H |].
  exact (mint_increases_total_supply 0 Sample.usd Sample.charlie "5" Sample.treasury
           Sample.store0 _ Hk H).
Defined.

(** A BurnAsset that succeeds lowers the sum of the stored balances of
    the burnt asset by the converted amount, when the balance found
    under the key of the burn is a balance of the burnt asset; and it
    never leaves a zero amount under the key it wrote: a balance burnt
    down to zero is removed. *)
Theorem burn_decreases_total_supply
    (now : Z) (asset account amount signer : string) (st st' : State.store) :
  InstructionEngine.of_asset asset account st ->
  InstructionEngine.execute now (BurnAsset asset account amount) signer st = (Ok tt, st') ->
  exists a amt,
    State.getAsset asset st = Some a /\
    Amount.validateAmount amount (asset_precision a) = Ok amt /\
    InstructionEngine.total_supply asset st' = InstructionEngine.total_supply asset st - amt /\
    InstructionEngine.balance_value asset account st' <> Some 0.
Proof.
  cbn [InstructionEngine.execute]. intros Hkey H.
  destruct (SupplyFacts.handleBurnAsset_ok _ _ _ _ _ H)
    as (a & amt & b & current & Ha & Hamt & Hb & Hcur & Hle & ->).
  unfold InstructionEngine.of_asset in Hkey.
  change (State.getBalance asset account st)
    with (State.balances st !! State.balanceKey asset account) in Hkey.
  rewrite Hb in Hkey.
  exists a, amt. split; [exact Ha |]. split; [exact Hamt |]. split.
  - rewrite !EngineFacts.total_supply_unfold.
    rewrite (EngineFacts.total_of_debit asset _ _ _ _ b current Hb Hkey Hcur).
    destruct (decide (asset = asset)); [lia | congruence].
  - unfold InstructionEngine.balance_value, State.getBalance. cbn [State.get].
    rewrite EngineFacts.balances_debit.
    destruct (Z.eqb_spec (current - amt) 0) as [Hz | Hnz].
    + now rewrite lookup_delete_eq.
    + rewrite lookup_insert_eq. cbn [balance_amount].
      rewrite JSFacts.BigInt_toString. congruence.
Qed.

Lemma burn_decreases_total_supply_witness :
  InstructionEngine.of_asset Sample.usd Sample.bob Sample.store0 /\
  InstructionEngine.execute 0 (BurnAsset Sample.usd Sample.bob "500") Sample.treasury Sample.store0
    = (Ok tt, (InstructionEngine.execute 0 (BurnAsset Sample.usd Sample.bob "500")
                              Sample.treasury Sample.store0).2) /\
  State.getBalance Sample.usd Sample.bob
    (InstructionEngine.execute 0 (BurnAsset Sample.usd Sample.bob "500")
                    Sample.treasury Sample.store0).2 = None /\
  exists a amt,
    State.getAsset Sample.usd Sample.store0 = Some a /\
    Amount.validateAmount "500" (asset_precision a) = Ok amt /\
    InstructionEngine.total_supply Sample.usd
      (InstructionEngine.execute 0 (BurnAsset Sample.usd Sample.bob "500")
                      Sample.treasury Sample.store0).2
    = InstructionEngine.total_supply Sample.usd Sample.store0 - amt /\
    InstructionEngine.balance_value Sample.usd Sample.bob
      (InstructionEngine.execute 0 (BurnAsset Sample.usd Sample.bob "500")
                      Sample.treasury Sample.store0).2 <> Some 0.
Proof.
  assert (H : InstructionEngine.execute 0 (BurnAsset Sample.usd Sample.bob "500")
                             Sample.treasury Sample.store0
              = (Ok tt, (InstructionEngine.execute 0 (BurnAsset Sample.usd Sample.bob "500")
                                        Sample.treasury Sample.store0).2))
    by (vm_compute; reflexivity).
  assert (Hk : InstructionEngine.of_asset Sample.usd Sample.bob Sample.store0)
    by (vm_compute; reflexivity).
  split; [exact Hk |]. split; [exact H |]. split; [vm_compute; reflexivity |].
  exact (burn_decreases_total_supply 0 Sample.usd Sample.bob "500" Sample.treasury
           Sample.store0 _ Hk H).
Defined.

(** The nonce check, as [validateNonce] performs it: it passes exactly
    when the nonce is strictly greater than the nonce recorded for the
    signer, a signer without a record counting as 0; any other nonce is
    rejected with the code INVALID_NONCE; [updateLastNonce] is what
    records a nonce. *)
Theorem validateNonce_passes_iff (lastNonces : gmap string Z) (body : TransactionBody) :
  (TransactionValidator.validateNonce lastNonces body = None <->
   TransactionValidator.lastNonce lastNonces (body_signer_id body) < body_nonce body) /\
  (forall e, TransactionValidator.validateNonce lastNonces body = Some e ->
             TransactionValidator.code e = "INVALID_NONCE") /\
  TransactionValidator.lastNonce ∅ (body_signer_id body) = 0 /\
  (forall n, TransactionValidator.lastNonce
               (TransactionValidator.updateLastNonce (body_signer_id body) n lastNonces)
               (body_signer_id body) = n).
Proof.
  unfold TransactionValidator.validateNonce.
  destruct (Z.leb_spec (body_nonce body)
              (TransactionValidator.lastNonce lastNonces (body_signer_id body))) as [Hle | Hgt].
  - repeat split; try (intros; discriminate); try lia.
    + now intros e [= <-].
    + intros n. unfold TransactionValidator.lastNonce, TransactionValidator.updateLastNonce.
      now rewrite lookup_insert_eq.
  - repeat split; try (intros; discriminate); try lia; try reflexivity.
    intros n. unfold TransactionValidator.lastNonce, TransactionValidator.updateLastNonce.
    now rewrite lookup_insert_eq.
Qed.

(** With [blockHash] undefined, [hasQuorum] counts every recorded vote,
    whatever it votes for: the nil-quorum test of the quorum checks is
    "at least Q votes of any kind". *)
Theorem hasQuorum_undefined_counts_every_vote
    (validators : gmap string Validator) (votes : gmap string BFTConsensus.Vote) :
  BFTConsensus.countVotes votes None = Z.of_nat (size votes) /\
  BFTConsensus.hasQuorum validators votes None
    = (BFTConsensus.getQuorumSize validators <=? Z.of_nat (size votes)).
Proof.
  assert (H : BFTConsensus.countVotes votes None = Z.of_nat (size votes)).
  { unfold BFTConsensus.countVotes.
    induction votes as [|k v m Hk Hfold IH] using map_first_key_ind.
    - now rewrite map_fold_empty, map_size_empty.
    - rewrite map_fold_insert_first_key by assumption.
      rewrite IH, map_size_insert_None by assumption. lia. }
  split; [exact H |]. unfold BFTConsensus.hasQuorum. now rewrite H.
Qed.

(** Genesis bootstrap is all-or-nothing: when it fails, whether in
    validation, in signing or in the batch write, the store is left
    exactly as it was. *)
Theorem bootstrap_failure_leaves_store
    (hashHeader : BlockHeader -> string) (signBlock : Block -> result Signature)
    (commit_ok : bool) (now : Z) (cfg : GenesisBootstrap.GenesisConfig) (st : State.store) :
  match GenesisBootstrap.bootstrap hashHeader signBlock commit_ok now cfg st with
  | (Throw _, st') => st' = st
  | (Ok blk, st') =>
      commit_ok = true /\ GenesisBootstrap.validateGenesisConfig cfg = Ok tt /\
      State.getLastHeight st' = 1 /\ State.getBlock 1 st' = Some blk
  end.
Proof.
  unfold GenesisBootstrap.bootstrap.
  destruct (GenesisBootstrap.validateGenesisConfig cfg) as [[] | e]; [| reflexivity].
  unfold GenesisBootstrap.createGenesisBlock, GenesisBootstrap.then_.
  destruct (signBlock _) as [sg | e]; [| reflexivity].
  unfold State.batch. destruct commit_ok; [| reflexivity].
  repeat split.
  - unfold GenesisBootstrap.genesisOps, State.apply_ops. rewrite !fold_left_app. reflexivity.
  - unfold GenesisBootstrap.genesisOps, State.apply_ops. rewrite !fold_left_app.
    cbn [fold_left State.apply_op State.put State.write State.upd header_height
         block_header State.getBlock State.get State.blocks].
    apply lookup_insert_eq.
Qed.

(** ** Canonical JSON *)

Module CanonFacts.
Import JS Canon.

Lemma omap_pointwise {A B} (f g : A -> option B) (l : list A) :
  (forall x, x ∈ l -> f x = g x) -> omap f l = omap g l.
Proof.
  induction l as [|x l IH]; intros H; [reflexivity |].
  cbn [omap list_omap]. rewrite (H x) by left.
  rewrite IH by (intros y Hy; apply H; now right). reflexivity.
Qed.

(** The members printed for an object under a property list: one for
    each listed key that the object owns with a defined value. *)
Lemma ser_obj ks m :
  ser (Some ks) (JObj m) =
    Some ("{" +:+ join ","
            (omap (fun P => match lookup_member P m with
                            | Some x => match ser (Some ks) x with
                                        | Some s => Some (quote P +:+ ":" +:+ s)
                                        | None => None
                                        end
                            | None => None
                            end) ks) +:+ "}").
Proof.
  cbn [ser]. do 4 f_equal. apply omap_pointwise.
  intros P _. induction m as [|[k x] m IH]; [reflexivity |].
  cbn [lookup_member]. destruct (String.eqb k P); [reflexivity | exact IH].
Qed.

Lemma ser_arr K l :
  ser K (JArr l) =
    Some ("[" +:+ join "," (List.map (fun x => match ser K x with
                                               | Some s => s
                                               | None => "null"
                                               end) l) +:+ "]").
Proof. reflexivity. Qed.

Lemma ser_undefined K v : ser K v = None <-> v = JUndefined.
Proof. destruct v as [| |[]| | | |]; cbn [ser]; split; congruence. Qed.

Lemma lookup_member_elem_of P m x : lookup_member P m = Some x -> (P, x) ∈ m.
Proof.
  induction m as [|[k y] m IH]; [discriminate |].
  cbn [lookup_member]. destruct (String.eqb_spec k P) as [-> | _].
  - intros [= ->]. left.
  - intros H. right. auto.
Qed.

Lemma lookup_member_is_Some P m : is_Some (lookup_member P m) <-> P ∈ List.map fst m.
Proof.
  induction m as [|[k y] m IH]; cbn [lookup_member List.map fst].
  - split; [intros [? [=]] | intros H; inversion H].
  - destruct (String.eqb_spec k P) as [-> | Hne].
    + split; [intros _; left | eauto].
    + rewrite IH. split; [intros H; now right | intros H].
      inversion H; subst; [congruence | assumption].
Qed.

Lemma map_same {B} (f : json -> B) l1 l2 :
  Forall2 same l1 l2 ->
  Forall (fun a => forall b, same a b -> f a = f b) l1 ->
  List.map f l1 = List.map f l2.
Proof.
  induction 1 as [|x y l1 l2 Hxy _ IH]; intros Hf; [reflexivity |].
  apply Forall_cons in Hf as [Hx Hl]. cbn [List.map].
  now rewrite (Hx y Hxy), IH.
Qed.

(** Printing under a property list does not depend on the order in which
    the keys of the objects were created. *)
Lemma ser_same ks : forall a b, same a b -> ser (Some ks) a = ser (Some ks) b.
Proof.
  intros a. induction a as [| | b0 | n | s | l IH | m IH] using json_ind';
    intros a' Hab; inversion Hab; subst; try reflexivity.
  - rewrite !ser_arr. do 4 f_equal.
    apply map_same; [assumption |].
    eapply Forall_impl; [exact IH |]. intros x Hx y Hxy. cbv beta.
    now rewrite (Hx y Hxy).
  - rewrite !ser_obj. do 4 f_equal.
    apply omap_pointwise. intros P _.
    match goal with H : forall k, option_Forall2 same _ _ |- _ => specialize (H P) end.
    destruct (lookup_member P m) as [x |] eqn:Hx;
      match goal with H : option_Forall2 same _ _ |- _ => inversion H; subst end;
      [| reflexivity].
    apply lookup_member_elem_of in Hx.
    rewrite Forall_forall in IH. specialize (IH (P, x) Hx).
    cbn [snd] in IH. now erewrite IH by eassumption.
Qed.

Lemma sort_permutation (l1 l2 : list string) : l1 ≡ₚ l2 -> sort l1 = sort l2.
Proof.
  intros Hp. unfold sort. apply (Sorted_unique String.le).
  - apply Sorted_merge_sort; apply _.
  - apply Sorted_merge_sort; apply _.
  - now rewrite !merge_sort_Permutation.
Qed.

Lemma same_keys a b : same a b -> option_map sort (Object_keys a) = option_map sort (Object_keys b).
Proof.
  destruct 1 as [| | | | | l1 l2 Hl | m1 m2 Hn1 Hn2 Hm]; try reflexivity.
  - cbn [Object_keys]. now rewrite (Forall2_length _ _ _ Hl).
  - cbn [Object_keys option_map]. f_equal. apply sort_permutation.
    apply NoDup_Permutation; [assumption .. |].
    intros k. rewrite <- !lookup_member_is_Some.
    specialize (Hm k). inversion Hm; split; intros [? [=]]; eauto.
Qed.

Lemma ser_obj_plain m :
  ser None (JObj m) =
    Some ("{" +:+ join ","
            (omap (fun kv : string * json =>
                     match ser None kv.2 with
                     | Some s => Some (quote kv.1 +:+ ":" +:+ s)
                     | None => None
                     end) m) +:+ "}").
Proof.
  cbn [ser]. do 4 f_equal.
  induction m as [|[k x] m IH]; [reflexivity |].
  cbn [omap list_omap fst snd]. destruct (ser None x); now rewrite IH.
Qed.


Lemma emitted_undefined ks v : emitted ks v = JUndefined <-> v = JUndefined.
Proof. destruct v; cbn [emitted]; split; congruence. Qed.











End CanonFacts.

(** Two observably equal values, whose objects differ at most in the
    order of their keys, are serialised to the same text. *)
Theorem canonicalJsonStringify_order_independent (a b : Canon.json) :
  Canon.same a b -> Canon.canonicalJsonStringify a = Canon.canonicalJsonStringify b.
Proof.
  intros Hab. unfold Canon.canonicalJsonStringify, Canon.JSON_stringify.
  pose proof (CanonFacts.same_keys a b Hab) as Hk.
  destruct (Canon.Object_keys a) as [ka |], (Canon.Object_keys b) as [kb |];
    try discriminate; [| reflexivity].
  injection Hk as ->. cbn [option_map].
  now rewrite (CanonFacts.ser_same _ a b Hab).
Qed.

Lemma canonicalJsonStringify_order_independent_witness :
  Canon.same Sample.keys_ab Sample.keys_ba /\
  Canon.canonicalJsonStringify Sample.keys_ab = Canon.canonicalJsonStringify Sample.keys_ba.
Proof.
  assert (H : Canon.same Sample.keys_ab Sample.keys_ba).
  { apply Canon.same_obj.
    - apply (bool_decide_unpack _). vm_compute. exact I.
    - apply (bool_decide_unpack _). vm_compute. exact I.
    - intros k. cbn [Canon.lookup_member].
      destruct (String.eqb_spec "a" k) as [Ha | Ha];
        destruct (String.eqb_spec "b" k) as [Hb | Hb];
        try congruence; repeat constructor. }
  split; [exact H |].
  exact (canonicalJsonStringify_order_independent Sample.keys_ab Sample.keys_ba H).
Defined.



(** The instruction engine writes ledger families only: whatever an
    instruction does, and whether it returns or raises, block records,
    transaction records, the chain id, the height and the validators
    stay as they were. *)
Theorem execute_writes_ledger_only
    (now : Z) (i : Instruction) (signer : string) (st : State.store) :
  State.chain_records (InstructionEngine.execute now i signer st).2 = State.chain_records st.
Proof. apply BlockFacts.execute_chain_records. Qed.



(** ** Invariants of the ledger under the block applier *)

Module LedgerFacts.
Import JS JSFacts State Amount InstructionEngine EngineFacts SupplyFacts.

Lemma validateAmount_nonneg amt p z : validateAmount amt p = Ok z -> 0 <= z.
Proof.
  intros H. destruct (amount_re amt) eqn:Hre.
  - destruct (AmountFacts.amount_re_shape amt Hre) as (w & f & Hw & _ & Hf & Hamt).
    rewrite (AmountFacts.validateAmount_parts w f p amt Hw Hf Hamt Hre) in H.
    destruct (Z.of_nat (String.length f) >? p); [discriminate |].
    injection H as <-. apply digits_value_nonneg.
    now rewrite !all_digits_app, Hw, Hf, all_digits_repeat_zero.
  - unfold validateAmount in H. rewrite Hre in H. discriminate.
Qed.

Lemma readable_toString a acct z :
  0 <= z -> readable (balanceKey a acct) (mkBalance a acct (toString z)) = true.
Proof.
  intros Hz. unfold readable. cbn [balance_amount balance_asset_id balance_account_id].
  rewrite BigInt_toString, String.eqb_refl, andb_true_r. now apply Z.leb_le.
Qed.

Lemma readable_put a acct z st :
  0 <= z -> balances_readable st ->
  balances_readable (putBalance (mkBalance a acct (toString z)) st).
Proof.
  intros Hz H. unfold balances_readable. rewrite balances_putBalance.
  apply map_Forall_insert_2; [now apply readable_toString | exact H].
Qed.

Lemma readable_del a acct st :
  balances_readable st -> balances_readable (del (KBalance a acct) st).
Proof.
  intros H. unfold balances_readable, del. cbn [write balances upd].
  now apply map_Forall_delete.
Qed.

Lemma readable_debit a acct z st :
  0 <= z -> balances_readable st -> balances_readable (debit a acct z st).
Proof.
  intros Hz H. unfold debit. destruct (z =? 0); [now apply readable_del | now apply readable_put].
Qed.

Lemma readable_lookup st k b :
  balances_readable st -> balances st !! k = Some b ->
  exists z, BigInt (balance_amount b) = Some z /\ 0 <= z.
Proof.
  intros H Hk. specialize (H k b Hk). unfold readable in H.
  destruct (BigInt (balance_amount b)) as [z |]; [| discriminate].
  exists z. split; [reflexivity |].
  apply andb_true_iff in H as [H _]. now apply Z.leb_le.
Qed.

(** Writes outside the balances leave the balances as they were. *)
Lemma balances_frame now i signer st :
  issues i = false -> (forall a s d m, i <> TransferAsset a s d m) ->
  balances (execute now i signer st).2 = balances st.
Proof.
  intros Hi Ht.
  destruct i; try discriminate; try (exfalso; eapply Ht; reflexivity);
    cbn [execute]; run_engine.
Qed.

(** Every failure of a handler other than the transfer precedes its
    writes. *)
Lemma execute_throw_early now i signer st e st' :
  (forall a s d m, i <> TransferAsset a s d m) ->
  execute now i signer st = (Throw e, st') -> st' = st.
Proof.
  intros Ht.
  destruct i; try (exfalso; eapply Ht; reflexivity); cbn [execute];
    unfold handleRegisterDomain, handleRegisterAccount, handleRegisterAsset,
      handleMintAsset, handleBurnAsset, handleGrantRole, handleRevokeRole,
      bigint, bind, read, lift, throw, modify, ret;
    repeat (cbv beta iota; case_match); intros; simplify_eq; reflexivity.
Qed.

(** The transfer fails after its debit only when the destination amount
    does not read as an integer. *)
Lemma handleTransferAsset_throw a src dst amt st e st' :
  balances_readable st ->
  handleTransferAsset a src dst amt st = (Throw e, st') -> st' = st.
Proof.
  intros Hinv.
  unfold handleTransferAsset, bigint, bind, read, lift, throw, modify, ret.
  repeat (cbv beta iota; case_match); intros; simplify_eq; try reflexivity; exfalso.
  all: match goal with
       | Hd : getBalance _ _ ?s1 = Some ?d, Hn : BigInt (balance_amount ?d) = None |- _ =>
           assert (Hr : balances_readable s1);
           [| destruct (readable_lookup s1 _ d Hr Hd) as (z & Hz & _); congruence]
       end.
  - now apply readable_del.
  - apply readable_put; [| exact Hinv].
    match goal with H : (_ <? _) = false |- _ => apply Z.ltb_ge in H end. lia.
Qed.

Lemma execute_throw now i signer st e st' :
  balances_readable st -> execute now i signer st = (Throw e, st') -> st' = st.
Proof.
  intros Hinv H. destruct i;
    try (eapply execute_throw_early; [| exact H]; intros; discriminate).
  cbn [execute] in H. eapply handleTransferAsset_throw; eauto.
Qed.

Lemma execute_readable now i signer st :
  balances_readable st -> balances_readable (execute now i signer st).2.
Proof.
  intros Hinv.
  assert (Hframe : issues i = false -> (forall a s d m, i <> TransferAsset a s d m) ->
                   balances_readable (execute now i signer st).2).
  { intros H1 H2. unfold balances_readable. now rewrite balances_frame. }
  destruct i; try (apply Hframe; [reflexivity | intros; discriminate]); clear Hframe.
  - (* mint *)
    destruct (execute now (MintAsset asset account amount) signer st) as [[[] | e] st'] eqn:H;
      cbn [snd]; [| now rewrite (execute_throw _ _ _ _ _ _ Hinv H)].
    cbn [execute] in H.
    destruct (handleMintAsset_ok _ _ _ _ _ H) as (a & amt & cur & _ & Hamt & Hcur & ->).
    apply readable_put; [| exact Hinv].
    pose proof (validateAmount_nonneg _ _ _ Hamt).
    destruct (balances st !! balanceKey asset account) as [b |] eqn:Hb; [| lia].
    destruct (readable_lookup st _ b Hinv Hb) as (z & Hz & Hpos). simplify_eq. lia.
  - (* burn *)
    destruct (execute now (BurnAsset asset account amount) signer st) as [[[] | e] st'] eqn:H;
      cbn [snd]; [| now rewrite (execute_throw _ _ _ _ _ _ Hinv H)].
    cbn [execute] in H.
    destruct (handleBurnAsset_ok _ _ _ _ _ H) as (a & amt & b & cur & _ & Hamt & Hb & Hcur & Hle & ->).
    apply readable_debit; [lia | exact Hinv].
  - (* transfer *)
    destruct (execute now (TransferAsset asset src_account dest_account amount) signer st)
      as [[[] | e] st'] eqn:H;
      cbn [snd]; [| now rewrite (execute_throw _ _ _ _ _ _ Hinv H)].
    cbn [execute] in H.
    destruct (handleTransferAsset_ok _ _ _ _ _ _ H)
      as (a & amt & b & srcAmount & destAmount & _ & _ & _ & Hamt & Hb & Hsb & Hle & Hd & ->).
    cbv zeta in Hd.
    pose proof (validateAmount_nonneg _ _ _ Hamt).
    assert (Hr : balances_readable (debit asset src_account (srcAmount - amt) st))
      by (apply readable_debit; [lia | exact Hinv]).
    apply readable_put; [| exact Hr].
    destruct (balances (debit asset src_account (srcAmount - amt) st)
                !! balanceKey asset dest_account) as [d |] eqn:Hdd; [| lia].
    destruct (readable_lookup _ _ d Hr Hdd) as (z & Hz & Hpos). simplify_eq. lia.
Qed.

Lemma execute_supply now i signer st st' :
  balances_readable st ->
  issues i = false -> plain_transfer i = true ->
  execute now i signer st = (Ok tt, st') ->
  forall x, total_supply x st' = total_supply x st.
Proof.
  intros Hinv Hi Hplain H x.
  assert (Hframe : (forall a s d m, i <> TransferAsset a s d m) ->
                   total_supply x st' = total_supply x st).
  { intros Ht. rewrite !total_supply_unfold.
    pose proof (balances_frame now i signer st Hi Ht) as Hb. rewrite H in Hb.
    cbn [snd] in Hb. now rewrite Hb. }
  destruct i; try discriminate; try (apply Hframe; intros; discriminate); clear Hframe.
  cbn [plain_transfer] in Hplain.
  apply andb_true_iff in Hplain as [Hplain Hpd].
  apply andb_true_iff in Hplain as [Hpa Hps].
  pose proof (readable_of_asset asset src_account st Hinv Hpa Hps) as Hsrc.
  pose proof (readable_of_asset asset dest_account st Hinv Hpa Hpd) as Hdst.
  cbn [execute] in H.
  destruct (handleTransferAsset_ok _ _ _ _ _ _ H)
    as (a & amt & b & srcAmount & destAmount & _ & _ & _ & _ & Hb & Hsb & Hle & Hd & ->).
  cbv zeta in Hd.
  assert (Ha : balance_asset_id b = asset).
  { unfold of_asset in Hsrc.
    change (getBalance asset src_account st)
      with (balances st !! balanceKey asset src_account) in Hsrc.
    now rewrite Hb in Hsrc. }
  rewrite !total_supply_unfold, balances_putBalance.
  cbn [balance_asset_id balance_account_id].
  rewrite total_of_insert.
  rewrite (held_after_debit x _ _ _ _ _ destAmount (of_asset_debit _ _ _ _ _ Hdst) Hd).
  rewrite held_toString.
  rewrite (total_of_debit x _ _ _ _ b srcAmount Hb Ha Hsb).
  destruct (decide (asset = x)); lia.
Qed.

End LedgerFacts.

Module ApplyFacts.
Import JS JSFacts State Amount InstructionEngine EngineFacts SupplyFacts.
Import BlockProducer BlockFacts LedgerFacts.

(** What [execute] preserves, whatever its outcome, the loops over the
    instructions and over the transactions preserve. *)
Lemma execute_all_preserves (P : store -> Prop) now signer :
  (forall i st, P st -> P (execute now i signer st).2) ->
  forall instrs st, P st -> P (execute_all now instrs signer st).2.
Proof.
  intros Hstep. induction instrs as [|i instrs IH]; intros st HP; [exact HP |].
  cbn [execute_all]. unfold bind.
  pose proof (Hstep i st HP) as Hi.
  destruct (execute now i signer st) as [[u | e] st1]; cbn [snd] in *; [now apply IH | exact Hi].
Qed.

Lemma executeTransactions_preserves (P : store -> Prop) now :
  (forall i signer st, P st -> P (execute now i signer st).2) ->
  forall l st, P st -> P (executeTransactions now l st).2.
Proof.
  intros Hstep. induction l as [|tx l IH]; intros st HP; [exact HP |].
  cbn [executeTransactions]. unfold bind.
  pose proof (execute_all_preserves P now (body_signer_id (tx_body tx))
                (fun i st => Hstep i _ st) (body_instructions (tx_body tx)) st HP) as Hi.
  destruct (execute_all now _ _ st) as [[u | e] st1]; cbn [snd] in *; [now apply IH | exact Hi].
Qed.

(** The ledger that [applyBlock] leaves is the ledger that its engine
    calls left, whether the apply returns or raises. *)
Lemma applyBlock_store_ledger hash commit_ok now blk st :
  ledger (applyBlock_store hash commit_ok now blk st).2
    = ledger (executeTransactions now (block_transactions blk) st).2.
Proof.
  unfold applyBlock_store, bind, lift.
  destruct (calculateBlockHash_ok hash blk) as [h ->].
  set (ops := ([OpPut (KBlock (header_height (block_header blk))) blk] ++
               [OpPut (KBlockByHash h) (header_height (block_header blk))])%list).
  pose proof (processTransactions_run hash now (block_transactions blk) ops st) as Hrun.
  destruct (executeTransactions now (block_transactions blk) st) as [[[] | e] st1] eqn:Hexec.
  - destruct (processTransactions_ok hash now (block_transactions blk) ops st st1 Hexec)
      as (recs & Hrecs & ->).
    unfold batch. destruct commit_ok; [| reflexivity]. cbn [snd].
    unfold apply_ops, ops. rewrite !fold_left_app. cbn [fold_left apply_op].
    set (S0 := put (KBlockByHash h) (header_height (block_header blk))
                 (put (KBlock (header_height (block_header blk))) blk st1)).
    destruct (apply_tx_records recs S0 Hrecs) as (H1 & _).
    unfold apply_ops in H1.
    change (ledger (fold_left apply_op recs S0) = ledger st1). now rewrite H1.
  - now rewrite Hrun.
Qed.

Lemma applyBlock_ledger hash commit_ok now blk st mp :
  ledger (applyBlock hash commit_ok now blk st mp).1.2
    = ledger (executeTransactions now (block_transactions blk) st).2.
Proof.
  unfold applyBlock. rewrite <- applyBlock_store_ledger with (hash := hash) (commit_ok := commit_ok).
  now destruct (applyBlock_store hash commit_ok now blk st) as [[] ?].
Qed.

Lemma ledger_balances st st' : ledger st = ledger st' -> balances st = balances st'.
Proof. intros H. exact (f_equal (fun l => l.1.2) H). Qed.

Lemma applyBlock_ok_executes hash commit_ok now blk st mp st' mp' :
  applyBlock hash commit_ok now blk st mp = (Ok tt, st', mp') ->
  exists st1, executeTransactions now (block_transactions blk) st = (Ok tt, st1).
Proof.
  unfold applyBlock. intros H.
  destruct (executeTransactions now (block_transactions blk) st) as [[[] | e] st1] eqn:Hexec;
    [eauto |].
  rewrite (applyBlock_store_fails hash commit_ok now blk st e st1 Hexec) in H. discriminate.
Qed.

Lemma execute_all_supply now signer : forall instrs st st',
  balances_readable st ->
  Forall (fun i => issues i = false /\ plain_transfer i = true) instrs ->
  execute_all now instrs signer st = (Ok tt, st') ->
  balances_readable st' /\ forall x, total_supply x st' = total_supply x st.
Proof.
  induction instrs as [|i instrs IH]; intros st st' Hinv Hall H.
  - injection H as <-. now split.
  - apply Forall_cons in Hall as [[Hi Hp] Hall].
    cbn [execute_all] in H. unfold bind in H.
    destruct (execute now i signer st) as [[[] | e] st1] eqn:Hexec; [| discriminate].
    assert (Hinv1 : balances_readable st1).
    { pose proof (execute_readable now i signer st Hinv) as Hr. now rewrite Hexec in Hr. }
    destruct (IH st1 st' Hinv1 Hall H) as [Hinv' Hsum]. split; [exact Hinv' |].
    intros x. rewrite (Hsum x).
    exact (execute_supply now i signer st st1 Hinv Hi Hp Hexec x).
Qed.

Lemma executeTransactions_supply now : forall l st st',
  balances_readable st ->
  Forall (fun tx => Forall (fun i => issues i = false /\ plain_transfer i = true)
                           (body_instructions (tx_body tx))) l ->
  executeTransactions now l st = (Ok tt, st') ->
  forall x, total_supply x st' = total_supply x st.
Proof.
  induction l as [|tx l IH]; intros st st' Hinv Hall H x.
  - now injection H as <-.
  - apply Forall_cons in Hall as [Htx Hall].
    cbn [executeTransactions] in H. unfold bind in H.
    destruct (execute_all now _ _ st) as [[[] | e] st1] eqn:Hexec; [| discriminate].
    destruct (execute_all_supply now _ _ st st1 Hinv Htx Hexec) as [Hinv1 Hsum].
    rewrite (IH st1 st' Hinv1 Hall H x). apply Hsum.
Qed.

(** A failed run of a transaction stops at one instruction. *)
Lemma execute_all_throw now signer : forall instrs st e st',
  execute_all now instrs signer st = (Throw e, st') ->
  exists pre i post st1,
    instrs = (pre ++ i :: post)%list /\
    execute_all now pre signer st = (Ok tt, st1) /\
    execute now i signer st1 = (Throw e, st').
Proof.
  induction instrs as [|i instrs IH]; intros st e st' H; [discriminate |].
  cbn [execute_all] in H. unfold bind in H.
  destruct (execute now i signer st) as [[[] | e1] st1] eqn:Hexec.
  - destruct (IH st1 e st' H) as (pre & j & post & st2 & -> & Hpre & Hj).
    exists (i :: pre), j, post, st2. repeat split; [| exact Hj].
    cbn [execute_all]. unfold bind. now rewrite Hexec.
  - injection H as <- <-. exists [], i, instrs, st. now repeat split.
Qed.

End ApplyFacts.

(** The block applier keeps every stored balance a non-negative
    integer under the key its fields name, whether it returns or raises. *)
Theorem applyBlock_keeps_balances_readable
    (hash : string -> string) (commit_ok : bool) (now : Z) (blk : Block)
    (st : State.store) (mp : BlockProducer.mempool) :
  InstructionEngine.balances_readable st ->
  InstructionEngine.balances_readable
    (BlockProducer.applyBlock hash commit_ok now blk st mp).1.2.
Proof.
  intros Hinv. unfold InstructionEngine.balances_readable.
  rewrite (ApplyFacts.ledger_balances _ _
             (ApplyFacts.applyBlock_ledger hash commit_ok now blk st mp)).
  apply (ApplyFacts.executeTransactions_preserves InstructionEngine.balances_readable now);
    [| exact Hinv].
  intros i signer s. apply LedgerFacts.execute_readable.
Qed.

(** When a transaction fails on a store whose balances are readable,
    the store is left exactly as the instructions before the failing
    one left it: the failing instruction has written nothing. *)
Theorem failed_transaction_keeps_prefix_writes
    (now : Z) (instrs : list Instruction) (signer : string)
    (st st' : State.store) (e : error) :
  InstructionEngine.balances_readable st ->
  InstructionEngine.execute_all now instrs signer st = (Throw e, st') ->
  exists pre i post,
    instrs = (pre ++ i :: post)%list /\
    InstructionEngine.execute_all now pre signer st = (Ok tt, st') /\
    InstructionEngine.execute now i signer st' = (Throw e, st').
Proof.
  intros Hinv H.
  destruct (ApplyFacts.execute_all_throw now signer instrs st e st' H)
    as (pre & i & post & st1 & -> & Hpre & Hi).
  assert (Hr : InstructionEngine.balances_readable st1).
  { pose proof (ApplyFacts.execute_all_preserves InstructionEngine.balances_readable now signer
                  (fun i s => LedgerFacts.execute_readable now i signer s) pre st Hinv) as Hp.
    now rewrite Hpre in Hp. }
  pose proof (LedgerFacts.execute_throw now i signer st1 e st' Hr Hi) as ->.
  exists pre, i, post. now repeat split.
Qed.

(** On a ledger whose balances are readable, a block without MintAsset
    and BurnAsset whose transfers name assets and accounts without [/],
    once applied, leaves the sum of the stored balances of every asset
    as it was. *)
Theorem applyBlock_without_issue_keeps_total_supply
    (hash : string -> string) (commit_ok : bool) (now : Z) (blk : Block)
    (st st' : State.store) (mp mp' : BlockProducer.mempool) :
  InstructionEngine.balances_readable st ->
  Forall (fun tx => Forall (fun i => InstructionEngine.issues i = false /\
                                     InstructionEngine.plain_transfer i = true)
                           (body_instructions (tx_body tx)))
         (block_transactions blk) ->
  BlockProducer.applyBlock hash commit_ok now blk st mp = (Ok tt, st', mp') ->
  forall x, InstructionEngine.total_supply x st' = InstructionEngine.total_supply x st.
Proof.
  intros Hinv Hall H x.
  destruct (ApplyFacts.applyBlock_ok_executes _ _ _ _ _ _ _ _ H) as [st1 Hexec].
  pose proof (ApplyFacts.applyBlock_ledger hash commit_ok now blk st mp) as Hl.
  rewrite H, Hexec in Hl. cbn [fst snd] in Hl.
  rewrite !EngineFacts.total_supply_unfold, (ApplyFacts.ledger_balances _ _ Hl).
  exact (ApplyFacts.executeTransactions_supply now _ st st1 Hinv Hall Hexec x).
Qed.

Lemma applyBlock_keeps_balances_readable_witness :
  InstructionEngine.balances_readable Sample.store0 /\
  InstructionEngine.balances_readable
    (BlockProducer.applyBlock Sample.hash true 0 Sample.mixed_block Sample.store0 []).1.2.
Proof.
  assert (H : InstructionEngine.balances_readable Sample.store0)
    by (apply (bool_decide_unpack _); vm_compute; exact I).
  split; [exact H |].
  exact (applyBlock_keeps_balances_readable Sample.hash true 0 Sample.mixed_block
           Sample.store0 [] H).
Defined.

Lemma failed_transaction_keeps_prefix_writes_witness :
  InstructionEngine.balances_readable Sample.store0 /\
  (InstructionEngine.execute_all 0 (body_instructions (tx_body Sample.failing_tx))
     Sample.alice Sample.store0).1 = Throw (DestinationAccountNotFound "nobody@root") /\
  exists pre i post,
    body_instructions (tx_body Sample.failing_tx) = (pre ++ i :: post)%list /\
    InstructionEngine.execute_all 0 pre Sample.alice Sample.store0
      = (Ok tt, (InstructionEngine.execute_all 0 (body_instructions (tx_body Sample.failing_tx))
                   Sample.alice Sample.store0).2) /\
    InstructionEngine.execute 0 i Sample.alice
      (InstructionEngine.execute_all 0 (body_instructions (tx_body Sample.failing_tx))
         Sample.alice Sample.store0).2
      = (Throw (DestinationAccountNotFound "nobody@root"),
         (InstructionEngine.execute_all 0 (body_instructions (tx_body Sample.failing_tx))
            Sample.alice Sample.store0).2).
Proof.
  assert (H : InstructionEngine.balances_readable Sample.store0)
    by (apply (bool_decide_unpack _); vm_compute; exact I).
  assert (H2 : InstructionEngine.execute_all 0 (body_instructions (tx_body Sample.failing_tx))
                 Sample.alice Sample.store0
               = (Throw (DestinationAccountNotFound "nobody@root"),
                  (InstructionEngine.execute_all 0 (body_instructions (tx_body Sample.failing_tx))
                     Sample.alice Sample.store0).2))
    by (vm_compute; reflexivity).
  split; [exact H |]. split; [vm_compute; reflexivity |].
  exact (failed_transaction_keeps_prefix_writes 0 _ Sample.alice Sample.store0 _ _ H H2).
Defined.

Lemma applyBlock_without_issue_keeps_total_supply_witness :
  InstructionEngine.balances_readable Sample.store0 /\
  Forall (fun tx => Forall (fun i => InstructionEngine.issues i = false /\
                                     InstructionEngine.plain_transfer i = true)
                           (body_instructions (tx_body tx)))
         (block_transactions Sample.transfer_block) /\
  BlockProducer.applyBlock Sample.hash true 0 Sample.transfer_block Sample.store0 []
    = (Ok tt, (BlockProducer.applyBlock Sample.hash true 0 Sample.transfer_block
                 Sample.store0 []).1.2, []) /\
  InstructionEngine.total_supply Sample.usd Sample.store0 = 150000 /\
  forall x,
    InstructionEngine.total_supply x
      (BlockProducer.applyBlock Sample.hash true 0 Sample.transfer_block Sample.store0 []).1.2
    = InstructionEngine.total_supply x Sample.store0.
Proof.
  assert (H0 : InstructionEngine.balances_readable Sample.store0)
    by (apply (bool_decide_unpack _); vm_compute; exact I).
  assert (H1 : Forall (fun tx => Forall (fun i => InstructionEngine.issues i = false /\
                                                  InstructionEngine.plain_transfer i = true)
                                        (body_instructions (tx_body tx)))
                      (block_transactions Sample.transfer_block))
    by (repeat constructor).
  assert (H2 : BlockProducer.applyBlock Sample.hash true 0 Sample.transfer_block Sample.store0 []
               = (Ok tt, (BlockProducer.applyBlock Sample.hash true 0 Sample.transfer_block
                            Sample.store0 []).1.2, []))
    by (vm_compute; reflexivity).
  split; [exact H0 |].
  split; [exact H1 |]. split; [exact H2 |]. split; [vm_compute; reflexivity |].
  exact (applyBlock_without_issue_keeps_total_supply Sample.hash true 0 Sample.transfer_block
           Sample.store0 _ [] [] H0 H1 H2).
Defined.

(** ** Accounts and roles *)

Module SplitFacts.
Import JS JSFacts.

Lemma split_nonempty sep s : split sep s <> [].
Proof.
  destruct s as [|c s]; [discriminate |]. simpl.
  destruct (Ascii.eqb c sep); [discriminate |].
  destruct (split sep s); discriminate.
Qed.

Lemma split_plain sep s : has_char sep s = false -> split sep s = [s].
Proof.
  induction s as [|c s IH]; [reflexivity |].
  simpl. intros [Hc Hs]%orb_false_iff. rewrite Hc, IH by exact Hs. reflexivity.
Qed.

Lemma split_app sep a r :
  has_char sep a = false -> split sep (a +:+ String sep r) = a :: split sep r.
Proof.
  induction a as [|c a IH].
  - intros _. rewrite append_nil_l. simpl. now rewrite Ascii.eqb_refl.
  - rewrite append_cons. simpl. intros [Hc Ha]%orb_false_iff.
    rewrite Hc, IH by exact Ha. reflexivity.
Qed.

(** The first part of a split: the text before the first separator. *)
Lemma split_head sep s :
  exists a, has_char sep a = false /\
    ((s = a /\ split sep s = [a]) \/
     (exists r, s = a +:+ String sep r /\ split sep s = a :: split sep r)).
Proof.
  induction s as [|c s (a & Ha & IH)].
  - exists EmptyString. split; [reflexivity |]. now left.
  - destruct (Ascii.eqb c sep) eqn:Hc.
    + exists EmptyString. split; [reflexivity |]. right. exists s.
      apply Ascii.eqb_eq in Hc as ->. rewrite append_nil_l. split; [reflexivity |].
      simpl. now rewrite Ascii.eqb_refl.
    + exists (String c a). split; [simpl; now rewrite Hc, Ha |].
      destruct IH as [[-> Hs] | (r & -> & Hs)].
      * left. split; [reflexivity |]. simpl. now rewrite Hc, Hs.
      * right. exists r. rewrite append_cons. split; [reflexivity |].
        simpl. now rewrite Hc, Hs.
Qed.

(** The shape [name<sep>domain] that the format checks accept: the
    first two parts of the split exist and are not empty. *)
Lemma first_two_parts sep s name domain :
  (split sep s !! 0%nat = Some name /\ split sep s !! 1%nat = Some domain) <->
  has_char sep name = false /\ has_char sep domain = false /\
  (s = name +:+ String sep domain \/
   exists r, s = name +:+ String sep (domain +:+ String sep r)).
Proof.
  split.
  - intros [H0 H1].
    destruct (split_head sep s) as (a & Ha & [[-> Hs] | (r & -> & Hs)]).
    + rewrite Hs in H1. discriminate.
    + rewrite Hs in H0, H1. cbn in H0, H1. injection H0 as ->.
      destruct (split_head sep r) as (b & Hb & [[-> Hr] | (r' & -> & Hr)]).
      * rewrite Hr in H1. cbn in H1. injection H1 as ->. repeat split; auto.
      * rewrite Hr in H1. cbn in H1. injection H1 as ->. repeat split; eauto.
  - intros (Hn & Hd & [-> | (r & ->)]).
    + rewrite split_app by exact Hn. rewrite split_plain by exact Hd. now split.
    + rewrite split_app by exact Hn. rewrite split_app by exact Hd. now split.
Qed.

End SplitFacts.

Module RoleFacts.
Import JS State InstructionEngine.

Lemma includes_app rs r x : includes (rs ++ [x])%list r = includes rs r || String.eqb r x.
Proof. unfold includes. rewrite existsb_app. cbn. now rewrite orb_false_r. Qed.

Lemma filter_not_included rs r :
  includes rs r = false -> List.filter (fun x => negb (String.eqb x r)) rs = rs.
Proof.
  unfold includes. induction rs as [|x rs IH]; [reflexivity |].
  cbn [existsb List.filter]. intros [Hx Hrs]%orb_false_iff.
  rewrite String.eqb_sym, Hx. cbn [negb]. now rewrite IH.
Qed.

Lemma putAccountRoles_twice acct rs rs' st :
  putAccountRoles acct rs (putAccountRoles acct rs' st) = putAccountRoles acct rs st.
Proof.
  unfold putAccountRoles, put. cbn [write upd account_roles_of domains accounts assets
    balances roles validators blocks blocks_by_hash txs chain_id last_height].
  now rewrite insert_insert_eq.
Qed.

Lemma putAccountRoles_same acct rs st :
  getAccountRoles acct st = Some rs -> putAccountRoles acct rs st = st.
Proof.
  unfold getAccountRoles, putAccountRoles, put. cbn [get write upd]. intros H.
  rewrite insert_id by exact H. now destruct st.
Qed.

End RoleFacts.

(** Granting a role and revoking it again: GrantRole leaves the
    account holding the role and changes nothing when it was held
    already; a RevokeRole that follows removes every occurrence of the
    role and, when the role was not held before the grant, restores the
    store exactly. *)
Theorem grantRole_then_revokeRole
    (now : Z) (r acct signer : string) (st : State.store) (rs : list string) :
  is_Some (State.getRole r st) -> is_Some (State.getAccount acct st) ->
  State.getAccountRoles acct st = Some rs ->
  exists st1 rs1,
    InstructionEngine.execute now (GrantRole r acct) signer st = (Ok tt, st1) /\
    State.getAccountRoles acct st1 = Some rs1 /\
    InstructionEngine.includes rs1 r = true /\
    (InstructionEngine.includes rs r = true -> st1 = st) /\
    exists st2,
      InstructionEngine.execute now (RevokeRole r acct) signer st1 = (Ok tt, st2) /\
      State.getAccountRoles acct st2
        = Some (List.filter (fun x => negb (String.eqb x r)) rs) /\
      (InstructionEngine.includes rs r = false -> st2 = st).
Proof.
  intros [role Hrole] [acc Hacc] Hrs.
  cbn [InstructionEngine.execute].
  unfold InstructionEngine.handleGrantRole, InstructionEngine.handleRevokeRole,
    InstructionEngine.bind, InstructionEngine.read, InstructionEngine.throw,
    InstructionEngine.modify, InstructionEngine.ret.
  rewrite Hrole, Hacc, Hrs.
  destruct (InstructionEngine.includes rs r) eqn:Hin.
  - exists st, rs. rewrite Hacc, Hrs, Hin.
    repeat split; try assumption; try discriminate.
    eexists. split; [reflexivity |]. split; [| discriminate].
    unfold State.getAccountRoles, State.putAccountRoles, State.put.
    cbn [State.get State.write State.upd State.account_roles_of].
    now rewrite lookup_insert_eq.
  - exists (State.putAccountRoles acct (rs ++ [r])%list st), (rs ++ [r])%list.
    assert (Hacc' : State.getAccount acct (State.putAccountRoles acct (rs ++ [r])%list st)
                    = Some acc) by exact Hacc.
    assert (Hrs' : State.getAccountRoles acct (State.putAccountRoles acct (rs ++ [r])%list st)
                   = Some (rs ++ [r])%list).
    { unfold State.getAccountRoles, State.putAccountRoles, State.put.
      cbn [State.get State.write State.upd State.account_roles_of].
      now rewrite lookup_insert_eq. }
    rewrite Hacc', Hrs'.
    assert (Hin' : InstructionEngine.includes (rs ++ [r])%list r = true)
      by (rewrite RoleFacts.includes_app, String.eqb_refl; apply orb_true_r).
    rewrite Hin'.
    assert (Hf : List.filter (fun x => negb (String.eqb x r)) (rs ++ [r])%list
                 = List.filter (fun x => negb (String.eqb x r)) rs).
    { rewrite List.filter_app. cbn [List.filter]. rewrite String.eqb_refl. cbn [negb].
      apply app_nil_r. }
    rewrite Hf.
    repeat split; try assumption; try discriminate.
    eexists. split; [reflexivity |]. split.
    + unfold State.getAccountRoles, State.putAccountRoles, State.put.
      cbn [State.get State.write State.upd State.account_roles_of].
      now rewrite lookup_insert_eq.
    + intros _. rewrite RoleFacts.putAccountRoles_twice.
      rewrite (RoleFacts.filter_not_included rs r Hin).
      now apply RoleFacts.putAccountRoles_same.
Qed.

Lemma grantRole_then_revokeRole_witness :
  is_Some (State.getRole "issuer" Sample.store0) /\
  is_Some (State.getAccount Sample.alice Sample.store0) /\
  State.getAccountRoles Sample.alice Sample.store0 = Some ["user"] /\
  exists st1 rs1,
    InstructionEngine.execute 0 (GrantRole "issuer" Sample.alice) Sample.alice Sample.store0
      = (Ok tt, st1) /\
    State.getAccountRoles Sample.alice st1 = Some rs1 /\
    InstructionEngine.includes rs1 "issuer" = true /\
    (InstructionEngine.includes ["user"] "issuer" = true -> st1 = Sample.store0) /\
    exists st2,
      InstructionEngine.execute 0 (RevokeRole "issuer" Sample.alice) Sample.alice st1
        = (Ok tt, st2) /\
      State.getAccountRoles Sample.alice st2
        = Some (List.filter (fun x => negb (String.eqb x "issuer")) ["user"]) /\
      (InstructionEngine.includes ["user"] "issuer" = false -> st2 = Sample.store0).
Proof.
  assert (H1 : is_Some (State.getRole "issuer" Sample.store0))
    by (eexists; vm_compute; reflexivity).
  assert (H2 : is_Some (State.getAccount Sample.alice Sample.store0))
    by (eexists; vm_compute; reflexivity).
  assert (H3 : State.getAccountRoles Sample.alice Sample.store0 = Some ["user"])
    by (vm_compute; reflexivity).
  repeat (split; [assumption |]).
  exact (grantRole_then_revokeRole 0 "issuer" Sample.alice Sample.alice Sample.store0
           ["user"] H1 H2 H3).
Defined.

(** RegisterAccount returns exactly when the id is not an account
    yet, the id starts with [name@domain] where name and domain are not
    empty and hold no [@], the id ends there or goes on with another
    [@], and [domain] is a stored domain; it then stores the account
    under the whole id, with no roles and an empty role list. *)
Theorem registerAccount_returns_iff
    (now : Z) (id public_key signer : string) (st st' : State.store) :
  InstructionEngine.execute now (RegisterAccount id public_key) signer st = (Ok tt, st') <->
  State.getAccount id st = None /\
  (exists name domain,
     name <> EmptyString /\ domain <> EmptyString /\
     JS.has_char "@" name = false /\ JS.has_char "@" domain = false /\
     (id = name +:+ String "@" domain \/
      exists rest, id = name +:+ String "@" (domain +:+ String "@" rest)) /\
     is_Some (State.getDomain domain st)) /\
  st' = State.putAccountRoles id []
          (State.putAccount (mkAccount id public_key [] now) st).
Proof.
  cbn [InstructionEngine.execute].
  unfold InstructionEngine.handleRegisterAccount, InstructionEngine.bind,
    InstructionEngine.read, InstructionEngine.throw, InstructionEngine.modify,
    InstructionEngine.ret.
  destruct (State.getAccount id st) as [acc |] eqn:Hacc.
  { split; [discriminate | intros [H _]; discriminate]. }
  destruct (JS.split "@" id !! 0%nat) as [name |] eqn:H0;
    destruct (JS.split "@" id !! 1%nat) as [domain |] eqn:H1;
    cbn [InstructionEngine.missing orb default].
  2-4: split; [try discriminate; destruct (negb _); discriminate |];
       intros (_ & (n & d & _ & _ & Hn & Hd & Hshape & _) & _);
       destruct (proj2 (SplitFacts.first_two_parts "@" id n d) (conj Hn (conj Hd Hshape)))
         as [Hn0 Hd1]; congruence.
  destruct (proj1 (SplitFacts.first_two_parts "@" id name domain) (conj H0 H1))
    as (Hn & Hd & Hshape).
  assert (Huniq : forall n d, JS.has_char "@" n = false -> JS.has_char "@" d = false ->
            (id = n +:+ String "@" d \/
             exists rest, id = n +:+ String "@" (d +:+ String "@" rest)) ->
            n = name /\ d = domain).
  { intros n d Hn' Hd' Hs'.
    destruct (proj2 (SplitFacts.first_two_parts "@" id n d) (conj Hn' (conj Hd' Hs')))
      as [Hn0 Hd1]. split; congruence. }
  destruct name as [|c name]; cbn [JS.nonempty negb orb].
  { split; [discriminate |].
    intros (_ & (n & d & Hne & _ & Hn' & Hd' & Hs' & _) & _).
    destruct (Huniq n d Hn' Hd' Hs') as [-> _]. congruence. }
  destruct domain as [|c' domain]; cbn [JS.nonempty negb orb].
  { split; [discriminate |].
    intros (_ & (n & d & _ & Hne & Hn' & Hd' & Hs' & _) & _).
    destruct (Huniq n d Hn' Hd' Hs') as [_ ->]. congruence. }
  cbv [Datatypes.id].
  destruct (State.getDomain (String c' domain) st) as [dom |] eqn:Hdom.
  - split.
    + intros H. injection H as H. subst st'. split; [reflexivity |]. split; [| reflexivity].
      exists (String c name), (String c' domain).
      repeat split; try discriminate; try assumption. now exists dom.
    + intros (_ & _ & Hst). subst st'. reflexivity.
  - split; [discriminate |].
    intros (_ & (n & d & _ & _ & Hn' & Hd' & Hs' & [x Hx]) & _).
    destruct (Huniq n d Hn' Hd' Hs') as [_ ->]. congruence.
Qed.

(** ** Signatures and hashes *)

Module CryptoFacts.
Import JS Canon Wire CanonFacts Crypto.

(** Two objects with the same keys in the same order, whose members
    print alike, print alike. *)
Lemma ser_obj_members ks m1 m2 :
  Forall2 (fun a b => a.1 = b.1 /\ ser (Some ks) a.2 = ser (Some ks) b.2) m1 m2 ->
  ser (Some ks) (JObj m1) = ser (Some ks) (JObj m2).
Proof.
  intros H. rewrite !ser_obj. do 4 f_equal. apply omap_pointwise. intros P _.
  induction H as [|[k1 x1] [k2 x2] m1 m2 [Hk Hx] _ IH]; [reflexivity |].
  cbn [fst snd] in Hk, Hx. subst k2. cbn [lookup_member].
  destruct (String.eqb k1 P); [now rewrite Hx | exact IH].
Qed.

Lemma body_property_list :
  property_list (sort ["chain_id"; "signer_id"; "nonce"; "created_at"; "instructions"])
    = body_keys.
Proof. vm_compute. reflexivity. Qed.

Lemma ser_instruction_body_keys i : ser (Some body_keys) (json_of_instruction i) = Some "{}".
Proof. destruct i; vm_compute; reflexivity. Qed.

Lemma ser_instructions_body_keys l :
  List.map (fun x => match ser (Some body_keys) x with Some s => s | None => "null" end)
           (List.map json_of_instruction l)
  = List.repeat "{}" (List.length l).
Proof.
  induction l as [|i l IH]; [reflexivity |].
  cbn [List.map List.length List.repeat]. now rewrite ser_instruction_body_keys, IH.
Qed.

(** The canonical text of a body holds one [{}] for each instruction. *)
Lemma canonical_body c s n t l1 l2 :
  List.length l1 = List.length l2 ->
  canonicalJsonStringify (json_of_body (mkBody c s n t l1))
    = canonicalJsonStringify (json_of_body (mkBody c s n t l2)).
Proof.
  intros Hlen. unfold canonicalJsonStringify, JSON_stringify, json_of_body.
  cbn [Object_keys List.map fst option_map].
  rewrite body_property_list.
  cbn [body_chain_id body_signer_id body_nonce body_created_at body_instructions].
  rewrite (ser_obj_members body_keys
             [("chain_id", JStr c); ("signer_id", JStr s); ("nonce", JNum n);
              ("created_at", JNum t); ("instructions", JArr (List.map json_of_instruction l1))]
             [("chain_id", JStr c); ("signer_id", JStr s); ("nonce", JNum n);
              ("created_at", JNum t); ("instructions", JArr (List.map json_of_instruction l2))]);
    [reflexivity |].
  repeat (constructor; [split; [reflexivity | cbn [snd]; try reflexivity] |]);
    [| constructor].
  now rewrite !ser_arr, !ser_instructions_body_keys, Hlen.
Qed.

Lemma block_property_list :
  property_list (sort ["header"; "transactions"; "proposer_id"]) = block_keys.
Proof. vm_compute. reflexivity. Qed.

Lemma ser_tx_block_keys tx : ser (Some block_keys) (json_of_tx tx) = Some "{}".
Proof. vm_compute. reflexivity. Qed.

Lemma ser_header_block_keys h : ser (Some block_keys) (json_of_header h) = Some "{}".
Proof. vm_compute. reflexivity. Qed.

Lemma ser_txs_block_keys l :
  List.map (fun x => match ser (Some block_keys) x with Some s => s | None => "null" end)
           (List.map json_of_tx l)
  = List.repeat "{}" (List.length l).
Proof.
  induction l as [|i l IH]; [reflexivity |].
  cbn [List.map List.length List.repeat]. now rewrite ser_tx_block_keys, IH.
Qed.

Lemma canonical_block h1 h2 l1 l2 p s1 s2 :
  List.length l1 = List.length l2 ->
  canonicalJsonStringify (json_of_block_unsigned (mkBlock h1 l1 p s1))
    = canonicalJsonStringify (json_of_block_unsigned (mkBlock h2 l2 p s2)).
Proof.
  intros Hlen. unfold canonicalJsonStringify, JSON_stringify, json_of_block_unsigned.
  cbn [Object_keys List.map fst option_map].
  rewrite block_property_list.
  cbn [block_header block_transactions block_proposer_id].
  rewrite (ser_obj_members block_keys
             [("header", json_of_header h1); ("transactions", JArr (List.map json_of_tx l1));
              ("proposer_id", JStr p)]
             [("header", json_of_header h2); ("transactions", JArr (List.map json_of_tx l2));
              ("proposer_id", JStr p)]);
    [reflexivity |].
  constructor; [split; [reflexivity | cbn [snd]; now rewrite !ser_header_block_keys] |].
  constructor; [split; [reflexivity | cbn [snd]] |].
  - now rewrite !ser_arr, !ser_txs_block_keys, Hlen.
  - repeat constructor.
Qed.

Lemma tx_property_list : property_list (sort ["body"; "signature"]) = tx_keys.
Proof. vm_compute. reflexivity. Qed.

Lemma ser_body_tx_keys b : ser (Some tx_keys) (json_of_body b) = Some "{}".
Proof. vm_compute. reflexivity. Qed.

Lemma canonical_tx b1 b2 pk1 pk2 sg :
  canonicalJsonStringify (json_of_tx (mkTx b1 (mkSignature pk1 sg)))
    = canonicalJsonStringify (json_of_tx (mkTx b2 (mkSignature pk2 sg))).
Proof.
  unfold canonicalJsonStringify, JSON_stringify, json_of_tx.
  cbn [Object_keys List.map fst option_map].
  rewrite tx_property_list. cbn [tx_body tx_signature].
  rewrite (ser_obj_members tx_keys
             [("body", json_of_body b1); ("signature", json_of_signature (mkSignature pk1 sg))]
             [("body", json_of_body b2); ("signature", json_of_signature (mkSignature pk2 sg))]);
    [reflexivity |].
  constructor; [split; [reflexivity | cbn [snd]; now rewrite !ser_body_tx_keys] |].
  constructor; [split; [reflexivity | cbn [snd]] | constructor].
  unfold json_of_signature. cbn [sig_public_key sig_signature].
  rewrite !ser_obj. unfold tx_keys. cbn [omap list_omap lookup_member].
  reflexivity.
Qed.

End CryptoFacts.

(** The signature of a transaction does not cover what its
    instructions say: two bodies that differ only in their instructions,
    and have as many of them, are signed to the same signature, and a
    signature verifies for the one exactly when it verifies for the
    other. *)
Theorem transaction_signature_ignores_instructions
    (sign : string -> string -> result string) (publicKeyOf : string -> result string)
    (verify : string -> string -> string -> bool)
    (chain signer : string) (nonce created_at : Z) (l1 l2 : list Instruction) :
  List.length l1 = List.length l2 ->
  (forall privateKey,
     Crypto.signTransaction sign publicKeyOf (mkBody chain signer nonce created_at l1) privateKey
     = Crypto.signTransaction sign publicKeyOf (mkBody chain signer nonce created_at l2) privateKey) /\
  (forall sg,
     Crypto.verifyTransaction verify (mkTx (mkBody chain signer nonce created_at l1) sg)
     = Crypto.verifyTransaction verify (mkTx (mkBody chain signer nonce created_at l2) sg)).
Proof.
  intros Hlen. split.
  - intros privateKey. unfold Crypto.signTransaction.
    now rewrite (CryptoFacts.canonical_body chain signer nonce created_at l1 l2 Hlen).
  - intros sg. unfold Crypto.verifyTransaction. cbn [tx_body tx_signature].
    now rewrite (CryptoFacts.canonical_body chain signer nonce created_at l1 l2 Hlen).
Qed.

(** The signature of a block covers its proposer and the number of
    its transactions only: blocks that agree on these verify alike,
    whatever their headers and transactions hold. *)
Theorem block_signature_ignores_header_and_transactions
    (verify : string -> string -> string -> bool)
    (h1 h2 : BlockHeader) (l1 l2 : list Transaction) (proposer : string) (sg : Signature) :
  List.length l1 = List.length l2 ->
  Crypto.verifyBlockSignature verify (mkBlock h1 l1 proposer sg)
  = Crypto.verifyBlockSignature verify (mkBlock h2 l2 proposer sg).
Proof.
  intros Hlen. unfold Crypto.verifyBlockSignature. cbn [block_signature].
  now rewrite (CryptoFacts.canonical_block h1 h2 l1 l2 proposer sg sg Hlen).
Qed.

(** The hash under which [applyBlock] files a transaction depends on
    the signature string alone: transactions with the same signature
    string are filed under the same key, whatever their bodies. *)
Theorem calculateTransactionHash_depends_on_signature_only
    (hash : string -> string) (b1 b2 : TransactionBody) (pk1 pk2 sg : string) :
  BlockProducer.calculateTransactionHash hash (mkTx b1 (mkSignature pk1 sg))
  = BlockProducer.calculateTransactionHash hash (mkTx b2 (mkSignature pk2 sg)).
Proof.
  unfold BlockProducer.calculateTransactionHash.
  now rewrite (CryptoFacts.canonical_tx b1 b2 pk1 pk2 sg).
Qed.

Lemma transaction_signature_ignores_instructions_witness :
  List.length [TransferAsset Sample.usd Sample.alice Sample.bob "1"]
    = List.length [TransferAsset Sample.usd Sample.alice Sample.charlie "1000"] /\
  (forall privateKey,
     Crypto.signTransaction Sample.sign Sample.publicKeyOf
       (mkBody "miniroha-test" Sample.alice 1 1
               [TransferAsset Sample.usd Sample.alice Sample.bob "1"]) privateKey
     = Crypto.signTransaction Sample.sign Sample.publicKeyOf
         (mkBody "miniroha-test" Sample.alice 1 1
                 [TransferAsset Sample.usd Sample.alice Sample.charlie "1000"]) privateKey) /\
  (forall sg,
     Crypto.verifyTransaction Sample.verify
       (mkTx (mkBody "miniroha-test" Sample.alice 1 1
                [TransferAsset Sample.usd Sample.alice Sample.bob "1"]) sg)
     = Crypto.verifyTransaction Sample.verify
         (mkTx (mkBody "miniroha-test" Sample.alice 1 1
                  [TransferAsset Sample.usd Sample.alice Sample.charlie "1000"]) sg)).
Proof.
  assert (H : List.length [TransferAsset Sample.usd Sample.alice Sample.bob "1"]
              = List.length [TransferAsset Sample.usd Sample.alice Sample.charlie "1000"])
    by reflexivity.
  split; [exact H |].
  exact (transaction_signature_ignores_instructions Sample.sign Sample.publicKeyOf
           Sample.verify "miniroha-test" Sample.alice 1 1 _ _ H).
Defined.

Lemma block_signature_ignores_header_and_transactions_witness :
  List.length [Sample.transfer_tx] = List.length [Sample.later_tx] /\
  Crypto.verifyBlockSignature Sample.verify
    (mkBlock (mkHeader 2 "prev" 1) [Sample.transfer_tx] "node1" Sample.sig0)
  = Crypto.verifyBlockSignature Sample.verify
      (mkBlock (mkHeader 7 "other" 9) [Sample.later_tx] "node1" Sample.sig0).
Proof.
  assert (H : List.length [Sample.transfer_tx] = List.length [Sample.later_tx]) by reflexivity.
  split; [exact H |].
  exact (block_signature_ignores_header_and_transactions Sample.verify
           (mkHeader 2 "prev" 1) (mkHeader 7 "other" 9) _ _ "node1" Sample.sig0 H).
Defined.

(** ** The block index *)

Module IndexFacts.
Import JS Canon Wire State CanonFacts BlockProducer BlockFacts.

(** A header is written with its keys in ascending order already, so
    its canonical text is its plain JSON text. *)
Lemma header_canonical_plain h :
  canonicalJsonStringify (json_of_header h)
    = match JSON_stringify (json_of_header h) None with
      | Some s => Ok s
      | None => Throw (TypeError "undefined")
      end.
Proof.
  unfold canonicalJsonStringify, JSON_stringify, json_of_header.
  cbn [Object_keys List.map fst option_map].
  assert (Hk : property_list (sort ["height"; "prev_hash"; "timestamp"])
               = ["height"; "prev_hash"; "timestamp"]) by (vm_compute; reflexivity).
  rewrite Hk, ser_obj, ser_obj_plain.
  cbn [omap list_omap lookup_member fst snd ser]. reflexivity.
Qed.

Lemma calculateBlockHash_plain hash blk :
  calculateBlockHash hash blk = Ok (LevelDBStateStore.calculateBlockHash hash blk).
Proof.
  unfold calculateBlockHash, LevelDBStateStore.calculateBlockHash.
  rewrite header_canonical_plain.
  destruct (JSON_stringify (json_of_header (block_header blk)) None) eqn:H; [reflexivity |].
  apply ser_undefined in H. discriminate.
Qed.

End IndexFacts.

(** The store and the block producer compute the hash of a block in
    two ways, from the plain and from the canonical JSON text of its
    header; for every header the two texts, and so the two hashes, are
    the same. *)
Theorem header_hashes_agree (hash : string -> string) (blk : Block) :
  BlockProducer.calculateBlockHash hash blk
    = Ok (LevelDBStateStore.calculateBlockHash hash blk) /\
  BFTConsensus.headerHash hash blk = Ok (LevelDBStateStore.calculateBlockHash hash blk).
Proof. split; apply IndexFacts.calculateBlockHash_plain. Qed.

(** A block that [applyBlock] has committed is found again by the
    hash of its header, unless its height is 0: [getBlockByHash] takes
    a stored height 0 for a missing entry. *)
Theorem getBlockByHash_after_applyBlock
    (hash : string -> string) (now : Z) (blk : Block)
    (st st1 : State.store) (mp : BlockProducer.mempool) :
  BlockProducer.executeTransactions now (block_transactions blk) st = (Ok tt, st1) ->
  LevelDBStateStore.getBlockByHash (LevelDBStateStore.calculateBlockHash hash blk)
    (BlockProducer.applyBlock hash true now blk st mp).1.2
  = if header_height (block_header blk) =? 0 then None else Some blk.
Proof.
  intros Hrun. unfold BlockProducer.applyBlock, BlockProducer.applyBlock_store,
    InstructionEngine.bind, InstructionEngine.lift.
  rewrite IndexFacts.calculateBlockHash_plain.
  set (h := LevelDBStateStore.calculateBlockHash hash blk).
  destruct (BlockFacts.processTransactions_ok hash now (block_transactions blk)
              ([State.OpPut (State.KBlock (header_height (block_header blk))) blk] ++
               [State.OpPut (State.KBlockByHash h) (header_height (block_header blk))])%list
              st st1 Hrun) as (recs & Hrecs & ->).
  unfold State.batch. cbn [fst snd].
  unfold State.apply_ops. rewrite !fold_left_app.
  cbn [fold_left State.apply_op].
  set (S0 := State.put (State.KBlockByHash h) (header_height (block_header blk))
               (State.put (State.KBlock (header_height (block_header blk))) blk st1)).
  destruct (BlockFacts.apply_tx_records recs S0 Hrecs) as (_ & H2 & H3 & _).
  unfold State.apply_ops in *.
  set (S1 := fold_left State.apply_op recs S0) in *.
  unfold LevelDBStateStore.getBlockByHash, State.getBlock.
  change (State.get (State.KBlockByHash h) (State.put State.KLastHeight _ S1))
    with (State.blocks_by_hash S1 !! h).
  rewrite H3. unfold S0 at 1. cbn [State.put State.write State.blocks_by_hash State.upd].
  rewrite lookup_insert_eq.
  destruct (header_height (block_header blk) =? 0); [reflexivity |].
  change (State.blocks S1 !! header_height (block_header blk) = Some blk).
  rewrite H2. apply lookup_insert_eq.
Qed.

Lemma getBlockByHash_after_applyBlock_witness :
  BlockProducer.executeTransactions 0 (block_transactions Sample.transfer_block) Sample.store0
    = (Ok tt, (BlockProducer.executeTransactions 0 (block_transactions Sample.transfer_block)
                 Sample.store0).2) /\
  LevelDBStateStore.getBlockByHash
    (LevelDBStateStore.calculateBlockHash Sample.hash Sample.transfer_block)
    (BlockProducer.applyBlock Sample.hash true 0 Sample.transfer_block Sample.store0 []).1.2
  = if header_height (block_header Sample.transfer_block) =? 0 then None
    else Some Sample.transfer_block.
Proof.
  assert (H : BlockProducer.executeTransactions 0 (block_transactions Sample.transfer_block)
                Sample.store0
              = (Ok tt, (BlockProducer.executeTransactions 0
                           (block_transactions Sample.transfer_block) Sample.store0).2))
    by (vm_compute; reflexivity).
  split; [exact H |].
  exact (getBlockByHash_after_applyBlock Sample.hash 0 Sample.transfer_block Sample.store0
           _ [] H).
Defined.

(** ** The transaction validator *)

Module ValidatorFacts.
Import JS State InstructionEngine TransactionValidator.

Lemma addPermissions_None perms acc : addPermissions perms acc = None <-> "*" ∈ perms.
Proof.
  revert acc. induction perms as [|p perms IH]; intros acc; cbn [addPermissions].
  - split; [discriminate | intros H; inversion H].
  - destruct (String.eqb_spec p "*") as [-> | Hne].
    + split; [intros _; left | reflexivity].
    + rewrite IH. split; [intros H; now right | intros H].
      apply elem_of_cons in H as [H | H]; [congruence | exact H].
Qed.

Lemma addPermissions_Some perms : forall acc P,
  addPermissions perms acc = Some P -> forall p, p ∈ P <-> p ∈ acc \/ p ∈ perms.
Proof.
  induction perms as [|q perms IH]; intros acc P H p; cbn [addPermissions] in H.
  - injection H as <-. split; [now left | intros [H | H]; [exact H | inversion H]].
  - destruct (String.eqb q "*"); [discriminate |].
    rewrite (IH _ _ H p). rewrite elem_of_union, elem_of_singleton, elem_of_cons. tauto.
Qed.

Lemma granted_nil st p : ~ granted st [] p.
Proof. intros (r & role & Hr & _). inversion Hr. Qed.

Lemma granted_cons st roleId rest p :
  granted st (roleId :: rest) p <->
  (exists role, getRole roleId st = Some role /\ p ∈ role_permissions role) \/
  granted st rest p.
Proof.
  split.
  - intros (r & role & Hr & Hrole & Hp).
    apply elem_of_cons in Hr as [-> | Hr]; [left; eauto | right; exists r, role; auto].
  - intros [(role & Hrole & Hp) | (r & role & Hr & Hrole & Hp)].
    + exists roleId, role. repeat split; [left | |]; assumption.
    + exists r, role. repeat split; [now right | |]; assumption.
Qed.

Lemma collectPermissions_None st roles : forall acc,
  collectPermissions st roles acc = None <-> granted st roles "*".
Proof.
  induction roles as [|r roles IH]; intros acc; cbn [collectPermissions].
  - split; [discriminate | intros H; now apply granted_nil in H].
  - rewrite granted_cons. destruct (getRole r st) as [role |] eqn:Hrole.
    + destruct (addPermissions (role_permissions role) acc) as [P |] eqn:Hadd.
      * rewrite IH. split; [now right | intros [(role' & [= <-] & Hw) | H]; [| exact H]].
        apply (addPermissions_None _ acc) in Hw. congruence.
      * split; [intros _; left; exists role; split; [reflexivity |] | reflexivity].
        now apply (addPermissions_None _ acc).
    + rewrite IH. split; [now right | intros [(role' & [=] & _) | H]; exact H].
Qed.

Lemma collectPermissions_Some st roles : forall acc P,
  collectPermissions st roles acc = Some P ->
  forall p, p ∈ P <-> p ∈ acc \/ granted st roles p.
Proof.
  induction roles as [|r roles IH]; intros acc P H p; cbn [collectPermissions] in H.
  - injection H as <-. split; [now left | intros [H | H]; [exact H |]].
    now apply granted_nil in H.
  - rewrite granted_cons. destruct (getRole r st) as [role |] eqn:Hrole.
    + destruct (addPermissions (role_permissions role) acc) as [P' |] eqn:Hadd;
        [| discriminate].
      rewrite (IH _ _ H p), (addPermissions_Some _ _ _ Hadd p).
      split.
      * intros [[Ha | Hp] | Hg]; [now left | right; left; eauto | now right; right].
      * intros [Ha | [(role' & [= <-] & Hp) | Hg]];
          [now left; left | now left; right | now right].
    + rewrite (IH _ _ H p). split.
      * intros [Ha | Hg]; [now left | now right; right].
      * intros [Ha | [(role' & [=] & _) | Hg]]; [now left | now right].
Qed.

Lemma checkInstructions_None signer P instrs :
  "*" ∉ P ->
  checkInstructions signer P instrs = None <->
  Forall (fun i => getRequiredPermission i ∈ P) instrs.
Proof.
  intros Hw. induction instrs as [|i instrs IH]; cbn [checkInstructions].
  - split; [constructor | reflexivity].
  - unfold has. rewrite (bool_decide_eq_false_2 _ Hw). cbn [negb andb].
    destruct (decide (getRequiredPermission i ∈ P)) as [Hi | Hi].
    + rewrite (bool_decide_eq_true_2 _ Hi). cbn [negb]. rewrite IH.
      split; [now constructor | intros H; now apply Forall_cons in H as [_ H]].
    + rewrite (bool_decide_eq_false_2 _ Hi). cbn [negb].
      split; [discriminate | intros H; apply Forall_cons in H as [H _]; contradiction].
Qed.

Lemma checkInstructions_code signer P instrs e :
  checkInstructions signer P instrs = Some e -> code e = "PERMISSION_DENIED".
Proof.
  induction instrs as [|i instrs IH]; cbn [checkInstructions]; [discriminate |].
  destruct (negb (has P "*") && negb (has P (getRequiredPermission i))); [| exact IH].
  now intros [= <-].
Qed.

Lemma validateAmount_throw amt p e :
  amount_re amt = true -> Amount.validateAmount amt p = Throw e ->
  e = PrecisionExceeded amt p.
Proof.
  intros Hre H.
  destruct (AmountFacts.amount_re_shape amt Hre) as (w & f & Hw & _ & Hf & Hamt).
  rewrite (AmountFacts.validateAmount_parts w f p amt Hw Hf Hamt Hre) in H.
  destruct (Z.of_nat (String.length f) >? p); congruence.
Qed.

Ltac engine_cases :=
  unfold handleRegisterDomain, handleRegisterAccount, handleRegisterAsset,
    handleMintAsset, handleBurnAsset, handleTransferAsset, handleGrantRole,
    handleRevokeRole, bigint, bind, read, lift, throw, modify, ret;
  repeat (cbv beta iota; case_match); intros; simplify_eq; try reflexivity.

(** What the validator accepts as an instruction, the engine does not
    reject for its format. *)
Lemma validated_format now i signer signer' st e st' :
  validateInstruction i signer = None ->
  execute now i signer' st = (Throw e, st') -> format_error e = false.
Proof.
  destruct i; cbn [validateInstruction execute];
    unfold validateRegisterDomain, validateRegisterAccount, validateRegisterAsset,
      validateMintAsset, validateBurnAsset, validateIssue, validateTransferAsset,
      validateGrantRole, validateRevokeRole, validateRoleChange, badFormat; intros Hv.
  - engine_cases.
  - destruct (negb (nonempty id)); [discriminate |].
    destruct (negb (nonempty public_key)); [discriminate |].
    destruct (missing (split "@" id !! 0%nat) || missing (split "@" id !! 1%nat)) eqn:Hf;
      [discriminate |].
    unfold handleRegisterAccount, bind, read, throw, modify, ret.
    rewrite Hf. repeat (cbv beta iota; case_match); intros; simplify_eq; reflexivity.
  - destruct (negb (nonempty id)); [discriminate |].
    destruct ((precision <? 0) || (precision >? 18)) eqn:Hp; [discriminate |].
    destruct (missing (split "#" id !! 0%nat) || missing (split "#" id !! 1%nat)) eqn:Hf;
      [discriminate |].
    unfold handleRegisterAsset, bind, read, throw, modify, ret.
    rewrite Hf, Hp. repeat (cbv beta iota; case_match); intros; simplify_eq; reflexivity.
  - destruct (negb (nonempty asset)); [discriminate |].
    destruct (negb (nonempty account)); [discriminate |].
    destruct (negb (nonempty amount)); [discriminate |].
    destruct (amount_re amount) eqn:Hre; [| discriminate].
    engine_cases.
    match goal with
    | H : Amount.validateAmount _ _ = Throw _ |- _ =>
        pose proof (validateAmount_throw _ _ _ Hre H) as ->; reflexivity
    end.
  - destruct (negb (nonempty asset)); [discriminate |].
    destruct (negb (nonempty account)); [discriminate |].
    destruct (negb (nonempty amount)); [discriminate |].
    destruct (amount_re amount) eqn:Hre; [| discriminate].
    engine_cases.
    match goal with
    | H : Amount.validateAmount _ _ = Throw _ |- _ =>
        pose proof (validateAmount_throw _ _ _ Hre H) as ->; reflexivity
    end.
  - destruct (negb (nonempty asset)); [discriminate |].
    destruct (negb (nonempty src_account)); [discriminate |].
    destruct (negb (nonempty dest_account)); [discriminate |].
    destruct (negb (nonempty amount)); [discriminate |].
    destruct (amount_re amount) eqn:Hre; [| discriminate].
    engine_cases.
    match goal with
    | H : Amount.validateAmount _ _ = Throw _ |- _ =>
        pose proof (validateAmount_throw _ _ _ Hre H) as ->; reflexivity
    end.
  - engine_cases.
  - engine_cases.
Qed.

Lemma validateInstructions_None instrs signer :
  validateInstructions instrs signer = None <->
  Forall (fun i => validateInstruction i signer = None) instrs.
Proof.
  induction instrs as [|i instrs IH]; cbn [validateInstructions].
  - split; [constructor | reflexivity].
  - destruct (validateInstruction i signer) as [e |] eqn:Hi.
    + split; [discriminate | intros H; apply Forall_cons in H as [H _]; congruence].
    + rewrite IH. split; [now constructor | intros H; now apply Forall_cons in H as [_ H]].
Qed.

Lemma validatePermissions_None st tx roles :
  getAccountRoles (body_signer_id (tx_body tx)) st = Some roles ->
  validatePermissions st tx = Ok None <->
  granted st roles "*" \/
  Forall (fun i => granted st roles (getRequiredPermission i)) (body_instructions (tx_body tx)).
Proof.
  intros Hroles. unfold validatePermissions. rewrite Hroles.
  destruct (collectPermissions st roles ∅) as [P |] eqn:Hc.
  - assert (Hnw : ~ granted st roles "*").
    { intros Hw. apply (collectPermissions_None st roles ∅) in Hw. congruence. }
    assert (HP : forall p, p ∈ P <-> granted st roles p).
    { intros p. rewrite (collectPermissions_Some _ _ _ _ Hc p).
      split; [intros [Hp | Hp]; [now apply not_elem_of_empty in Hp | exact Hp] | now right]. }
    assert (HwP : "*" ∉ P) by now rewrite HP.
    split.
    + intros [= H]. right. apply (checkInstructions_None _ _ _ HwP) in H.
      eapply Forall_impl; [exact H |]. intros i Hi. now apply HP.
    + intros [Hw | H]; [contradiction |]. f_equal.
      apply (checkInstructions_None _ _ _ HwP).
      eapply Forall_impl; [exact H |]. intros i Hi. now apply HP.
  - apply (collectPermissions_None st roles ∅) in Hc. split; [now left | reflexivity].
Qed.

Lemma handleRegisterAccount_ok now id pk st st' :
  handleRegisterAccount now id pk st = (Ok tt, st') ->
  st' = putAccountRoles id [] (putAccount (mkAccount id pk [] now) st).
Proof. engine_cases. Qed.

End ValidatorFacts.

(** The permission check of the validator.  For a signer with a
    stored role list it passes exactly when a stored role of the signer
    holds the wildcard [*], or every instruction of the transaction is
    named in the permissions of some stored role of the signer; a role
    id without a stored role grants nothing; any rejection carries the
    code PERMISSION_DENIED. *)
Theorem validatePermissions_passes_iff
    (st : State.store) (tx : Transaction) (roles : list string) :
  State.getAccountRoles (body_signer_id (tx_body tx)) st = Some roles ->
  (TransactionValidator.validatePermissions st tx = Ok None <->
   TransactionValidator.granted st roles "*" \/
   Forall (fun i => TransactionValidator.granted st roles
                      (TransactionValidator.getRequiredPermission i))
          (body_instructions (tx_body tx))) /\
  (forall e, TransactionValidator.validatePermissions st tx = Ok (Some e) ->
             TransactionValidator.code e = "PERMISSION_DENIED").
Proof.
  intros Hroles. split; [now apply ValidatorFacts.validatePermissions_None |].
  unfold TransactionValidator.validatePermissions. rewrite Hroles.
  destruct (TransactionValidator.collectPermissions st roles ∅) as [P |]; [| discriminate].
  intros e [= H]. exact (ValidatorFacts.checkInstructions_code _ _ _ _ H).
Qed.

Lemma validatePermissions_passes_iff_witness :
  State.getAccountRoles (body_signer_id (tx_body Sample.transfer_tx)) Sample.store0
    = Some ["user"] /\
  TransactionValidator.validatePermissions Sample.store0 Sample.transfer_tx = Ok None /\
  (TransactionValidator.validatePermissions Sample.store0 Sample.transfer_tx = Ok None <->
   TransactionValidator.granted Sample.store0 ["user"] "*" \/
   Forall (fun i => TransactionValidator.granted Sample.store0 ["user"]
                      (TransactionValidator.getRequiredPermission i))
          (body_instructions (tx_body Sample.transfer_tx))) /\
  (forall e, TransactionValidator.validatePermissions Sample.store0 Sample.transfer_tx
               = Ok (Some e) ->
             TransactionValidator.code e = "PERMISSION_DENIED").
Proof.
  assert (H : State.getAccountRoles (body_signer_id (tx_body Sample.transfer_tx)) Sample.store0
              = Some ["user"]) by (vm_compute; reflexivity).
  split; [exact H |]. split; [vm_compute; reflexivity |].
  exact (validatePermissions_passes_iff Sample.store0 Sample.transfer_tx ["user"] H).
Defined.

(** What [validateTransaction] accepts: the signature verifies over
    the canonical body, the nonce is above the recorded one, there is
    at least one instruction, the signer holds the wildcard or a
    permission for every instruction, and no instruction can be
    rejected by the engine for its format. *)
Theorem validateTransaction_accepts
    (verify : string -> string -> string -> bool)
    (lastNonces : gmap string Z) (st : State.store) (tx : Transaction) :
  TransactionValidator.validateTransaction verify lastNonces st tx = None ->
  Crypto.verifyTransaction verify tx = Ok true /\
  TransactionValidator.lastNonce lastNonces (body_signer_id (tx_body tx))
    < body_nonce (tx_body tx) /\
  body_instructions (tx_body tx) <> [] /\
  (exists roles,
     State.getAccountRoles (body_signer_id (tx_body tx)) st = Some roles /\
     (TransactionValidator.granted st roles "*" \/
      Forall (fun i => TransactionValidator.granted st roles
                         (TransactionValidator.getRequiredPermission i))
             (body_instructions (tx_body tx)))) /\
  Forall (fun i => forall now signer s e s',
            InstructionEngine.execute now i signer s = (Throw e, s') ->
            TransactionValidator.format_error e = false)
         (body_instructions (tx_body tx)).
Proof.
  unfold TransactionValidator.validateTransaction, TransactionValidator.verifySignature.
  destruct (Crypto.verifyTransaction verify tx) as [[|] | e] eqn:Hsig; cbn [negb];
    try discriminate.
  destruct (TransactionValidator.validateTransactionBody (tx_body tx)) as [e |] eqn:Hbody;
    [discriminate |].
  destruct (TransactionValidator.validateNonce lastNonces (tx_body tx)) as [e |] eqn:Hnonce;
    [discriminate |].
  destruct (TransactionValidator.validatePermissions st tx) as [[e |] | e] eqn:Hperm;
    try discriminate.
  intros Hinstr. split; [reflexivity |]. split.
  { unfold TransactionValidator.validateNonce in Hnonce.
    destruct (Z.leb_spec (body_nonce (tx_body tx))
                (TransactionValidator.lastNonce lastNonces (body_signer_id (tx_body tx))));
      [discriminate | lia]. }
  split.
  { unfold TransactionValidator.validateTransactionBody in Hbody.
    repeat match type of Hbody with
           | (if ?c then _ else _) = None => destruct c eqn:?; [discriminate |]
           end.
    destruct (body_instructions (tx_body tx)); [discriminate | discriminate]. }
  split.
  { unfold TransactionValidator.validatePermissions in Hperm.
    destruct (State.getAccountRoles (body_signer_id (tx_body tx)) st) as [roles |] eqn:Hroles;
      [| discriminate].
    exists roles. split; [reflexivity |].
    apply (ValidatorFacts.validatePermissions_None st tx roles Hroles).
    unfold TransactionValidator.validatePermissions. now rewrite Hroles. }
  apply ValidatorFacts.validateInstructions_None in Hinstr.
  eapply Forall_impl; [exact Hinstr |]. intros i Hi now signer s e s' Hexec.
  exact (ValidatorFacts.validated_format now i _ signer s e s' Hi Hexec).
Qed.

Lemma validateTransaction_accepts_witness :
  TransactionValidator.validateTransaction Sample.verify ∅ Sample.store0
    Sample.signed_transfer = None /\
  Crypto.verifyTransaction Sample.verify Sample.signed_transfer = Ok true /\
  TransactionValidator.lastNonce ∅ (body_signer_id (tx_body Sample.signed_transfer))
    < body_nonce (tx_body Sample.signed_transfer).
Proof.
  assert (H : TransactionValidator.validateTransaction Sample.verify ∅ Sample.store0
                Sample.signed_transfer = None) by (vm_compute; reflexivity).
  split; [exact H |].
  pose proof (validateTransaction_accepts Sample.verify ∅ Sample.store0
                Sample.signed_transfer H) as (H1 & H2 & _).
  split; [exact H1 | exact H2].
Defined.

(** ** Proposer rotation and quorums *)

Module ConsensusFacts.
Import JS Canon Wire State BFTConsensus.

Lemma sorted_ids_length (validators : gmap string Validator) :
  List.length (sort (List.map fst (map_to_list validators))) = size validators.
Proof.
  unfold sort. rewrite merge_sort_Permutation, length_map. apply length_map_to_list.
Qed.

Lemma sorted_ids_elem (validators : gmap string Validator) v :
  v ∈ sort (List.map fst (map_to_list validators)) <-> is_Some (validators !! v).
Proof.
  unfold sort. rewrite merge_sort_Permutation.
  change (List.map fst (map_to_list validators)) with ((map_to_list validators).*1).
  rewrite list_elem_of_fmap. split.
  - intros ([k x] & -> & H). apply elem_of_map_to_list in H. now exists x.
  - intros [x H]. exists (v, x). split; [reflexivity |]. now apply elem_of_map_to_list.
Qed.

Lemma getProposer_index validators height round :
  size validators <> 0%nat -> 0 <= height + round ->
  getProposer validators height round
    = Returned (sort (List.map fst (map_to_list validators))
                  !! Z.to_nat ((height + round) mod Z.of_nat (size validators))).
Proof.
  intros Hn Hpos. unfold getProposer. rewrite sorted_ids_length.
  destruct (Nat.eqb_spec (size validators) 0) as [H0 | _]; [contradiction |].
  rewrite Z.rem_mod_nonneg by lia.
  destruct (Z.ltb_spec ((height + round) mod Z.of_nat (size validators)) 0) as [Hneg | _];
    [| reflexivity].
  pose proof (Z.mod_pos_bound (height + round) (Z.of_nat (size validators))). lia.
Qed.

(** The loop of [hasQuorum] for a given hash counts the votes that carry
    that hash. *)
Lemma countVotes_votesFor votes h :
  countVotes votes (Some h) = Z.of_nat (size (votesFor votes h)).
Proof.
  unfold countVotes, votesFor.
  induction votes as [|k v m Hk Hfold IH] using map_first_key_ind.
  - now rewrite map_fold_empty, map_filter_empty, map_size_empty.
  - rewrite map_fold_insert_first_key by assumption. rewrite IH.
    destruct (vote_block_hash v) as [x |] eqn:Hv; cbn [hash_eqb].
    + destruct (String.eqb_spec x h) as [-> | Hne].
      * rewrite map_filter_insert_True by (cbn; exact Hv).
        rewrite map_size_insert_None; [lia |].
        apply map_lookup_filter_None. now left.
      * rewrite map_filter_insert_not'; [lia | cbn; congruence |].
        intros y Hy. congruence.
    + rewrite map_filter_insert_not'; [lia | cbn; congruence |].
      intros y Hy. congruence.
Qed.

End ConsensusFacts.

(** The proposer rotates over the validators in ascending order of
    their ids.  With at least one validator and a non-negative
    [height + round], [getProposer] names a validator; it depends on
    [height + round] only and has the number of validators as period;
    and in any run of that many consecutive rounds every validator is
    the proposer of one. *)
Theorem getProposer_rotates
    (validators : gmap string Validator) (height round : Z) :
  size validators <> 0%nat -> 0 <= height + round ->
  (exists v, BFTConsensus.getProposer validators height round = Returned (Some v) /\
             is_Some (validators !! v)) /\
  BFTConsensus.getProposer validators (height + 1) round
    = BFTConsensus.getProposer validators height (round + 1) /\
  BFTConsensus.getProposer validators height (round + Z.of_nat (size validators))
    = BFTConsensus.getProposer validators height round /\
  (forall v, is_Some (validators !! v) ->
     exists k, 0 <= k < Z.of_nat (size validators) /\
       BFTConsensus.getProposer validators height (round + k) = Returned (Some v)).
Proof.
  intros Hn Hpos.
  set (n := Z.of_nat (size validators)).
  set (l := Canon.sort (List.map fst (map_to_list validators))).
  assert (Hlen : List.length l = size validators) by apply ConsensusFacts.sorted_ids_length.
  assert (Hnpos : 0 < n) by (unfold n; lia).
  repeat split.
  - rewrite ConsensusFacts.getProposer_index by assumption. fold n l.
    pose proof (Z.mod_pos_bound (height + round) n Hnpos) as Hb.
    destruct (lookup_lt_is_Some_2 l (Z.to_nat ((height + round) mod n))) as [v Hv];
      [rewrite Hlen; unfold n in *; lia |].
    exists v. split; [now rewrite Hv |].
    apply ConsensusFacts.sorted_ids_elem. fold l. eapply list_elem_of_lookup_2. exact Hv.
  - rewrite !ConsensusFacts.getProposer_index by (assumption || lia).
    now replace (height + 1 + round) with (height + (round + 1)) by lia.
  - rewrite !ConsensusFacts.getProposer_index by (assumption || lia). fold n.
    replace (height + (round + n)) with (height + round + 1 * n) by lia.
    now rewrite Z_mod_plus_full.
  - intros v Hv. apply ConsensusFacts.sorted_ids_elem in Hv. fold l in Hv.
    apply list_elem_of_lookup_1 in Hv as [i Hi].
    pose proof (lookup_lt_Some _ _ _ Hi) as Hlt. rewrite Hlen in Hlt.
    exists ((Z.of_nat i - (height + round)) mod n).
    pose proof (Z.mod_pos_bound (Z.of_nat i - (height + round)) n Hnpos) as Hb.
    split; [exact Hb |].
    rewrite ConsensusFacts.getProposer_index by (assumption || lia). fold n l.
    replace (height + (round + (Z.of_nat i - (height + round)) mod n))
      with ((height + round) + (Z.of_nat i - (height + round)) mod n) by lia.
    rewrite Zplus_mod_idemp_r.
    replace (height + round + (Z.of_nat i - (height + round))) with (Z.of_nat i) by lia.
    rewrite Z.mod_small by (unfold n; lia). now rewrite Nat2Z.id, Hi.
Qed.

Lemma getProposer_rotates_witness :
  size Sample.validators4 <> 0%nat /\ 0 <= 2 + 0 /\
  BFTConsensus.getProposer Sample.validators4 2 0 = Returned (Some "node3") /\
  (exists v, BFTConsensus.getProposer Sample.validators4 2 0 = Returned (Some v) /\
             is_Some (Sample.validators4 !! v)) /\
  BFTConsensus.getProposer Sample.validators4 (2 + 1) 0
    = BFTConsensus.getProposer Sample.validators4 2 (0 + 1) /\
  BFTConsensus.getProposer Sample.validators4 2 (0 + Z.of_nat (size Sample.validators4))
    = BFTConsensus.getProposer Sample.validators4 2 0 /\
  (forall v, is_Some (Sample.validators4 !! v) ->
     exists k, 0 <= k < Z.of_nat (size Sample.validators4) /\
       BFTConsensus.getProposer Sample.validators4 2 (0 + k) = Returned (Some v)).
Proof.
  assert (H1 : size Sample.validators4 <> 0%nat) by (vm_compute; discriminate).
  assert (H2 : 0 <= 2 + 0) by lia.
  split; [exact H1 |]. split; [exact H2 |]. split; [vm_compute; reflexivity |].
  exact (getProposer_rotates Sample.validators4 2 0 H1 H2).
Defined.

(** The quorum checks act on a block only with a quorum for its
    hash.  [checkPrevoteQuorum] casts a precommit for a hash, and locks
    a block, only when that block is the valid block, the hash is the
    hash of its header and at least a quorum of the recorded prevotes
    carry that hash; [checkPrecommitQuorum] commits only the locked
    block, and only when at least a quorum of the recorded precommits
    carry the hash of its header. *)
Theorem quorum_checks_need_votes_for_the_block
    (hash : string -> string) (validators : gmap string Validator)
    (st : BFTConsensus.ConsensusState) :
  match BFTConsensus.checkPrevoteQuorum hash validators st with
  | Ok (st', BFTConsensus.CastPrecommit (Some h)) =>
      exists b,
        BFTConsensus.cs_validBlock st = Some b /\
        BFTConsensus.headerHash hash b = Ok h /\
        BFTConsensus.getQuorumSize validators
          <= Z.of_nat (size (BFTConsensus.votesFor (BFTConsensus.cs_prevotes st) h)) /\
        BFTConsensus.cs_lockedBlock st' = Some b /\
        BFTConsensus.cs_lockedRound st' = Some (BFTConsensus.cs_round st) /\
        BFTConsensus.cs_step st' = BFTConsensus.precommit
  | Ok (st', BFTConsensus.CastPrecommit None) =>
      BFTConsensus.cs_lockedBlock st' = BFTConsensus.cs_lockedBlock st
  | Ok (st', BFTConsensus.NoAction) => st' = st
  | Throw _ => True
  end /\
  match BFTConsensus.checkPrecommitQuorum hash validators st with
  | Ok (BFTConsensus.Commit b) =>
      BFTConsensus.cs_lockedBlock st = Some b /\
      exists h,
        BFTConsensus.headerHash hash b = Ok h /\
        BFTConsensus.getQuorumSize validators
          <= Z.of_nat (size (BFTConsensus.votesFor (BFTConsensus.cs_precommits st) h))
  | _ => True
  end.
Proof.
  split.
  - unfold BFTConsensus.checkPrevoteQuorum, BFTConsensus.checkNilPrevoteQuorum.
    destruct (negb (BFTConsensus.step_eqb (BFTConsensus.cs_step st) BFTConsensus.prevote));
      [reflexivity |].
    destruct (BFTConsensus.cs_validBlock st) as [b |] eqn:Hb.
    + destruct (BFTConsensus.headerHash hash b) as [h | e] eqn:Hh; [| exact I].
      destruct (BFTConsensus.hasQuorum validators (BFTConsensus.cs_prevotes st) (Some h))
        eqn:Hq.
      * exists b. repeat split; try assumption; try reflexivity.
        unfold BFTConsensus.hasQuorum in Hq. apply Z.leb_le in Hq.
        now rewrite ConsensusFacts.countVotes_votesFor in Hq.
      * destruct (BFTConsensus.hasQuorum validators (BFTConsensus.cs_prevotes st) None);
          reflexivity.
    + destruct (BFTConsensus.hasQuorum validators (BFTConsensus.cs_prevotes st) None);
        reflexivity.
  - unfold BFTConsensus.checkPrecommitQuorum, BFTConsensus.checkNilPrecommitQuorum.
    destruct (negb (BFTConsensus.step_eqb (BFTConsensus.cs_step st) BFTConsensus.precommit));
      [exact I |].
    destruct (BFTConsensus.cs_lockedBlock st) as [b |] eqn:Hb.
    + destruct (BFTConsensus.headerHash hash b) as [h | e] eqn:Hh; [| exact I].
      destruct (BFTConsensus.hasQuorum validators (BFTConsensus.cs_precommits st) (Some h))
        eqn:Hq.
      * split; [reflexivity |]. exists h. split; [exact Hh |].
        unfold BFTConsensus.hasQuorum in Hq. apply Z.leb_le in Hq.
        now rewrite ConsensusFacts.countVotes_votesFor in Hq.
      * destruct (BFTConsensus.hasQuorum validators (BFTConsensus.cs_precommits st) None);
          exact I.
    + destruct (BFTConsensus.hasQuorum validators (BFTConsensus.cs_precommits st) None);
        exact I.
Qed.

(** ** The mempool *)

Module MempoolFacts.
Import JS Canon Wire TransactionMempool.

Section Sorting.
Context {A : Type} (key : A -> Z).

Lemma insertBy_perm x l : insertBy key x l ≡ₚ x :: l.
Proof.
  induction l as [|y l IH]; [reflexivity |]. cbn [insertBy].
  destruct (key x <=? key y); [reflexivity |].
  rewrite IH. apply Permutation_swap.
Qed.

Lemma sortBy_perm l : sortBy key l ≡ₚ l.
Proof.
  induction l as [|x l IH]; [reflexivity |].
  cbn [sortBy foldr]. rewrite insertBy_perm. now constructor.
Qed.

Lemma insertBy_sorted x l :
  StronglySorted (fun a b => key a <= key b) l ->
  StronglySorted (fun a b => key a <= key b) (insertBy key x l).
Proof.
  induction 1 as [|y l Hl IH Hy]; cbn [insertBy]; [repeat constructor |].
  destruct (Z.leb_spec (key x) (key y)) as [Hle | Hgt].
  - constructor; [now constructor |].
    constructor; [exact Hle |].
    eapply Forall_impl; [exact Hy |]. intros z Hz. cbv beta in *. lia.
  - constructor; [exact IH |].
    rewrite insertBy_perm. constructor; [lia | exact Hy].
Qed.

Lemma sortBy_sorted l : StronglySorted (fun a b => key a <= key b) (sortBy key l).
Proof.
  induction l as [|x l IH]; [constructor |]. cbn [sortBy foldr]. now apply insertBy_sorted.
Qed.

End Sorting.

Lemma has_elem k m : Map_has k m = true <-> k ∈ List.map fst m.
Proof.
  unfold Map_has. induction m as [|[k' v] m IH]; cbn [existsb List.map fst].
  - split; [discriminate | intros H; inversion H].
  - rewrite orb_true_iff, IH, elem_of_cons, String.eqb_eq. split; intros [H | H]; auto.
Qed.

Lemma has_false k m : Map_has k m = false <-> k ∉ List.map fst m.
Proof. rewrite <- has_elem. now destruct (Map_has k m). Qed.

Lemma get_is_Some k m : is_Some (Map_get k m) <-> k ∈ List.map fst m.
Proof.
  induction m as [|[k' v] m IH]; cbn [Map_get List.map fst].
  - split; [intros [? [=]] | intros H; inversion H].
  - rewrite elem_of_cons. destruct (String.eqb_spec k' k) as [-> | Hne].
    + split; [now left | eauto].
    + rewrite IH. split; [now right | intros [-> | H]; [congruence | exact H]].
Qed.

Lemma keys_delete k m :
  List.map fst (Map_delete k m) = List.filter (fun h => negb (String.eqb h k)) (List.map fst m).
Proof.
  unfold Map_delete. induction m as [|[k' v] m IH]; [reflexivity |].
  cbn [List.filter List.map fst]. destruct (negb (String.eqb k' k)); cbn [List.map fst];
    now rewrite IH.
Qed.

Lemma get_delete_ne k k' m : k' <> k -> Map_get k' (Map_delete k m) = Map_get k' m.
Proof.
  intros Hne. unfold Map_delete. induction m as [|[j v] m IH]; [reflexivity |].
  cbn [List.filter Map_get fst].
  destruct (String.eqb_spec j k) as [-> | Hj]; cbn [negb Map_get].
  - destruct (String.eqb_spec k k'); [congruence | exact IH].
  - destruct (String.eqb j k'); [reflexivity | exact IH].
Qed.

Lemma get_app k m m' :
  Map_get k (m ++ m')%list = match Map_get k m with Some v => Some v | None => Map_get k m' end.
Proof.
  induction m as [|[j v] m IH]; [reflexivity |].
  cbn [app Map_get]. destruct (String.eqb j k); [reflexivity | exact IH].
Qed.

Lemma set_fresh k v m : Map_has k m = false -> Map_set k v m = (m ++ [(k, v)])%list.
Proof. unfold Map_set. now intros ->. Qed.

Lemma filter_ne_fresh (k : string) (l : list string) :
  k ∉ l -> List.filter (fun h => negb (String.eqb h k)) l = l.
Proof.
  induction l as [|x l IH]; [reflexivity |].
  intros H. apply not_elem_of_cons in H as [Hx Hl]. cbn [List.filter].
  destruct (String.eqb_spec x k); [congruence |]. cbn [negb]. now rewrite IH.
Qed.

Lemma list_filter_stdpp {B} (f : B -> bool) (l : list B) :
  List.filter f l = filter (fun x => f x = true) l.
Proof.
  induction l as [|x l IH]; [reflexivity |].
  cbn [List.filter]. rewrite filter_cons. destruct (f x) eqn:Hf.
  - rewrite decide_True by reflexivity. now rewrite IH.
  - rewrite decide_False by discriminate. exact IH.
Qed.

Lemma StronglySorted_ext {B} (R R' : B -> B -> Prop) l :
  (forall a b, a ∈ l -> b ∈ l -> R a b -> R' a b) ->
  StronglySorted R l -> StronglySorted R' l.
Proof.
  intros Hext H. induction H as [|x l Hl IH Hx]; [constructor |].
  constructor.
  - apply IH. intros a b Ha Hb. apply Hext; now right.
  - rewrite Forall_forall in *. intros y Hy. apply Hext; [left | now right | now apply Hx].
Qed.

Lemma StronglySorted_list_filter {B} (R : B -> B -> Prop) (f : B -> bool) l :
  StronglySorted R l -> StronglySorted R (List.filter f l).
Proof.
  induction 1 as [|x l Hl IH Hx]; [constructor |].
  cbn [List.filter]. destruct (f x); [| exact IH].
  constructor; [exact IH |].
  rewrite Forall_forall in *. intros y Hy. apply Hx.
  apply list_elem_of_In. apply list_elem_of_In in Hy. now apply List.filter_In in Hy as [Hy _].
Qed.

(** Removing a hash keeps the order. *)
Lemma NoDup_list_filter {B} (f : B -> bool) l : NoDup l -> NoDup (List.filter f l).
Proof. rewrite list_filter_stdpp. apply NoDup_filter. Qed.

Lemma Forall_list_filter {B} (Q : B -> Prop) (f : B -> bool) l :
  Forall Q l -> Forall Q (List.filter f l).
Proof.
  rewrite !Forall_forall. intros H x Hx. apply H.
  apply list_elem_of_In. apply list_elem_of_In in Hx. now apply List.filter_In in Hx as [Hx _].
Qed.

Lemma Permutation_list_filter {B} (f : B -> bool) l l' :
  l ≡ₚ l' -> List.filter f l ≡ₚ List.filter f l'.
Proof. intros H. rewrite !list_filter_stdpp. now rewrite H. Qed.

Lemma remove_ordered h p : ordered p -> ordered (remove h p).
Proof.
  intros (Hnd & Hne & Hperm & Hsort). unfold remove.
  destruct (Map_has h (pendingTransactions p)) eqn:Hhas; [| now repeat split].
  unfold ordered. cbn [pendingTransactions sortedTxHashes].
  rewrite keys_delete. repeat split.
  - now apply NoDup_list_filter.
  - now apply Forall_list_filter.
  - now apply Permutation_list_filter.
  - apply (StronglySorted_ext
             (fun a b => nonceOf (pendingTransactions p) a <= nonceOf (pendingTransactions p) b)).
    + intros a b Ha Hb Hab.
      apply list_elem_of_In, List.filter_In in Ha as [_ Ha].
      apply list_elem_of_In, List.filter_In in Hb as [_ Hb].
      apply negb_true_iff, String.eqb_neq in Ha, Hb.
      unfold nonceOf. now rewrite !get_delete_ne by assumption.
    + now apply StronglySorted_list_filter.
Qed.

(** Under the order, dropping the first hash is the removal of it. *)
Lemma evict_is_remove h rest p :
  ordered p -> sortedTxHashes p = h :: rest ->
  mkPool (Map_delete h (pendingTransactions p)) rest (maxSize p) = remove h p.
Proof.
  intros (Hnd & Hne & Hperm & Hsort) Hs. unfold remove.
  assert (Hin : h ∈ List.map fst (pendingTransactions p))
    by (rewrite <- Hperm, Hs; left).
  rewrite (proj2 (has_elem _ _) Hin). f_equal.
  rewrite Hs. cbn [List.filter]. rewrite String.eqb_refl. cbn [negb].
  symmetry. apply filter_ne_fresh.
  assert (Hnd' : NoDup (h :: rest)) by (rewrite <- Hs, Hperm; exact Hnd).
  now apply NoDup_cons in Hnd' as [Hh _].
Qed.

Lemma keys_app (m m' : list (string * Transaction)) :
  List.map fst (m ++ m')%list = (List.map fst m ++ List.map fst m')%list.
Proof. apply List.map_app. Qed.

(** Filing a new hash and sorting keeps the order. *)
Lemma append_ordered k tx p :
  ordered p -> k <> EmptyString -> Map_has k (pendingTransactions p) = false ->
  Map_set k tx (pendingTransactions p) = (pendingTransactions p ++ [(k, tx)])%list /\
  exists sorted,
    sortHashes (Map_set k tx (pendingTransactions p)) (sortedTxHashes p ++ [k])%list
      = Returned sorted /\
    ordered (mkPool (Map_set k tx (pendingTransactions p)) sorted (maxSize p)).
Proof.
  intros (Hnd & Hne & Hperm & Hsort) Hk Hhas.
  rewrite (set_fresh k tx _ Hhas). split; [reflexivity |].
  apply has_false in Hhas.
  set (m := (pendingTransactions p ++ [(k, tx)])%list).
  assert (Hkeys : List.map fst m = (List.map fst (pendingTransactions p) ++ [k])%list)
    by (unfold m; now rewrite keys_app).
  assert (Hbase : forall sorted,
            sorted ≡ₚ (sortedTxHashes p ++ [k])%list ->
            StronglySorted (fun a b => nonceOf m a <= nonceOf m b) sorted ->
            ordered (mkPool m sorted (maxSize p))).
  { intros sorted Hp Hs. unfold ordered. cbn [pendingTransactions sortedTxHashes].
    rewrite Hkeys. repeat split.
    - apply NoDup_app. repeat split; [exact Hnd | | apply NoDup_singleton].
      intros x Hx Hx'. apply list_elem_of_singleton in Hx'. now subst.
    - apply Forall_app. split; [exact Hne | now repeat constructor].
    - now rewrite Hp, Hperm.
    - exact Hs. }
  unfold sortHashes.
  destruct (List.length (sortedTxHashes p ++ [k]) <=? 1)%nat eqn:Hlen.
  - exists (sortedTxHashes p ++ [k])%list. split; [reflexivity |].
    apply Hbase; [reflexivity |].
    apply Nat.leb_le in Hlen. rewrite length_app in Hlen. cbn in Hlen.
    destruct (sortedTxHashes p); [| cbn in Hlen; lia].
    repeat constructor.
  - assert (Hall : forallb (fun h => Map_has h m) (sortedTxHashes p ++ [k])%list = true).
    { apply forallb_forall. intros h Hh. apply has_elem. rewrite Hkeys.
      apply list_elem_of_In in Hh. now rewrite <- Hperm. }
    rewrite Hall. eexists. split; [reflexivity |].
    apply Hbase; [apply sortBy_perm | apply sortBy_sorted].
Qed.

Section WithHash.
Variable hash : string -> string.
Hypothesis hash_nonempty : forall s, hash s <> EmptyString.

Lemma calculateTransactionHash_nonempty tx : calculateTransactionHash hash tx <> EmptyString.
Proof.
  unfold calculateTransactionHash, BlockProducer.mempoolHash.
  destruct (JSON_stringify (json_of_tx tx) None); apply hash_nonempty.
Qed.

Lemma room_ordered p : ordered p -> ordered (room p) /\ maxSize (room p) = maxSize p.
Proof.
  intros Hp. unfold room.
  destruct (maxSize p <=? Z.of_nat (List.length (pendingTransactions p))); [| now split].
  destruct (sortedTxHashes p) as [|h rest] eqn:Hs; [now split |].
  destruct (nonempty h); [| now split].
  rewrite (evict_is_remove h rest p Hp Hs). split; [now apply remove_ordered |].
  unfold remove. now destruct (Map_has h (pendingTransactions p)).
Qed.

Lemma room_fresh k p :
  Map_has k (pendingTransactions p) = false -> Map_has k (pendingTransactions (room p)) = false.
Proof.
  intros Hk. unfold room.
  destruct (maxSize p <=? Z.of_nat (List.length (pendingTransactions p))); [| exact Hk].
  destruct (sortedTxHashes p) as [|h rest]; [exact Hk |].
  destruct (nonempty h); [| exact Hk].
  cbn [pendingTransactions]. apply has_false. rewrite keys_delete.
  apply has_false in Hk. intros Hin. apply Hk.
  apply list_elem_of_In in Hin. apply List.filter_In in Hin as [Hin _].
  now apply list_elem_of_In.
Qed.

Lemma add_unfold tx p :
  add hash tx p =
    let txHash := calculateTransactionHash hash tx in
    if Map_has txHash (pendingTransactions p)
    then (Raised ("Transaction " +:+ txHash +:+ " already exists in mempool"), p)
    else
      match sortHashes (Map_set txHash tx (pendingTransactions (room p)))
                       (sortedTxHashes (room p) ++ [txHash])%list with
      | Returned sorted =>
          (Returned tt,
           mkPool (Map_set txHash tx (pendingTransactions (room p))) sorted (maxSize p))
      | Raised m =>
          (Raised m,
           mkPool (Map_set txHash tx (pendingTransactions (room p)))
                  (sortedTxHashes (room p) ++ [txHash])%list (maxSize p))
      end.
Proof. reflexivity. Qed.

Lemma add_ordered tx p :
  ordered p ->
  ordered (add hash tx p).2 /\
  ((add hash tx p).1 = Returned tt \/
   (Map_has (calculateTransactionHash hash tx) (pendingTransactions p) = true /\
    (add hash tx p).2 = p)).
Proof.
  intros Hp. rewrite add_unfold. cbv zeta.
  destruct (Map_has (calculateTransactionHash hash tx) (pendingTransactions p)) eqn:Hhas.
  - split; [exact Hp | right; now split].
  - destruct (room_ordered p Hp) as [Hr Hmax].
    destruct (append_ordered (calculateTransactionHash hash tx) tx (room p) Hr
                (calculateTransactionHash_nonempty tx) (room_fresh _ p Hhas))
      as (_ & sorted & -> & Hord).
    rewrite Hmax in Hord. split; [exact Hord | now left].
Qed.

Lemma fold_remove_ordered {B} (f : B -> string) (l : list B) : forall p,
  ordered p -> ordered (fold_left (fun p x => remove (f x) p) l p).
Proof.
  induction l as [|x l IH]; intros p Hp; [exact Hp |].
  cbn [fold_left]. apply IH. now apply remove_ordered.
Qed.

End WithHash.

(** Under the order every listed hash has its entry, and the entries
    read along [sortedTxHashes] are the pending transactions. *)
Lemma get_keys (m : list (string * Transaction)) :
  NoDup (List.map fst m) ->
  List.map (fun h => Map_get h m) (List.map fst m) = List.map Some (List.map snd m).
Proof.
  induction m as [|[k v] m IH]; [reflexivity |].
  cbn [List.map fst snd]. intros Hnd. apply NoDup_cons in Hnd as [Hk Hnd].
  cbn [Map_get]. rewrite String.eqb_refl. f_equal.
  rewrite <- (IH Hnd). apply List.map_ext_in. intros h Hh.
  destruct (String.eqb_spec k h) as [-> | _]; [| reflexivity].
  exfalso. apply Hk. now apply list_elem_of_In.
Qed.

Lemma omap_get_keys (m : list (string * Transaction)) :
  NoDup (List.map fst m) ->
  omap (fun h => Map_get h m) (List.map fst m) = List.map snd m.
Proof.
  induction m as [|[k v] m IH]; [reflexivity |].
  cbn [List.map fst snd]. intros Hnd. apply NoDup_cons in Hnd as [Hk Hnd].
  cbn [omap list_omap Map_get]. rewrite String.eqb_refl. f_equal.
  rewrite <- (IH Hnd). apply list_omap_ext. clear IH Hnd.
  induction (List.map fst m) as [|h l IHl]; [constructor |].
  apply not_elem_of_cons in Hk as [Hh Hl].
  constructor; [| now apply IHl].
  destruct (String.eqb_spec k h) as [-> | _]; [congruence | reflexivity].
Qed.

Lemma pending_in_order p :
  ordered p ->
  List.map (fun h => Map_get h (pendingTransactions p)) (sortedTxHashes p)
    = List.map Some (omap (fun h => Map_get h (pendingTransactions p)) (sortedTxHashes p)) /\
  omap (fun h => Map_get h (pendingTransactions p)) (sortedTxHashes p)
    ≡ₚ List.map snd (pendingTransactions p) /\
  StronglySorted (fun a b => body_nonce (tx_body a) <= body_nonce (tx_body b))
    (omap (fun h => Map_get h (pendingTransactions p)) (sortedTxHashes p)).
Proof.
  intros (Hnd & Hne & Hperm & Hsort).
  assert (Hall : Forall (fun h => is_Some (Map_get h (pendingTransactions p)))
                        (sortedTxHashes p)).
  { apply Forall_forall. intros h Hh. apply get_is_Some. now rewrite <- Hperm. }
  repeat split.
  - clear Hsort Hperm. induction Hall as [|h l [tx Hh] _ IH]; [reflexivity |].
    cbn [List.map omap list_omap]. rewrite Hh. cbn. now rewrite IH.
  - rewrite Hperm. now rewrite omap_get_keys.
  - clear Hperm. induction Hsort as [|h l Hl IH Hh]; [constructor |].
    apply Forall_cons in Hall as [[tx Htx] Hall].
    cbn [omap list_omap]. rewrite Htx. cbn.
    constructor; [now apply IH |].
    apply Forall_forall. intros tx' Hin.
    apply list_elem_of_omap in Hin as (h' & Hh' & Hget).
    rewrite Forall_forall in Hh. specialize (Hh h' Hh').
    unfold nonceOf in Hh. now rewrite Htx, Hget in Hh.
Qed.

Lemma txSize_nonneg tx : 0 <= txSize tx.
Proof. unfold txSize. destruct (JSON_stringify (json_of_tx tx) None); lia. Qed.

(** The loop of [getBlockTransactions] extends what it has collected by
    entries read along the hashes, within both limits. *)
Lemma blockLoop_spec m maxT maxB : forall hashes acc cur,
  Forall (fun h => is_Some (Map_get h m)) hashes ->
  exists more,
    blockLoop m maxT maxB hashes acc cur = Returned (acc ++ more)%list /\
    List.map Some more `prefix_of` List.map (fun h => Map_get h m) hashes /\
    (more = [] \/
     (Z.of_nat (List.length (acc ++ more)%list) <= maxT /\ cur + totalSize more <= maxB)).
Proof.
  induction hashes as [|h hashes IH]; intros acc cur Hall.
  - exists []. rewrite app_nil_r. repeat split; [apply prefix_nil | now left].
  - apply Forall_cons in Hall as [[tx Htx] Hall]. cbn [blockLoop].
    destruct (Z.leb_spec maxT (Z.of_nat (List.length acc))) as [Hfull | Hroom].
    { exists []. rewrite app_nil_r. repeat split; [apply prefix_nil | now left]. }
    rewrite Htx.
    destruct (Z.ltb_spec maxB (cur + txSize tx)) as [Hbig | Hfit].
    { exists []. rewrite app_nil_r. repeat split; [apply prefix_nil | now left]. }
    destruct (IH (acc ++ [tx])%list (cur + txSize tx) Hall) as (more & Hrun & Hpre & Hb).
    exists (tx :: more). rewrite Hrun, <- app_assoc. split; [reflexivity |]. split.
    + cbn [List.map]. rewrite Htx. now apply prefix_cons.
    + right. destruct Hb as [-> | [Hlen Hsize]].
      * rewrite length_app. cbn [List.length totalSize foldr]. split; lia.
      * rewrite <- app_assoc in Hlen. cbn [app] in Hlen.
        cbn [totalSize foldr]. fold (totalSize more). split; [exact Hlen | lia].
Qed.

End MempoolFacts.

Module MempoolCapacityFacts.
Import JS Canon Wire TransactionMempool MempoolFacts.

Lemma sample_hash_nonempty s : Sample.hash s <> EmptyString.
Proof. unfold Sample.hash. discriminate. Qed.

Lemma create_ordered n : ordered (create n).
Proof. repeat split; constructor. Qed.

Lemma pool2_ordered : ordered Sample.pool2.
Proof.
  unfold Sample.pool2.
  apply (add_ordered Sample.hash sample_hash_nonempty).
  apply (add_ordered Sample.hash sample_hash_nonempty).
  apply create_ordered.
Qed.

Lemma length_delete k (m : list (string * Transaction)) :
  NoDup (List.map fst m) -> k ∈ List.map fst m ->
  S (List.length (Map_delete k m)) = List.length m.
Proof.
  unfold Map_delete. induction m as [|[j v] m IH]; intros Hnd Hin; [inversion Hin |].
  cbn [List.map fst] in *. apply NoDup_cons in Hnd as [Hj Hnd].
  cbn [List.filter fst]. destruct (String.eqb_spec j k) as [-> | Hne]; cbn [negb].
  - cbn [List.length]. f_equal.
    change (List.length (Map_delete k m) = List.length m).
    unfold Map_delete. f_equal.
    clear IH Hnd Hin. induction m as [|[j v'] m IH]; [reflexivity |].
    cbn [List.map fst] in Hj. apply not_elem_of_cons in Hj as [Hjk Hm].
    cbn [List.filter fst]. destruct (String.eqb_spec j k); [congruence |].
    cbn [negb]. now rewrite IH.
  - cbn [List.length]. f_equal. apply IH; [exact Hnd |].
    apply elem_of_cons in Hin as [-> | Hin]; [congruence | exact Hin].
Qed.

End MempoolCapacityFacts.

(** The mempool keeps its order.  In a pool whose map has distinct,
    non-empty keys and whose [sortedTxHashes] lists exactly these keys
    in ascending order of nonce, every operation leaves such a pool;
    [add] either returns or finds the hash of the transaction in the
    pool already, and then changes nothing. *)
Theorem mempool_stays_ordered
    (hash : string -> string) (p : TransactionMempool.pool) :
  (forall s, hash s <> EmptyString) ->
  TransactionMempool.ordered p ->
  (forall tx,
     TransactionMempool.ordered (TransactionMempool.add hash tx p).2 /\
     ((TransactionMempool.add hash tx p).1 = Returned tt \/
      (TransactionMempool.Map_has (TransactionMempool.calculateTransactionHash hash tx)
         (TransactionMempool.pendingTransactions p) = true /\
       (TransactionMempool.add hash tx p).2 = p))) /\
  (forall h, TransactionMempool.ordered (TransactionMempool.remove h p)) /\
  (forall txs,
     TransactionMempool.ordered (TransactionMempool.removeTransactionsForBlock hash txs p)) /\
  (forall now maxAge,
     TransactionMempool.ordered (TransactionMempool.removeOldTransactions now maxAge p).2) /\
  TransactionMempool.ordered (TransactionMempool.clear p).
Proof.
  intros Hhash Hp. split; [| split; [| split; [| split]]].
  - intros tx. exact (MempoolFacts.add_ordered hash Hhash tx p Hp).
  - intros h. now apply MempoolFacts.remove_ordered.
  - intros txs. unfold TransactionMempool.removeTransactionsForBlock.
    now apply (MempoolFacts.fold_remove_ordered
                 (TransactionMempool.calculateTransactionHash hash)).
  - intros now maxAge. unfold TransactionMempool.removeOldTransactions. cbn [snd].
    now apply (MempoolFacts.fold_remove_ordered (fun h : string => h)).
  - repeat split; constructor.
Qed.

(** [getPending()] lists the pending transactions, each once, in
    ascending order of nonce.  A limit of 0 is taken for no limit; a
    positive limit gives that many from the front. *)
Theorem getPending_in_nonce_order (p : TransactionMempool.pool) :
  TransactionMempool.ordered p ->
  exists pendingList,
    TransactionMempool.getPending None p = List.map Some pendingList /\
    pendingList ≡ₚ List.map snd (TransactionMempool.pendingTransactions p) /\
    StronglySorted (fun a b => body_nonce (tx_body a) <= body_nonce (tx_body b))
                   pendingList /\
    TransactionMempool.getPending (Some 0) p = TransactionMempool.getPending None p /\
    (forall n, 0 < n ->
       TransactionMempool.getPending (Some n) p
       = take (Z.to_nat n) (TransactionMempool.getPending None p)).
Proof.
  intros Hp. destruct (MempoolFacts.pending_in_order p Hp) as (H1 & H2 & H3).
  eexists. split; [exact H1 |]. split; [exact H2 |]. split; [exact H3 |].
  split; [reflexivity |].
  intros n Hn. unfold TransactionMempool.getPending, TransactionMempool.slice0.
  destruct (Z.eqb_spec n 0); [lia |].
  destruct (Z.ltb_spec n 0); [lia |].
  apply (fmap_take _ (Z.to_nat n)).
Qed.

(** [getBlockTransactions] returns a front part of the pending
    transactions in their order, of at most [maxTransactions]
    transactions and of a total text size of at most [maxSizeBytes]. *)
Theorem getBlockTransactions_within_limits
    (maxTransactions maxSizeBytes : Z) (p : TransactionMempool.pool) :
  TransactionMempool.ordered p ->
  exists blockTransactions,
    TransactionMempool.getBlockTransactions maxTransactions maxSizeBytes p
      = Returned blockTransactions /\
    List.map Some blockTransactions `prefix_of` TransactionMempool.getPending None p /\
    (blockTransactions = [] \/
     (Z.of_nat (List.length blockTransactions) <= maxTransactions /\
      TransactionMempool.totalSize blockTransactions <= maxSizeBytes)).
Proof.
  intros Hp. unfold TransactionMempool.getBlockTransactions.
  assert (Hall : Forall (fun h => is_Some (TransactionMempool.Map_get h
                                             (TransactionMempool.pendingTransactions p)))
                        (TransactionMempool.sortedTxHashes p)).
  { destruct Hp as (_ & _ & Hperm & _). apply Forall_forall. intros h Hh.
    apply MempoolFacts.get_is_Some. now rewrite <- Hperm. }
  destruct (MempoolFacts.blockLoop_spec (TransactionMempool.pendingTransactions p)
              maxTransactions maxSizeBytes (TransactionMempool.sortedTxHashes p) [] 0 Hall)
    as (more & Hrun & Hpre & Hb).
  exists more. split; [exact Hrun |]. split; [exact Hpre |].
  destruct Hb as [-> | [Hlen Hsize]]; [now left | right].
  cbn [app] in Hlen. split; [exact Hlen | lia].
Qed.

(** [add] keeps the pool within its capacity, and says which
    transaction gives way.  In an ordered pool of capacity at least 1
    that is not over its capacity, an [add] that returns files the
    transaction under its hash and leaves the pool within its capacity;
    when the pool was full, the entry that is dropped is the first of
    [sortedTxHashes], the one with the lowest nonce, not the one that
    was offered first. *)
Theorem add_keeps_capacity
    (hash : string -> string) (tx : Transaction) (p : TransactionMempool.pool) :
  (forall s, hash s <> EmptyString) ->
  TransactionMempool.ordered p ->
  1 <= TransactionMempool.maxSize p ->
  TransactionMempool.size p <= TransactionMempool.maxSize p ->
  (TransactionMempool.add hash tx p).1 = Returned tt ->
  TransactionMempool.size (TransactionMempool.add hash tx p).2
    <= TransactionMempool.maxSize (TransactionMempool.add hash tx p).2 /\
  TransactionMempool.maxSize (TransactionMempool.add hash tx p).2
    = TransactionMempool.maxSize p /\
  TransactionMempool.getTransaction (TransactionMempool.calculateTransactionHash hash tx)
    (TransactionMempool.add hash tx p).2 = Some tx /\
  (TransactionMempool.size p < TransactionMempool.maxSize p ->
   TransactionMempool.pendingTransactions (TransactionMempool.add hash tx p).2
   = (TransactionMempool.pendingTransactions p
      ++ [(TransactionMempool.calculateTransactionHash hash tx, tx)])%list) /\
  (TransactionMempool.size p = TransactionMempool.maxSize p ->
   exists oldestHash rest,
     TransactionMempool.sortedTxHashes p = oldestHash :: rest /\
     TransactionMempool.pendingTransactions (TransactionMempool.add hash tx p).2
     = (TransactionMempool.Map_delete oldestHash (TransactionMempool.pendingTransactions p)
        ++ [(TransactionMempool.calculateTransactionHash hash tx, tx)])%list /\
     Forall (fun h => TransactionMempool.nonceOf (TransactionMempool.pendingTransactions p)
                        oldestHash
                      <= TransactionMempool.nonceOf (TransactionMempool.pendingTransactions p) h)
            rest).
Proof.
  intros Hhash Hp Hmax Hsize Hret.
  set (k := TransactionMempool.calculateTransactionHash hash tx) in *.
  rewrite MempoolFacts.add_unfold in *. cbv zeta in *. fold k in Hret |- *.
  destruct (TransactionMempool.Map_has k (TransactionMempool.pendingTransactions p)) eqn:Hhas;
    [discriminate |].
  destruct (MempoolFacts.room_ordered p Hp) as [Hr Hrmax].
  pose proof (MempoolFacts.room_fresh k p Hhas) as Hfresh.
  destruct (MempoolFacts.append_ordered k tx (TransactionMempool.room p) Hr
              (MempoolFacts.calculateTransactionHash_nonempty hash Hhash tx) Hfresh)
    as (Hset & sorted & Hsort & _).
  rewrite Hsort, Hset. cbn [fst snd TransactionMempool.pendingTransactions
    TransactionMempool.maxSize].
  unfold TransactionMempool.size, TransactionMempool.getTransaction in *.
  cbn [TransactionMempool.pendingTransactions TransactionMempool.maxSize].
  assert (Hget : TransactionMempool.Map_get k
                   (TransactionMempool.pendingTransactions (TransactionMempool.room p)
                    ++ [(k, tx)])%list = Some tx).
  { rewrite MempoolFacts.get_app.
    destruct (TransactionMempool.Map_get k
                (TransactionMempool.pendingTransactions (TransactionMempool.room p)))
      as [t |] eqn:Ht.
    - exfalso. apply MempoolFacts.has_false in Hfresh. apply Hfresh.
      apply MempoolFacts.get_is_Some. now exists t.
    - cbn. now rewrite String.eqb_refl. }
  destruct Hp as (Hnd & Hne & Hperm & Hsorted).
  unfold TransactionMempool.room in *.
  destruct (Z.leb_spec (TransactionMempool.maxSize p)
              (Z.of_nat (List.length (TransactionMempool.pendingTransactions p))))
    as [Hfull | Hroom].
  - assert (Hlen : List.length (TransactionMempool.sortedTxHashes p)
                   = List.length (TransactionMempool.pendingTransactions p))
      by (rewrite Hperm; apply length_map).
    destruct (TransactionMempool.sortedTxHashes p) as [|h0 rest] eqn:Hs;
      [cbn in Hlen; lia |].
    assert (Hin : h0 ∈ List.map fst (TransactionMempool.pendingTransactions p))
      by (rewrite <- Hperm; left).
    assert (Hh0 : JS.nonempty h0 = true).
    { rewrite Forall_forall in Hne. specialize (Hne h0 Hin). now destruct h0. }
    rewrite Hh0 in *. cbn [TransactionMempool.pendingTransactions] in *.
    pose proof (MempoolCapacityFacts.length_delete h0 _ Hnd Hin) as Hdel.
    repeat split.
    + rewrite length_app. cbn [List.length]. lia.
    + exact Hget.
    + intros Hlt. lia.
    + intros _. exists h0, rest. repeat split.
      apply StronglySorted_inv in Hsorted as [_ Hall]. exact Hall.
  - repeat split.
    + rewrite length_app. cbn [List.length]. lia.
    + exact Hget.
    + intros Heq. lia.
Qed.

Lemma mempool_stays_ordered_witness :
  (forall s, Sample.hash s <> EmptyString) /\
  TransactionMempool.ordered Sample.pool2 /\
  TransactionMempool.sortedTxHashes Sample.pool2
    = [TransactionMempool.calculateTransactionHash Sample.hash Sample.tx_nonce1;
       TransactionMempool.calculateTransactionHash Sample.hash Sample.tx_nonce2] /\
  (forall tx,
     TransactionMempool.ordered (TransactionMempool.add Sample.hash tx Sample.pool2).2 /\
     ((TransactionMempool.add Sample.hash tx Sample.pool2).1 = Returned tt \/
      (TransactionMempool.Map_has (TransactionMempool.calculateTransactionHash Sample.hash tx)
         (TransactionMempool.pendingTransactions Sample.pool2) = true /\
       (TransactionMempool.add Sample.hash tx Sample.pool2).2 = Sample.pool2))) /\
  (forall h, TransactionMempool.ordered (TransactionMempool.remove h Sample.pool2)) /\
  (forall txs,
     TransactionMempool.ordered
       (TransactionMempool.removeTransactionsForBlock Sample.hash txs Sample.pool2)) /\
  (forall now maxAge,
     TransactionMempool.ordered
       (TransactionMempool.removeOldTransactions now maxAge Sample.pool2).2) /\
  TransactionMempool.ordered (TransactionMempool.clear Sample.pool2).
Proof.
  split; [exact MempoolCapacityFacts.sample_hash_nonempty |].
  split; [exact MempoolCapacityFacts.pool2_ordered |].
  split; [vm_compute; reflexivity |].
  exact (mempool_stays_ordered Sample.hash Sample.pool2 MempoolCapacityFacts.sample_hash_nonempty
           MempoolCapacityFacts.pool2_ordered).
Defined.

Lemma getPending_in_nonce_order_witness :
  TransactionMempool.ordered Sample.pool2 /\
  TransactionMempool.getPending None Sample.pool2
    = [Some Sample.tx_nonce1; Some Sample.tx_nonce2] /\
  exists pendingList,
    TransactionMempool.getPending None Sample.pool2 = List.map Some pendingList /\
    pendingList ≡ₚ List.map snd (TransactionMempool.pendingTransactions Sample.pool2) /\
    StronglySorted (fun a b => body_nonce (tx_body a) <= body_nonce (tx_body b))
                   pendingList /\
    TransactionMempool.getPending (Some 0) Sample.pool2
      = TransactionMempool.getPending None Sample.pool2 /\
    (forall n, 0 < n ->
       TransactionMempool.getPending (Some n) Sample.pool2
       = take (Z.to_nat n) (TransactionMempool.getPending None Sample.pool2)).
Proof.
  split; [exact MempoolCapacityFacts.pool2_ordered |].
  split; [vm_compute; reflexivity |].
  exact (getPending_in_nonce_order Sample.pool2 MempoolCapacityFacts.pool2_ordered).
Defined.

Lemma getBlockTransactions_within_limits_witness :
  TransactionMempool.ordered Sample.pool2 /\
  TransactionMempool.getBlockTransactions 1 1000000 Sample.pool2
    = Returned [Sample.tx_nonce1] /\
  exists blockTransactions,
    TransactionMempool.getBlockTransactions 1 1000000 Sample.pool2
      = Returned blockTransactions /\
    List.map Some blockTransactions
      `prefix_of` TransactionMempool.getPending None Sample.pool2 /\
    (blockTransactions = [] \/
     (Z.of_nat (List.length blockTransactions) <= 1 /\
      TransactionMempool.totalSize blockTransactions <= 1000000)).
Proof.
  split; [exact MempoolCapacityFacts.pool2_ordered |].
  split; [vm_compute; reflexivity |].
  exact (getBlockTransactions_within_limits 1 1000000 Sample.pool2
           MempoolCapacityFacts.pool2_ordered).
Defined.

Lemma add_keeps_capacity_witness :
  (forall s, Sample.hash s <> EmptyString) /\
  TransactionMempool.ordered Sample.pool2 /\
  1 <= TransactionMempool.maxSize Sample.pool2 /\
  TransactionMempool.size Sample.pool2 <= TransactionMempool.maxSize Sample.pool2 /\
  (TransactionMempool.add Sample.hash Sample.later_tx Sample.pool2).1 = Returned tt /\
  TransactionMempool.getTransaction
    (TransactionMempool.calculateTransactionHash Sample.hash Sample.tx_nonce1)
    (TransactionMempool.add Sample.hash Sample.later_tx Sample.pool2).2 = None /\
  TransactionMempool.size (TransactionMempool.add Sample.hash Sample.later_tx Sample.pool2).2
    <= TransactionMempool.maxSize
         (TransactionMempool.add Sample.hash Sample.later_tx Sample.pool2).2.
Proof.
  assert (H3 : 1 <= TransactionMempool.maxSize Sample.pool2) by (vm_compute; discriminate).
  assert (H4 : TransactionMempool.size Sample.pool2
               <= TransactionMempool.maxSize Sample.pool2) by (vm_compute; discriminate).
  assert (H5 : (TransactionMempool.add Sample.hash Sample.later_tx Sample.pool2).1
               = Returned tt) by (vm_compute; reflexivity).
  split; [exact MempoolCapacityFacts.sample_hash_nonempty |].
  split; [exact MempoolCapacityFacts.pool2_ordered |].
  split; [exact H3 |]. split; [exact H4 |]. split; [exact H5 |].
  split; [vm_compute; reflexivity |].
  exact (proj1 (add_keeps_capacity Sample.hash Sample.later_tx Sample.pool2
                  MempoolCapacityFacts.sample_hash_nonempty MempoolCapacityFacts.pool2_ordered H3 H4 H5)).
Defined.

(** ** The genesis batch *)

Module StoreFacts.
Import State.

Lemma get_put_eq k v st : get k (put k v st) = Some v.
Proof. destruct k; cbn; try apply lookup_insert_eq; reflexivity. Qed.

(** The keys that [same_key] identifies are the keys with one text. *)
Lemma key_text_same k k' : key_text k = key_text k' <-> same_key k k'.
Proof.
  destruct k, k'; cbv [key_text same_key String.append]; split; intros H;
    try discriminate H; try (injection H as H); try (now subst); try (now rewrite H);
    try reflexivity.
  (* two heights with one text are the same height *)
  match type of H with
  | JS.toString ?h = JS.toString ?h0 =>
      pose proof (JSFacts.BigInt_toString h) as H1;
      rewrite H, JSFacts.BigInt_toString in H1; congruence
  end.
Qed.

Lemma same_key_refl k : same_key k k.
Proof. now destruct k. Qed.


Lemma get_put_ne k k' v st : ~ same_key k k' -> get k (put k' v st) = get k st.
Proof.
  intros Hne. destruct k, k'; cbn; try reflexivity;
    try (apply lookup_insert_ne; intros Heq; apply Hne; cbn [same_key]; congruence);
    exfalso; apply Hne; reflexivity.
Qed.

Lemma get_del_eq k st : get k (del k st) = None.
Proof. destruct k; cbn; try apply lookup_delete_eq; reflexivity. Qed.

Lemma get_del_ne k k' st : ~ same_key k k' -> get k (del k' st) = get k st.
Proof.
  intros Hne. destruct k, k'; cbn; try reflexivity;
    try (apply lookup_delete_ne; intros Heq; apply Hne; cbn [same_key]; congruence);
    exfalso; apply Hne; reflexivity.
Qed.

Lemma get_apply_op_ne k o st :
  ~ same_key (op_key o) k -> get k (apply_op st o) = get k st.
Proof.
  assert (Hsym : forall k1 k2, same_key k1 k2 -> same_key k2 k1).
  { intros k1 k2. destruct k1, k2; cbn [same_key]; congruence. }
  destruct o as [k' v | k']; cbn [op_key apply_op]; intros Hne.
  - apply get_put_ne. intros H. apply Hne. now apply Hsym.
  - apply get_del_ne. intros H. apply Hne. now apply Hsym.
Qed.

Lemma get_apply_ops_skip k ops : forall st,
  Forall (fun o => ~ same_key (op_key o) k) ops -> get k (apply_ops ops st) = get k st.
Proof.
  induction ops as [|o ops IH]; intros st Hall; [reflexivity |].
  apply Forall_cons in Hall as [Ho Hall].
  unfold apply_ops in *. cbn [fold_left]. rewrite IH by exact Hall.
  now apply get_apply_op_ne.
Qed.

(** A put that no later operation of the batch overwrites is read back. *)
Lemma get_apply_ops_last k v pre post st :
  Forall (fun o => ~ same_key (op_key o) k) post ->
  get k (apply_ops (pre ++ OpPut k v :: post) st) = Some v.
Proof.
  intros Hpost. unfold apply_ops. rewrite fold_left_app. cbn [fold_left apply_op].
  change (get k (apply_ops post (put k v (fold_left apply_op pre st))) = Some v).
  rewrite get_apply_ops_skip by exact Hpost. apply get_put_eq.
Qed.



End StoreFacts.

Module BootstrapFacts.
Import JS State InstructionEngine GenesisBootstrap GenesisFacts StoreFacts.

Lemma member_true s ids : member s ids = true <-> s ∈ ids.
Proof. unfold member. apply bool_decide_eq_true. Qed.

Lemma member_false s ids : member s ids = false <-> s ∉ ids.
Proof. unfold member. apply bool_decide_eq_false. Qed.

(** A validation loop that returns has checked every item against the
    ids before it and collected the ids. *)
Lemma each_spec {A} (f : gset string -> A -> result (gset string))
    (idf : A -> string) (P : A -> Prop) :
  (forall seen x s', f seen x = Ok s' ->
     s' = ({[ idf x ]} ∪ seen) /\ (idf x ∉ seen) /\ P x) ->
  forall l seen s', each f l seen = Ok s' ->
    (forall y, y ∈ s' <-> y ∈ seen \/ y ∈ List.map idf l) /\
    NoDup (List.map idf l) /\
    (forall y, y ∈ List.map idf l -> y ∉ seen) /\
    Forall P l.
Proof.
  intros Hf. induction l as [|x l IH]; intros seen s' H; cbn [each] in H.
  - injection H as <-. split; [| split; [| split]]; try constructor.
    + now left.
    + intros [Hy | Hy]; [exact Hy | inversion Hy].
    + intros y Hy. inversion Hy.
  - apply then_ok in H as (s1 & Hx & H).
    destruct (Hf _ _ _ Hx) as (-> & Hfresh & HP).
    destruct (IH _ _ H) as (Hs' & Hnd & Hnew & Hall).
    cbn [List.map]. split; [| split; [| split]].
    + intros y. rewrite Hs', elem_of_union, elem_of_singleton, elem_of_cons. tauto.
    + apply NoDup_cons. split; [| exact Hnd].
      intros Hin. apply (Hnew _ Hin). apply elem_of_union. left. now apply elem_of_singleton.
    + intros y Hy. apply elem_of_cons in Hy as [-> | Hy]; [exact Hfresh |].
      intros Hseen. apply (Hnew _ Hy). apply elem_of_union. now right.
    + now constructor.
Qed.

Lemma all_ok_spec {A} (f : A -> result unit) l :
  all_ok f l = Ok tt -> Forall (fun x => f x = Ok tt) l.
Proof.
  induction l as [|x l IH]; cbn [all_ok]; [constructor |].
  intros H. apply then_ok in H as ([] & Hx & H). constructor; [exact Hx | now apply IH].
Qed.

Ltac checks H :=
  repeat match type of H with
         | then_ (check _ _) _ = Ok _ =>
             let Hc := fresh "Hc" in
             apply then_ok in H as (? & Hc & H); apply check_ok in Hc
         end.

Lemma validateDomain_spec seen d s' :
  validateDomain seen d = Ok s' ->
  s' = ({[ domain_id d ]} ∪ seen) /\ (domain_id d ∉ seen) /\ True.
Proof.
  unfold validateDomain. intros H. checks H. injection H as <-.
  repeat split. apply member_false. now apply negb_true_iff.
Qed.

Lemma validateAccount_spec domainIds seen a s' :
  validateAccount domainIds seen a = Ok s' ->
  s' = ({[ account_id a ]} ∪ seen) /\ (account_id a ∉ seen) /\
  domainOf "@" (account_id a) ∈ domainIds.
Proof.
  unfold validateAccount. intros H. checks H. injection H as <-.
  repeat split.
  - apply member_false. now apply negb_true_iff.
  - now apply member_true.
Qed.

Lemma validateRole_spec seen r s' :
  validateRole seen r = Ok s' ->
  s' = ({[ role_id r ]} ∪ seen) /\ (role_id r ∉ seen) /\ True.
Proof.
  unfold validateRole. intros H. checks H. injection H as <-.
  repeat split. apply member_false. now apply negb_true_iff.
Qed.

Lemma validateAsset_spec domainIds seen a s' :
  validateAsset domainIds seen a = Ok s' ->
  s' = ({[ asset_id a ]} ∪ seen) /\ (asset_id a ∉ seen) /\
  domainOf "#" (asset_id a) ∈ domainIds.
Proof.
  unfold validateAsset. intros H. checks H. injection H as <-.
  repeat split.
  - apply member_false. now apply negb_true_iff.
  - now apply member_true.
Qed.

Lemma validateValidator_spec seen v s' :
  validateValidator seen v = Ok s' ->
  s' = ({[ validator_id v ]} ∪ seen) /\ (validator_id v ∉ seen) /\ True.
Proof.
  unfold validateValidator. intros H. checks H. injection H as <-.
  repeat split. apply member_false. now apply negb_true_iff.
Qed.

Lemma validateBalance_spec assetIds accountIds b :
  validateBalance assetIds accountIds b = Ok tt ->
  balance_asset_id b ∈ assetIds /\ balance_account_id b ∈ accountIds /\
  amount_re (balance_amount b) = true.
Proof.
  unfold validateBalance. intros H. checks H. apply check_ok in H.
  repeat split; try assumption; now apply member_true.
Qed.

Lemma validateAccountRoles_spec roleIds a :
  validateAccountRoles roleIds a = Ok tt -> Forall (fun r => r ∈ roleIds) (account_roles a).
Proof.
  unfold validateAccountRoles. intros H. apply check_ok in H.
  apply Forall_forall. intros r Hr. rewrite forallb_forall in H.
  apply member_true. apply H. now apply list_elem_of_In.
Qed.

Lemma validateGenesisConfig_valid cfg : validateGenesisConfig cfg = Ok tt -> valid cfg.
Proof.
  unfold validateGenesisConfig. intros H.
  apply then_ok in H as (? & _ & H).
  apply then_ok in H as (domainIds & Hd & H).
  apply then_ok in H as (accountIds & Ha & H).
  apply then_ok in H as (roleIds & Hr & H).
  apply then_ok in H as (assetIds & Hs & H).
  apply then_ok in H as ([] & Hb & H).
  apply then_ok in H as ([] & Har & H).
  apply then_ok in H as (validatorIds & Hv & H).
  destruct (each_spec validateDomain domain_id (fun _ => True)
              validateDomain_spec _ _ _ Hd) as (Hdi & Hdn & _ & _).
  destruct (each_spec (validateAccount domainIds) account_id
              (fun a => domainOf "@" (account_id a) ∈ domainIds)
              (validateAccount_spec domainIds) _ _ _ Ha) as (Hai & Han & _ & Hap).
  destruct (each_spec validateRole role_id (fun _ => True)
              validateRole_spec _ _ _ Hr) as (Hri & Hrn & _ & _).
  destruct (each_spec (validateAsset domainIds) asset_id
              (fun a => domainOf "#" (asset_id a) ∈ domainIds)
              (validateAsset_spec domainIds) _ _ _ Hs) as (Hsi & Hsn & _ & Hsp).
  destruct (each_spec validateValidator validator_id (fun _ => True)
              validateValidator_spec _ _ _ Hv) as (_ & Hvn & _ & _).
  assert (Hset : forall (ids : gset string) (l : list string) y,
            (forall y, y ∈ ids <-> y ∈ (∅ : gset string) \/ y ∈ l) -> y ∈ ids -> y ∈ l).
  { intros ids l y Hi Hy. apply Hi in Hy as [Hy | Hy]; [| exact Hy].
    now apply not_elem_of_empty in Hy. }
  constructor; try assumption.
  - eapply Forall_impl; [exact Hap |]. intros a Hin. cbv beta in *. eapply Hset; eauto.
  - eapply Forall_impl; [exact Hsp |]. intros a Hin. cbv beta in *. eapply Hset; eauto.
  - apply all_ok_spec in Hb. eapply Forall_impl; [exact Hb |]. intros b Hbb.
    apply validateBalance_spec in Hbb as (H1 & H2 & H3). repeat split; eauto.
  - apply all_ok_spec in Har. eapply Forall_impl; [exact Har |]. intros a Haa.
    apply validateAccountRoles_spec in Haa.
    eapply Forall_impl; [exact Haa |]. intros r Hrr. cbv beta in *. eapply Hset; eauto.
Qed.

Lemma NoDup_map_inj {A} (f : A -> string) l x y :
  NoDup (List.map f l) -> x ∈ l -> y ∈ l -> f x = f y -> x = y.
Proof.
  induction l as [|z l IH]; intros Hnd Hx Hy Hf; [inversion Hx |].
  cbn [List.map] in Hnd. apply NoDup_cons in Hnd as [Hz Hnd].
  assert (Hin : forall w, w ∈ l -> f w ∈ List.map f l).
  { intros w Hw. apply list_elem_of_In, in_map. now apply list_elem_of_In. }
  apply elem_of_cons in Hx as [-> | Hx]; apply elem_of_cons in Hy as [-> | Hy].
  - reflexivity.
  - exfalso. apply Hz. rewrite Hf. now apply Hin.
  - exfalso. apply Hz. rewrite <- Hf. now apply Hin.
  - now apply IH.
Qed.

Lemma elem_of_map_inv {A} (f : A -> string) l y :
  y ∈ List.map f l -> exists x, x ∈ l /\ f x = y.
Proof.
  intros H. apply list_elem_of_In, in_map_iff in H as (x & Hx & Hin).
  exists x. split; [now apply list_elem_of_In | exact Hx].
Qed.

(** A put whose key no other operation of the batch uses with another
    value is read back after the batch. *)
Lemma get_apply_ops_unique k v ops : forall st,
  OpPut k v ∈ ops ->
  (forall o, o ∈ ops -> same_key (op_key o) k -> o = OpPut k v) ->
  get k (apply_ops ops st) = Some v.
Proof.
  induction ops as [|o ops IH] using rev_ind; intros st Hin Huniq; [inversion Hin |].
  unfold apply_ops in *. rewrite fold_left_app. cbn [fold_left].
  destruct (decide (same_key (op_key o) k)) as [Hk | Hk].
  - rewrite (Huniq o) by (try exact Hk; apply elem_of_app; right; left).
    apply get_put_eq.
  - rewrite get_apply_op_ne by exact Hk. apply IH.
    + apply elem_of_app in Hin as [Hin | Hin]; [exact Hin |].
      apply list_elem_of_singleton in Hin. subst o. exfalso. apply Hk.
      apply same_key_refl.
    + intros o' Ho'. apply Huniq. apply elem_of_app. now left.
Qed.

Lemma accountOps_elem o a :
  o ∈ accountOps a <->
  o = OpPut (KAccount (account_id a)) a \/
  (account_roles a <> [] /\ o = OpPut (KAccountRoles (account_id a)) (account_roles a)).
Proof.
  unfold accountOps. destruct (account_roles a) as [|r rs]; cbn [List.length].
  - change (0 <? Z.of_nat 0) with false. cbv iota.
    rewrite list_elem_of_singleton. split; [now left |]. now intros [H | [[] _]].
  - replace (0 <? Z.of_nat (S (List.length rs))) with true by (symmetry; apply Z.ltb_lt; lia).
    cbv iota. rewrite elem_of_cons, list_elem_of_singleton. split.
    + intros [H | H]; [now left | right; split; [discriminate | exact H]].
    + intros [H | [_ H]]; [now left | now right].
Qed.

Lemma genesisOps_elem hashHeader cfg b o :
  o ∈ genesisOps hashHeader cfg b <-> genesis_op hashHeader cfg b o.
Proof.
  unfold genesisOps. split.
  - intros H.
    repeat (apply elem_of_app in H as [H | H]).
    + apply list_elem_of_In, in_map_iff in H as (d & <- & Hd%list_elem_of_In).
      now constructor.
    + apply list_elem_of_In, in_concat in H as (l & Hl & Ho).
      apply in_map_iff in Hl as (a & <- & Ha%list_elem_of_In).
      apply list_elem_of_In, accountOps_elem in Ho as [-> | [Hr ->]]; now constructor.
    + apply list_elem_of_In, in_map_iff in H as (d & <- & Hd%list_elem_of_In).
      now constructor.
    + apply list_elem_of_In, in_map_iff in H as (d & <- & Hd%list_elem_of_In).
      now constructor.
    + apply list_elem_of_In, in_map_iff in H as (d & <- & Hd%list_elem_of_In).
      now constructor.
    + apply list_elem_of_In, in_map_iff in H as (d & <- & Hd%list_elem_of_In).
      now constructor.
    + repeat (apply elem_of_cons in H as [-> | H]); try constructor. inversion H.
  - assert (Hmap : forall {A} (f : A -> op) (l : list A) x, x ∈ l -> f x ∈ List.map f l).
    { intros A f l x Hx. apply list_elem_of_In, in_map. now apply list_elem_of_In. }
    assert (Hacc : forall a o, a ∈ g_accounts cfg -> o ∈ accountOps a ->
                     o ∈ List.concat (List.map accountOps (g_accounts cfg))).
    { intros a o' Ha Ho. apply list_elem_of_In, in_concat. exists (accountOps a).
      split; [apply in_map | ]; now apply list_elem_of_In. }
    intros H. destruct H.
    + apply elem_of_app. left. now apply (Hmap _ (fun d => OpPut (KDomain (domain_id d)) d)).
    + apply elem_of_app. right. apply elem_of_app. left.
      apply (Hacc a); [assumption |]. apply accountOps_elem. now left.
    + apply elem_of_app. right. apply elem_of_app. left.
      apply (Hacc a); [assumption |]. apply accountOps_elem. now right.
    + do 2 (apply elem_of_app; right). apply elem_of_app. left.
      now apply (Hmap _ (fun a => OpPut (KAsset (asset_id a)) a)).
    + do 3 (apply elem_of_app; right). apply elem_of_app. left.
      now apply (Hmap _ (fun x => OpPut (KBalance (balance_asset_id x) (balance_account_id x)) x)).
    + do 4 (apply elem_of_app; right). apply elem_of_app. left.
      now apply (Hmap _ (fun r => OpPut (KRole (role_id r)) r)).
    + do 5 (apply elem_of_app; right). apply elem_of_app. left.
      now apply (Hmap _ (fun v => OpPut (KValidator (validator_id v)) v)).
    + do 6 (apply elem_of_app; right). left.
    + do 6 (apply elem_of_app; right). right. left.
    + do 6 (apply elem_of_app; right). do 2 right. left.
    + do 6 (apply elem_of_app; right). do 3 right. left.
Qed.


Lemma bootstrap_ok hashHeader signBlock commit_ok now cfg st b st' :
  bootstrap hashHeader signBlock commit_ok now cfg st = (Ok b, st') ->
  validateGenesisConfig cfg = Ok tt /\
  st' = apply_ops (genesisOps hashHeader cfg b) st.
Proof.
  unfold bootstrap, batch.
  destruct (validateGenesisConfig cfg) as [[] | e]; [| discriminate].
  destruct (createGenesisBlock signBlock now) as [g | e]; [| discriminate].
  destruct commit_ok; [| discriminate].
  intros H. injection H as <- <-. now split.
Qed.

Section Stored.
Variable hashHeader : BlockHeader -> string.
Variables (cfg : GenesisConfig) (b : Block) (st : store).
Hypothesis Hvalid : valid cfg.

Ltac by_key H :=
  let Hk := fresh "Hk" in
  intros ? H Hk; apply genesisOps_elem in H; destruct H; cbn [op_key same_key] in Hk;
  try discriminate Hk; injection Hk as Hk.

Lemma stored_domain d : d ∈ g_domains cfg -> get (KDomain (domain_id d)) (apply_ops (genesisOps hashHeader cfg b) st)
    = Some d.
Proof.
  intros Hd. apply get_apply_ops_unique.
  - apply genesisOps_elem. now constructor.
  - by_key H.
    now rewrite (NoDup_map_inj domain_id _ _ _ (valid_domains _ Hvalid) H Hd Hk).
Qed.

Lemma stored_account a : a ∈ g_accounts cfg -> get (KAccount (account_id a)) (apply_ops (genesisOps hashHeader cfg b) st)
    = Some a.
Proof.
  intros Hd. apply get_apply_ops_unique.
  - apply genesisOps_elem. now constructor.
  - by_key H.
    now rewrite (NoDup_map_inj account_id _ _ _ (valid_accounts _ Hvalid) H Hd Hk).
Qed.

Lemma stored_account_roles a :
  a ∈ g_accounts cfg -> account_roles a <> [] ->
  get (KAccountRoles (account_id a)) (apply_ops (genesisOps hashHeader cfg b) st)
    = Some (account_roles a).
Proof.
  intros Hd Hr. apply get_apply_ops_unique.
  - apply genesisOps_elem. now constructor.
  - by_key H.
    now rewrite (NoDup_map_inj account_id _ _ _ (valid_accounts _ Hvalid) H Hd Hk).
Qed.

Lemma unstored_account_roles a :
  a ∈ g_accounts cfg -> account_roles a = [] ->
  get (KAccountRoles (account_id a)) (apply_ops (genesisOps hashHeader cfg b) st)
    = get (KAccountRoles (account_id a)) st.
Proof.
  intros Hd Hr. apply get_apply_ops_skip. apply Forall_forall. intros o Ho Hk.
  apply genesisOps_elem in Ho. destruct Ho; cbn [op_key same_key] in Hk;
    try discriminate Hk.
  injection Hk as Hk.
  match goal with
  | Hn : account_roles ?a0 <> [] |- _ =>
      apply Hn;
      now rewrite (NoDup_map_inj account_id _ a0 a (valid_accounts _ Hvalid))
  end.
Qed.

Lemma stored_asset a : a ∈ g_assets cfg -> get (KAsset (asset_id a)) (apply_ops (genesisOps hashHeader cfg b) st)
    = Some a.
Proof.
  intros Hd. apply get_apply_ops_unique.
  - apply genesisOps_elem. now constructor.
  - by_key H.
    now rewrite (NoDup_map_inj asset_id _ _ _ (valid_assets _ Hvalid) H Hd Hk).
Qed.

Lemma stored_role r : r ∈ g_roles cfg -> get (KRole (role_id r)) (apply_ops (genesisOps hashHeader cfg b) st)
    = Some r.
Proof.
  intros Hd. apply get_apply_ops_unique.
  - apply genesisOps_elem. now constructor.
  - by_key H.
    now rewrite (NoDup_map_inj role_id _ _ _ (valid_roles _ Hvalid) H Hd Hk).
Qed.

Lemma stored_validator v :
  v ∈ g_validators cfg -> get (KValidator (validator_id v)) (apply_ops (genesisOps hashHeader cfg b) st)
    = Some v.
Proof.
  intros Hd. apply get_apply_ops_unique.
  - apply genesisOps_elem. now constructor.
  - by_key H.
    now rewrite (NoDup_map_inj validator_id _ _ _ (valid_validators _ Hvalid) H Hd Hk).
Qed.

Lemma stored_chain_id : get KChainId (apply_ops (genesisOps hashHeader cfg b) st)
    = Some (g_chain_id cfg).
Proof.
  apply get_apply_ops_unique.
  - apply genesisOps_elem. constructor.
  - intros o H Hk. apply genesisOps_elem in H.
    destruct H; cbn [op_key same_key] in Hk; try discriminate Hk. reflexivity.
Qed.

End Stored.

End BootstrapFacts.

Module HoldingFacts.
Import JS State Amount InstructionEngine GenesisBootstrap.
Import GenesisFacts StoreFacts BootstrapFacts.

Lemma all_digits_no_dot s : has_char "." s = true -> all_digits s = false.
Proof.
  induction s as [|c s IH]; [discriminate |].
  cbn [has_char all_digits]. intros [Hc | Hs]%orb_true_iff.
  - apply Ascii.eqb_eq in Hc as ->. reflexivity.
  - rewrite IH by exact Hs. apply andb_false_r.
Qed.

(** [BigInt] rejects every text that holds a decimal point. *)
Lemma BigInt_fraction s : has_char "." s = true -> BigInt s = None.
Proof.
  intros H. unfold BigInt. rewrite (all_digits_no_dot s H).
  destruct s as [|c t]; [reflexivity |].
  destruct (Ascii.eqb c "-") eqn:Hc; [| reflexivity].
  apply Ascii.eqb_eq in Hc as ->. cbn [has_char] in H.
  change (Ascii.eqb "-" ".") with false in H. cbn [orb] in H.
  rewrite (all_digits_no_dot t H). now rewrite andb_false_r.
Qed.

(** The genesis batch leaves under a balance key the last entry that the
    configuration lists for it. *)
Lemma stored_balance hashHeader cfg b st pre x post :
  g_balances cfg = (pre ++ x :: post)%list ->
  Forall (fun y => balanceKey (balance_asset_id y) (balance_account_id y)
                   <> balanceKey (balance_asset_id x) (balance_account_id x)) post ->
  get (KBalance (balance_asset_id x) (balance_account_id x))
      (apply_ops (genesisOps hashHeader cfg b) st) = Some x.
Proof.
  intros Hbal Hpost.
  pose (f := fun y => OpPut (KBalance (balance_asset_id y) (balance_account_id y)) y).
  assert (Hops : exists before after,
             genesisOps hashHeader cfg b = (before ++ f x :: List.map f post ++ after)%list /\
             Forall (fun o => match op_key o with KBalance _ _ => False | _ => True end) after).
  { unfold genesisOps. rewrite Hbal. fold f. rewrite map_app. cbn [List.map].
    exists (List.map (fun d => OpPut (KDomain (domain_id d)) d) (g_domains cfg)
            ++ List.concat (List.map accountOps (g_accounts cfg))
            ++ List.map (fun a => OpPut (KAsset (asset_id a)) a) (g_assets cfg)
            ++ List.map f pre)%list.
    eexists. split.
    - rewrite <- !app_assoc. cbn [app]. reflexivity.
    - apply Forall_app. split; [| apply Forall_app; split].
      + apply Forall_forall. intros o Ho.
        apply list_elem_of_In, in_map_iff in Ho as (r & <- & _). exact I.
      + apply Forall_forall. intros o Ho.
        apply list_elem_of_In, in_map_iff in Ho as (r & <- & _). exact I.
      + repeat constructor. }
  destruct Hops as (before & after & -> & Hafter).
  apply get_apply_ops_last. apply Forall_app. split.
  - apply Forall_forall. intros o Ho.
    apply list_elem_of_In, in_map_iff in Ho as (y & <- & Hy%list_elem_of_In).
    rewrite Forall_forall in Hpost. exact (Hpost y Hy).
  - eapply Forall_impl; [exact Hafter |]. intros o Ho Hk. cbv beta in Ho.
    destruct (op_key o); try contradiction; cbn [same_key] in Hk; discriminate Hk.
Qed.

End HoldingFacts.

(** A bootstrap that returns has stored the configuration: every domain,
    account, asset, role and validator of the configuration is read back
    under its id, the chain id is recorded, and an account's role list is
    written only when it is not empty (for an account listed without
    roles the key [account_roles/<id>] keeps what it held). *)
Theorem bootstrap_stores_configuration
    (hashHeader : BlockHeader -> string) (signBlock : Block -> result Signature)
    (commit_ok : bool) (now : Z) (cfg : GenesisBootstrap.GenesisConfig)
    (st st' : State.store) (b : Block) :
  GenesisBootstrap.bootstrap hashHeader signBlock commit_ok now cfg st = (Ok b, st') ->
  (forall d, d ∈ GenesisBootstrap.g_domains cfg -> State.getDomain (domain_id d) st' = Some d) /\
  (forall a, a ∈ GenesisBootstrap.g_accounts cfg ->
     State.getAccount (account_id a) st' = Some a /\
     State.getAccountRoles (account_id a) st'
     = if decide (account_roles a = []) then State.getAccountRoles (account_id a) st
       else Some (account_roles a)) /\
  (forall a, a ∈ GenesisBootstrap.g_assets cfg -> State.getAsset (asset_id a) st' = Some a) /\
  (forall r, r ∈ GenesisBootstrap.g_roles cfg -> State.getRole (role_id r) st' = Some r) /\
  (forall v, v ∈ GenesisBootstrap.g_validators cfg ->
     State.get (State.KValidator (validator_id v)) st' = Some v) /\
  State.get State.KChainId st' = Some (GenesisBootstrap.g_chain_id cfg).
Proof.
  intros H. apply BootstrapFacts.bootstrap_ok in H as [Hv ->].
  apply BootstrapFacts.validateGenesisConfig_valid in Hv.
  split; [| split; [| split; [| split; [| split]]]].
  - intros d Hd. now apply BootstrapFacts.stored_domain.
  - intros a Ha. split; [now apply BootstrapFacts.stored_account |].
    destruct (decide (account_roles a = [])) as [Hr | Hr].
    + now apply BootstrapFacts.unstored_account_roles.
    + now apply BootstrapFacts.stored_account_roles.
  - intros a Ha. now apply BootstrapFacts.stored_asset.
  - intros r Hr. now apply BootstrapFacts.stored_role.
  - intros v Hv'. now apply BootstrapFacts.stored_validator.
  - now apply BootstrapFacts.stored_chain_id.
Qed.

Lemma bootstrap_stores_configuration_witness :
  State.getAccount "guest@root"
    (GenesisBootstrap.bootstrap Sample.hashHeader Sample.signBlock true 5
       Sample.genesis_fractional State.empty).2
  = Some (mkAccount "guest@root" "ed25519:g" [] 0) /\
  State.getAccountRoles "guest@root"
    (GenesisBootstrap.bootstrap Sample.hashHeader Sample.signBlock true 5
       Sample.genesis_fractional State.empty).2
  = None.
Proof.
  assert (H : GenesisBootstrap.bootstrap Sample.hashHeader Sample.signBlock true 5
                Sample.genesis_fractional State.empty
              = (Ok Sample.genesis_block,
                 (GenesisBootstrap.bootstrap Sample.hashHeader Sample.signBlock true 5
                    Sample.genesis_fractional State.empty).2))
    by (vm_compute; reflexivity).
  refine (proj1 (proj2 (bootstrap_stores_configuration _ _ _ _ _ _ _ _ H))
            (mkAccount "guest@root" "ed25519:g" [] 0) _).
  right. left.
Defined.



(** Genesis validation accepts a balance amount written with a fraction,
    and bootstrap stores the text as it is: under a balance key it leaves
    the last entry that the configuration lists for the text of the key
    (two pairs of ids can name one key). The engine
    reads stored amounts with [BigInt], which rejects such a text, so
    every mint to that holding, every burn from it and every transfer out
    of it raises and changes nothing. *)
Theorem fractional_genesis_balance_blocks_holding
    (hashHeader : BlockHeader -> string) (signBlock : Block -> result Signature)
    (commit_ok : bool) (now : Z) (cfg : GenesisBootstrap.GenesisConfig)
    (st st' : State.store) (b : Block) (pre post : list Balance) (x : Balance) :
  GenesisBootstrap.bootstrap hashHeader signBlock commit_ok now cfg st = (Ok b, st') ->
  GenesisBootstrap.g_balances cfg = (pre ++ x :: post)%list ->
  Forall (fun y => State.balanceKey (balance_asset_id y) (balance_account_id y)
                   <> State.balanceKey (balance_asset_id x) (balance_account_id x)) post ->
  JS.has_char "." (balance_amount x) = true ->
  State.getBalance (balance_asset_id x) (balance_account_id x) st' = Some x /\
  forall (t : Z) (signer amount dest : string) (i : Instruction),
    i ∈ [MintAsset (balance_asset_id x) (balance_account_id x) amount;
         BurnAsset (balance_asset_id x) (balance_account_id x) amount;
         TransferAsset (balance_asset_id x) (balance_account_id x) dest amount] ->
    exists e, InstructionEngine.execute t i signer st' = (Throw e, st').
Proof.
  intros H Hbal Hpost Hdot. apply BootstrapFacts.bootstrap_ok in H as [Hv ->].
  apply BootstrapFacts.validateGenesisConfig_valid in Hv.
  pose proof (HoldingFacts.stored_balance hashHeader cfg b st pre x post Hbal Hpost) as Hx.
  split; [exact Hx |].
  pose proof (GenesisBootstrap.valid_balances _ Hv) as Hall.
  rewrite Forall_forall in Hall.
  destruct (Hall x) as (Hasset & Hacc & _).
  { rewrite Hbal. apply elem_of_app. right. left. }
  apply BootstrapFacts.elem_of_map_inv in Hasset as (a & Ha & Haid).
  apply BootstrapFacts.elem_of_map_inv in Hacc as (c & Hc & Hcid).
  pose proof (BootstrapFacts.stored_asset hashHeader cfg b st Hv a Ha) as Hsa.
  pose proof (BootstrapFacts.stored_account hashHeader cfg b st Hv c Hc) as Hsc.
  rewrite Haid in Hsa. rewrite Hcid in Hsc.
  pose proof (HoldingFacts.BigInt_fraction _ Hdot) as Hbig.
  intros t signer amount dest i Hi.
  repeat (apply elem_of_cons in Hi as [-> | Hi]); [| | | inversion Hi];
    cbn [InstructionEngine.execute];
    unfold InstructionEngine.handleMintAsset, InstructionEngine.handleBurnAsset,
      InstructionEngine.handleTransferAsset, InstructionEngine.bind, InstructionEngine.read,
      InstructionEngine.lift, InstructionEngine.bigint, InstructionEngine.throw,
      State.getAsset, State.getAccount, State.getBalance;
    rewrite Hsa, Hsc.
  - destruct (Amount.validateAmount amount (asset_precision a)); [| eauto].
    rewrite Hx, Hbig. eauto.
  - destruct (Amount.validateAmount amount (asset_precision a)); [| eauto].
    rewrite Hx, Hbig. eauto.
  - destruct (State.get (State.KAccount dest) _); [| eauto].
    destruct (Amount.validateAmount amount (asset_precision a)); [| eauto].
    rewrite Hx, Hbig. eauto.
Qed.

Lemma fractional_genesis_balance_blocks_holding_witness :
  State.getBalance Sample.usd "admin@root"
    (GenesisBootstrap.bootstrap Sample.hashHeader Sample.signBlock true 5
       Sample.genesis_fractional State.empty).2
  = Some (mkBalance Sample.usd "admin@root" "1000.00") /\
  forall (t : Z) (signer amount dest : string) (i : Instruction),
    i ∈ [MintAsset Sample.usd "admin@root" amount;
         BurnAsset Sample.usd "admin@root" amount;
         TransferAsset Sample.usd "admin@root" dest amount] ->
    exists e,
      InstructionEngine.execute t i signer
        (GenesisBootstrap.bootstrap Sample.hashHeader Sample.signBlock true 5
           Sample.genesis_fractional State.empty).2
      = (Throw e,
         (GenesisBootstrap.bootstrap Sample.hashHeader Sample.signBlock true 5
            Sample.genesis_fractional State.empty).2).
Proof.
  assert (H : GenesisBootstrap.bootstrap Sample.hashHeader Sample.signBlock true 5
                Sample.genesis_fractional State.empty
              = (Ok Sample.genesis_block,
                 (GenesisBootstrap.bootstrap Sample.hashHeader Sample.signBlock true 5
                    Sample.genesis_fractional State.empty).2))
    by (vm_compute; reflexivity).
  refine (fractional_genesis_balance_blocks_holding _ _ _ _ _ _ _ _
            [] [] (mkBalance Sample.usd "admin@root" "1000.00") H eq_refl _ eq_refl).
  constructor.
Defined.
